(** * ADS-B traffic simulator: a shallow embedding of [adsb_simulator.py]

    The Python program is embedded as executable Rocq functions.

    - Python [float] and [int] attributes of the kinematic state are exact
      rationals ([Q]); [x % 360] is the floored remainder, [max], [min] and
      [abs] are Python's.  Rounding of IEEE doubles is modelled in one
      place, module [Binary64]: the heading's path through
      [update_position], where it decides the bound [heading < 360].
    - Methods are computations in a state-and-exception monad.  The state is
      the receiver object paired with the [World]: the positions reached in
      the random stream, the wall clock, the bus script and the sleeps, and
      the output trace (log records, bus calls, sleeps, and the calls the main
      loop makes).  An exception leaves the state as it was at the [raise],
      as in Python.
    - What the program gets from outside (geopy, math, the raw words of
      random, time.time, the YAML file, the Kafka client, signals) is an
      [Env] record that every definition takes as a parameter.
    - An instance whose [__init__] is still running is an [Instance]: every
      attribute is unbound until assigned, and reading an unbound attribute
      raises [AttributeError]. *)

From Stdlib Require Import QArith Qround Qabs Lia Lqa ZArith.
From Stdlib Require Floats Uint63.
From stdpp Require Import base gmap strings list pretty.

Set Warnings "-register-all".

(** ** Python numerics on exact rationals *)

Definition Qltb (x y : Q) : bool := negb (Qle_bool y x).

Definition Qeqb (x y : Q) : bool := Qeq_bool x y.

(** [max(a, b)] returns [b] only when [b > a]; [min(a, b)] only when [b < a]. *)
Definition py_max (a b : Q) : Q := if Qltb a b then b else a.

Definition py_min (a b : Q) : Q := if Qltb b a then b else a.

(** [x % m] for a positive [m]: the floored remainder. *)
Definition py_mod (x m : Q) : Q := (x - m * inject_Z (Qfloor (x / m)))%Q.

(** [int(x)]: truncation toward zero. *)
Definition py_int (x : Q) : Z := Z.quot (Qnum x) (Zpos (Qden x)).

(** [round(x, 6)]: the nearest multiple of 10^-6, ties to even. *)
Definition py_round6 (x : Q) : Q :=
  let y := (x * 1000000)%Q in
  let f := Qfloor y in
  let r := (y - inject_Z f)%Q in
  let n := if Qltb r (1 # 2) then f
           else if Qltb (1 # 2) r then (f + 1)%Z
           else if Z.even f then f else (f + 1)%Z in
  (inject_Z n / 1000000)%Q.

(** ** Exceptions *)

Inductive exn :=
| AttributeError (attr : string)
| KeyError (key : string)
| TypeError
| ValueError
| IndexError
| ZeroDivisionError
| OSError
| YAMLError
| BufferError
| KafkaException (msg : string)
| KeyboardInterrupt
| SystemExit (code : Z).

(** [except Exception] catches everything but the two [BaseException]s. *)
Definition is_Exception (e : exn) : bool :=
  match e with
  | KeyboardInterrupt | SystemExit _ => false
  | _ => true
  end.

Inductive result (A : Type) :=
| Ok (a : A)
| Raise (e : exn).

Arguments Ok {A} a.
Arguments Raise {A} e.

(** ** Values *)

(** geopy's [Point(latitude, longitude)]. *)
Record Point := { pt_latitude : Q; pt_longitude : Q }.

Record Waypoint := { wp_latitude : Q; wp_longitude : Q; wp_name : string }.

Record ADSBMessage := {
  msg_icao_address : string;
  msg_callsign : string;
  msg_latitude : Q;
  msg_longitude : Q;
  msg_altitude : Z;
  msg_ground_speed : Z;
  msg_heading : Z;
  msg_timestamp : string;
  msg_squawk : string;
  msg_aircraft_type : string
}.

(** The [Faker()] object [__init__] stores; nothing reads it. *)
Inductive Faker := FakerObject.

Record Aircraft := {
  icao_address : string;
  aircraft_type : string;
  faker : Faker;
  callsign : string;
  latitude : Q;
  longitude : Q;
  altitude : Q;
  ground_speed : Q;
  max_speed : Q;
  min_speed : Q;
  climb_rate : Q;
  heading : Q;
  target_altitude : Q;
  target_speed : Q;
  target_heading : Q;
  waypoints : list Waypoint;
  current_waypoint_index : Z;
  emergency_state : bool;
  conflict_state : bool;
  squawk : string;
  last_update : Q
}.

Definition with_latitude (v : Q) (a : Aircraft) : Aircraft :=
  {| icao_address := icao_address a; aircraft_type := aircraft_type a; faker :=
     faker a; callsign := callsign a; latitude := v; longitude := longitude a;
     altitude := altitude a; ground_speed := ground_speed a; max_speed :=
     max_speed a; min_speed := min_speed a; climb_rate := climb_rate a; heading
     := heading a; target_altitude := target_altitude a; target_speed :=
     target_speed a; target_heading := target_heading a; waypoints := waypoints
     a; current_waypoint_index := current_waypoint_index a; emergency_state :=
     emergency_state a; conflict_state := conflict_state a; squawk := squawk a;
     last_update := last_update a |}.

Definition with_longitude (v : Q) (a : Aircraft) : Aircraft :=
  {| icao_address := icao_address a; aircraft_type := aircraft_type a; faker :=
     faker a; callsign := callsign a; latitude := latitude a; longitude := v;
     altitude := altitude a; ground_speed := ground_speed a; max_speed :=
     max_speed a; min_speed := min_speed a; climb_rate := climb_rate a; heading
     := heading a; target_altitude := target_altitude a; target_speed :=
     target_speed a; target_heading := target_heading a; waypoints := waypoints
     a; current_waypoint_index := current_waypoint_index a; emergency_state :=
     emergency_state a; conflict_state := conflict_state a; squawk := squawk a;
     last_update := last_update a |}.

Definition with_altitude (v : Q) (a : Aircraft) : Aircraft :=
  {| icao_address := icao_address a; aircraft_type := aircraft_type a; faker :=
     faker a; callsign := callsign a; latitude := latitude a; longitude :=
     longitude a; altitude := v; ground_speed := ground_speed a; max_speed :=
     max_speed a; min_speed := min_speed a; climb_rate := climb_rate a; heading
     := heading a; target_altitude := target_altitude a; target_speed :=
     target_speed a; target_heading := target_heading a; waypoints := waypoints
     a; current_waypoint_index := current_waypoint_index a; emergency_state :=
     emergency_state a; conflict_state := conflict_state a; squawk := squawk a;
     last_update := last_update a |}.

Definition with_ground_speed (v : Q) (a : Aircraft) : Aircraft :=
  {| icao_address := icao_address a; aircraft_type := aircraft_type a; faker :=
     faker a; callsign := callsign a; latitude := latitude a; longitude :=
     longitude a; altitude := altitude a; ground_speed := v; max_speed :=
     max_speed a; min_speed := min_speed a; climb_rate := climb_rate a; heading
     := heading a; target_altitude := target_altitude a; target_speed :=
     target_speed a; target_heading := target_heading a; waypoints := waypoints
     a; current_waypoint_index := current_waypoint_index a; emergency_state :=
     emergency_state a; conflict_state := conflict_state a; squawk := squawk a;
     last_update := last_update a |}.

Definition with_heading (v : Q) (a : Aircraft) : Aircraft :=
  {| icao_address := icao_address a; aircraft_type := aircraft_type a; faker :=
     faker a; callsign := callsign a; latitude := latitude a; longitude :=
     longitude a; altitude := altitude a; ground_speed := ground_speed a;
     max_speed := max_speed a; min_speed := min_speed a; climb_rate := climb_rate
     a; heading := v; target_altitude := target_altitude a; target_speed :=
     target_speed a; target_heading := target_heading a; waypoints := waypoints
     a; current_waypoint_index := current_waypoint_index a; emergency_state :=
     emergency_state a; conflict_state := conflict_state a; squawk := squawk a;
     last_update := last_update a |}.

Definition with_target_heading (v : Q) (a : Aircraft) : Aircraft :=
  {| icao_address := icao_address a; aircraft_type := aircraft_type a; faker :=
     faker a; callsign := callsign a; latitude := latitude a; longitude :=
     longitude a; altitude := altitude a; ground_speed := ground_speed a;
     max_speed := max_speed a; min_speed := min_speed a; climb_rate := climb_rate
     a; heading := heading a; target_altitude := target_altitude a; target_speed
     := target_speed a; target_heading := v; waypoints := waypoints a;
     current_waypoint_index := current_waypoint_index a; emergency_state :=
     emergency_state a; conflict_state := conflict_state a; squawk := squawk a;
     last_update := last_update a |}.

Definition with_waypoints (v : list Waypoint) (a : Aircraft) : Aircraft :=
  {| icao_address := icao_address a; aircraft_type := aircraft_type a; faker :=
     faker a; callsign := callsign a; latitude := latitude a; longitude :=
     longitude a; altitude := altitude a; ground_speed := ground_speed a;
     max_speed := max_speed a; min_speed := min_speed a; climb_rate := climb_rate
     a; heading := heading a; target_altitude := target_altitude a; target_speed
     := target_speed a; target_heading := target_heading a; waypoints := v;
     current_waypoint_index := current_waypoint_index a; emergency_state :=
     emergency_state a; conflict_state := conflict_state a; squawk := squawk a;
     last_update := last_update a |}.

Definition with_current_waypoint_index (v : Z) (a : Aircraft) : Aircraft :=
  {| icao_address := icao_address a; aircraft_type := aircraft_type a; faker :=
     faker a; callsign := callsign a; latitude := latitude a; longitude :=
     longitude a; altitude := altitude a; ground_speed := ground_speed a;
     max_speed := max_speed a; min_speed := min_speed a; climb_rate := climb_rate
     a; heading := heading a; target_altitude := target_altitude a; target_speed
     := target_speed a; target_heading := target_heading a; waypoints :=
     waypoints a; current_waypoint_index := v; emergency_state := emergency_state
     a; conflict_state := conflict_state a; squawk := squawk a; last_update :=
     last_update a |}.

Definition with_emergency_state (v : bool) (a : Aircraft) : Aircraft :=
  {| icao_address := icao_address a; aircraft_type := aircraft_type a; faker :=
     faker a; callsign := callsign a; latitude := latitude a; longitude :=
     longitude a; altitude := altitude a; ground_speed := ground_speed a;
     max_speed := max_speed a; min_speed := min_speed a; climb_rate := climb_rate
     a; heading := heading a; target_altitude := target_altitude a; target_speed
     := target_speed a; target_heading := target_heading a; waypoints :=
     waypoints a; current_waypoint_index := current_waypoint_index a;
     emergency_state := v; conflict_state := conflict_state a; squawk := squawk
     a; last_update := last_update a |}.

Definition with_conflict_state (v : bool) (a : Aircraft) : Aircraft :=
  {| icao_address := icao_address a; aircraft_type := aircraft_type a; faker :=
     faker a; callsign := callsign a; latitude := latitude a; longitude :=
     longitude a; altitude := altitude a; ground_speed := ground_speed a;
     max_speed := max_speed a; min_speed := min_speed a; climb_rate := climb_rate
     a; heading := heading a; target_altitude := target_altitude a; target_speed
     := target_speed a; target_heading := target_heading a; waypoints :=
     waypoints a; current_waypoint_index := current_waypoint_index a;
     emergency_state := emergency_state a; conflict_state := v; squawk := squawk
     a; last_update := last_update a |}.

Definition with_squawk (v : string) (a : Aircraft) : Aircraft :=
  {| icao_address := icao_address a; aircraft_type := aircraft_type a; faker :=
     faker a; callsign := callsign a; latitude := latitude a; longitude :=
     longitude a; altitude := altitude a; ground_speed := ground_speed a;
     max_speed := max_speed a; min_speed := min_speed a; climb_rate := climb_rate
     a; heading := heading a; target_altitude := target_altitude a; target_speed
     := target_speed a; target_heading := target_heading a; waypoints :=
     waypoints a; current_waypoint_index := current_waypoint_index a;
     emergency_state := emergency_state a; conflict_state := conflict_state a;
     squawk := v; last_update := last_update a |}.

(** [vars(self)] while [__init__] runs: [None] is an attribute not bound yet. *)
Record Instance := {
  i_icao_address : option string;
  i_aircraft_type : option string;
  i_faker : option Faker;
  i_callsign : option string;
  i_latitude : option Q;
  i_longitude : option Q;
  i_altitude : option Q;
  i_ground_speed : option Q;
  i_max_speed : option Q;
  i_min_speed : option Q;
  i_climb_rate : option Q;
  i_heading : option Q;
  i_target_altitude : option Q;
  i_target_speed : option Q;
  i_target_heading : option Q;
  i_waypoints : option (list Waypoint);
  i_current_waypoint_index : option Z;
  i_emergency_state : option bool;
  i_conflict_state : option bool;
  i_squawk : option string;
  i_last_update : option Q
}.

Definition empty_instance : Instance :=
  {| i_icao_address := None; i_aircraft_type := None; i_faker := None; i_callsign
     := None; i_latitude := None; i_longitude := None; i_altitude := None;
     i_ground_speed := None; i_max_speed := None; i_min_speed := None;
     i_climb_rate := None; i_heading := None; i_target_altitude := None;
     i_target_speed := None; i_target_heading := None; i_waypoints := None;
     i_current_waypoint_index := None; i_emergency_state := None;
     i_conflict_state := None; i_squawk := None; i_last_update := None |}.

Definition bind_icao_address (v : string) (o : Instance) : Instance :=
  {| i_icao_address := Some v; i_aircraft_type := i_aircraft_type o; i_faker :=
     i_faker o; i_callsign := i_callsign o; i_latitude := i_latitude o;
     i_longitude := i_longitude o; i_altitude := i_altitude o; i_ground_speed :=
     i_ground_speed o; i_max_speed := i_max_speed o; i_min_speed := i_min_speed
     o; i_climb_rate := i_climb_rate o; i_heading := i_heading o;
     i_target_altitude := i_target_altitude o; i_target_speed := i_target_speed
     o; i_target_heading := i_target_heading o; i_waypoints := i_waypoints o;
     i_current_waypoint_index := i_current_waypoint_index o; i_emergency_state :=
     i_emergency_state o; i_conflict_state := i_conflict_state o; i_squawk :=
     i_squawk o; i_last_update := i_last_update o |}.

Definition bind_aircraft_type (v : string) (o : Instance) : Instance :=
  {| i_icao_address := i_icao_address o; i_aircraft_type := Some v; i_faker :=
     i_faker o; i_callsign := i_callsign o; i_latitude := i_latitude o;
     i_longitude := i_longitude o; i_altitude := i_altitude o; i_ground_speed :=
     i_ground_speed o; i_max_speed := i_max_speed o; i_min_speed := i_min_speed
     o; i_climb_rate := i_climb_rate o; i_heading := i_heading o;
     i_target_altitude := i_target_altitude o; i_target_speed := i_target_speed
     o; i_target_heading := i_target_heading o; i_waypoints := i_waypoints o;
     i_current_waypoint_index := i_current_waypoint_index o; i_emergency_state :=
     i_emergency_state o; i_conflict_state := i_conflict_state o; i_squawk :=
     i_squawk o; i_last_update := i_last_update o |}.

Definition bind_faker (v : Faker) (o : Instance) : Instance :=
  {| i_icao_address := i_icao_address o; i_aircraft_type := i_aircraft_type o;
     i_faker := Some v; i_callsign := i_callsign o; i_latitude := i_latitude o;
     i_longitude := i_longitude o; i_altitude := i_altitude o; i_ground_speed :=
     i_ground_speed o; i_max_speed := i_max_speed o; i_min_speed := i_min_speed
     o; i_climb_rate := i_climb_rate o; i_heading := i_heading o;
     i_target_altitude := i_target_altitude o; i_target_speed := i_target_speed
     o; i_target_heading := i_target_heading o; i_waypoints := i_waypoints o;
     i_current_waypoint_index := i_current_waypoint_index o; i_emergency_state :=
     i_emergency_state o; i_conflict_state := i_conflict_state o; i_squawk :=
     i_squawk o; i_last_update := i_last_update o |}.

Definition bind_callsign (v : string) (o : Instance) : Instance :=
  {| i_icao_address := i_icao_address o; i_aircraft_type := i_aircraft_type o;
     i_faker := i_faker o; i_callsign := Some v; i_latitude := i_latitude o;
     i_longitude := i_longitude o; i_altitude := i_altitude o; i_ground_speed :=
     i_ground_speed o; i_max_speed := i_max_speed o; i_min_speed := i_min_speed
     o; i_climb_rate := i_climb_rate o; i_heading := i_heading o;
     i_target_altitude := i_target_altitude o; i_target_speed := i_target_speed
     o; i_target_heading := i_target_heading o; i_waypoints := i_waypoints o;
     i_current_waypoint_index := i_current_waypoint_index o; i_emergency_state :=
     i_emergency_state o; i_conflict_state := i_conflict_state o; i_squawk :=
     i_squawk o; i_last_update := i_last_update o |}.

Definition bind_latitude (v : Q) (o : Instance) : Instance :=
  {| i_icao_address := i_icao_address o; i_aircraft_type := i_aircraft_type o;
     i_faker := i_faker o; i_callsign := i_callsign o; i_latitude := Some v;
     i_longitude := i_longitude o; i_altitude := i_altitude o; i_ground_speed :=
     i_ground_speed o; i_max_speed := i_max_speed o; i_min_speed := i_min_speed
     o; i_climb_rate := i_climb_rate o; i_heading := i_heading o;
     i_target_altitude := i_target_altitude o; i_target_speed := i_target_speed
     o; i_target_heading := i_target_heading o; i_waypoints := i_waypoints o;
     i_current_waypoint_index := i_current_waypoint_index o; i_emergency_state :=
     i_emergency_state o; i_conflict_state := i_conflict_state o; i_squawk :=
     i_squawk o; i_last_update := i_last_update o |}.

Definition bind_longitude (v : Q) (o : Instance) : Instance :=
  {| i_icao_address := i_icao_address o; i_aircraft_type := i_aircraft_type o;
     i_faker := i_faker o; i_callsign := i_callsign o; i_latitude := i_latitude
     o; i_longitude := Some v; i_altitude := i_altitude o; i_ground_speed :=
     i_ground_speed o; i_max_speed := i_max_speed o; i_min_speed := i_min_speed
     o; i_climb_rate := i_climb_rate o; i_heading := i_heading o;
     i_target_altitude := i_target_altitude o; i_target_speed := i_target_speed
     o; i_target_heading := i_target_heading o; i_waypoints := i_waypoints o;
     i_current_waypoint_index := i_current_waypoint_index o; i_emergency_state :=
     i_emergency_state o; i_conflict_state := i_conflict_state o; i_squawk :=
     i_squawk o; i_last_update := i_last_update o |}.

Definition bind_altitude (v : Q) (o : Instance) : Instance :=
  {| i_icao_address := i_icao_address o; i_aircraft_type := i_aircraft_type o;
     i_faker := i_faker o; i_callsign := i_callsign o; i_latitude := i_latitude
     o; i_longitude := i_longitude o; i_altitude := Some v; i_ground_speed :=
     i_ground_speed o; i_max_speed := i_max_speed o; i_min_speed := i_min_speed
     o; i_climb_rate := i_climb_rate o; i_heading := i_heading o;
     i_target_altitude := i_target_altitude o; i_target_speed := i_target_speed
     o; i_target_heading := i_target_heading o; i_waypoints := i_waypoints o;
     i_current_waypoint_index := i_current_waypoint_index o; i_emergency_state :=
     i_emergency_state o; i_conflict_state := i_conflict_state o; i_squawk :=
     i_squawk o; i_last_update := i_last_update o |}.

Definition bind_ground_speed (v : Q) (o : Instance) : Instance :=
  {| i_icao_address := i_icao_address o; i_aircraft_type := i_aircraft_type o;
     i_faker := i_faker o; i_callsign := i_callsign o; i_latitude := i_latitude
     o; i_longitude := i_longitude o; i_altitude := i_altitude o; i_ground_speed
     := Some v; i_max_speed := i_max_speed o; i_min_speed := i_min_speed o;
     i_climb_rate := i_climb_rate o; i_heading := i_heading o; i_target_altitude
     := i_target_altitude o; i_target_speed := i_target_speed o; i_target_heading
     := i_target_heading o; i_waypoints := i_waypoints o;
     i_current_waypoint_index := i_current_waypoint_index o; i_emergency_state :=
     i_emergency_state o; i_conflict_state := i_conflict_state o; i_squawk :=
     i_squawk o; i_last_update := i_last_update o |}.

Definition bind_max_speed (v : Q) (o : Instance) : Instance :=
  {| i_icao_address := i_icao_address o; i_aircraft_type := i_aircraft_type o;
     i_faker := i_faker o; i_callsign := i_callsign o; i_latitude := i_latitude
     o; i_longitude := i_longitude o; i_altitude := i_altitude o; i_ground_speed
     := i_ground_speed o; i_max_speed := Some v; i_min_speed := i_min_speed o;
     i_climb_rate := i_climb_rate o; i_heading := i_heading o; i_target_altitude
     := i_target_altitude o; i_target_speed := i_target_speed o; i_target_heading
     := i_target_heading o; i_waypoints := i_waypoints o;
     i_current_waypoint_index := i_current_waypoint_index o; i_emergency_state :=
     i_emergency_state o; i_conflict_state := i_conflict_state o; i_squawk :=
     i_squawk o; i_last_update := i_last_update o |}.

Definition bind_min_speed (v : Q) (o : Instance) : Instance :=
  {| i_icao_address := i_icao_address o; i_aircraft_type := i_aircraft_type o;
     i_faker := i_faker o; i_callsign := i_callsign o; i_latitude := i_latitude
     o; i_longitude := i_longitude o; i_altitude := i_altitude o; i_ground_speed
     := i_ground_speed o; i_max_speed := i_max_speed o; i_min_speed := Some v;
     i_climb_rate := i_climb_rate o; i_heading := i_heading o; i_target_altitude
     := i_target_altitude o; i_target_speed := i_target_speed o; i_target_heading
     := i_target_heading o; i_waypoints := i_waypoints o;
     i_current_waypoint_index := i_current_waypoint_index o; i_emergency_state :=
     i_emergency_state o; i_conflict_state := i_conflict_state o; i_squawk :=
     i_squawk o; i_last_update := i_last_update o |}.

Definition bind_climb_rate (v : Q) (o : Instance) : Instance :=
  {| i_icao_address := i_icao_address o; i_aircraft_type := i_aircraft_type o;
     i_faker := i_faker o; i_callsign := i_callsign o; i_latitude := i_latitude
     o; i_longitude := i_longitude o; i_altitude := i_altitude o; i_ground_speed
     := i_ground_speed o; i_max_speed := i_max_speed o; i_min_speed :=
     i_min_speed o; i_climb_rate := Some v; i_heading := i_heading o;
     i_target_altitude := i_target_altitude o; i_target_speed := i_target_speed
     o; i_target_heading := i_target_heading o; i_waypoints := i_waypoints o;
     i_current_waypoint_index := i_current_waypoint_index o; i_emergency_state :=
     i_emergency_state o; i_conflict_state := i_conflict_state o; i_squawk :=
     i_squawk o; i_last_update := i_last_update o |}.

Definition bind_heading (v : Q) (o : Instance) : Instance :=
  {| i_icao_address := i_icao_address o; i_aircraft_type := i_aircraft_type o;
     i_faker := i_faker o; i_callsign := i_callsign o; i_latitude := i_latitude
     o; i_longitude := i_longitude o; i_altitude := i_altitude o; i_ground_speed
     := i_ground_speed o; i_max_speed := i_max_speed o; i_min_speed :=
     i_min_speed o; i_climb_rate := i_climb_rate o; i_heading := Some v;
     i_target_altitude := i_target_altitude o; i_target_speed := i_target_speed
     o; i_target_heading := i_target_heading o; i_waypoints := i_waypoints o;
     i_current_waypoint_index := i_current_waypoint_index o; i_emergency_state :=
     i_emergency_state o; i_conflict_state := i_conflict_state o; i_squawk :=
     i_squawk o; i_last_update := i_last_update o |}.

Definition bind_target_altitude (v : Q) (o : Instance) : Instance :=
  {| i_icao_address := i_icao_address o; i_aircraft_type := i_aircraft_type o;
     i_faker := i_faker o; i_callsign := i_callsign o; i_latitude := i_latitude
     o; i_longitude := i_longitude o; i_altitude := i_altitude o; i_ground_speed
     := i_ground_speed o; i_max_speed := i_max_speed o; i_min_speed :=
     i_min_speed o; i_climb_rate := i_climb_rate o; i_heading := i_heading o;
     i_target_altitude := Some v; i_target_speed := i_target_speed o;
     i_target_heading := i_target_heading o; i_waypoints := i_waypoints o;
     i_current_waypoint_index := i_current_waypoint_index o; i_emergency_state :=
     i_emergency_state o; i_conflict_state := i_conflict_state o; i_squawk :=
     i_squawk o; i_last_update := i_last_update o |}.

Definition bind_target_speed (v : Q) (o : Instance) : Instance :=
  {| i_icao_address := i_icao_address o; i_aircraft_type := i_aircraft_type o;
     i_faker := i_faker o; i_callsign := i_callsign o; i_latitude := i_latitude
     o; i_longitude := i_longitude o; i_altitude := i_altitude o; i_ground_speed
     := i_ground_speed o; i_max_speed := i_max_speed o; i_min_speed :=
     i_min_speed o; i_climb_rate := i_climb_rate o; i_heading := i_heading o;
     i_target_altitude := i_target_altitude o; i_target_speed := Some v;
     i_target_heading := i_target_heading o; i_waypoints := i_waypoints o;
     i_current_waypoint_index := i_current_waypoint_index o; i_emergency_state :=
     i_emergency_state o; i_conflict_state := i_conflict_state o; i_squawk :=
     i_squawk o; i_last_update := i_last_update o |}.

Definition bind_target_heading (v : Q) (o : Instance) : Instance :=
  {| i_icao_address := i_icao_address o; i_aircraft_type := i_aircraft_type o;
     i_faker := i_faker o; i_callsign := i_callsign o; i_latitude := i_latitude
     o; i_longitude := i_longitude o; i_altitude := i_altitude o; i_ground_speed
     := i_ground_speed o; i_max_speed := i_max_speed o; i_min_speed :=
     i_min_speed o; i_climb_rate := i_climb_rate o; i_heading := i_heading o;
     i_target_altitude := i_target_altitude o; i_target_speed := i_target_speed
     o; i_target_heading := Some v; i_waypoints := i_waypoints o;
     i_current_waypoint_index := i_current_waypoint_index o; i_emergency_state :=
     i_emergency_state o; i_conflict_state := i_conflict_state o; i_squawk :=
     i_squawk o; i_last_update := i_last_update o |}.

Definition bind_waypoints (v : list Waypoint) (o : Instance) : Instance :=
  {| i_icao_address := i_icao_address o; i_aircraft_type := i_aircraft_type o;
     i_faker := i_faker o; i_callsign := i_callsign o; i_latitude := i_latitude
     o; i_longitude := i_longitude o; i_altitude := i_altitude o; i_ground_speed
     := i_ground_speed o; i_max_speed := i_max_speed o; i_min_speed :=
     i_min_speed o; i_climb_rate := i_climb_rate o; i_heading := i_heading o;
     i_target_altitude := i_target_altitude o; i_target_speed := i_target_speed
     o; i_target_heading := i_target_heading o; i_waypoints := Some v;
     i_current_waypoint_index := i_current_waypoint_index o; i_emergency_state :=
     i_emergency_state o; i_conflict_state := i_conflict_state o; i_squawk :=
     i_squawk o; i_last_update := i_last_update o |}.

Definition bind_current_waypoint_index (v : Z) (o : Instance) : Instance :=
  {| i_icao_address := i_icao_address o; i_aircraft_type := i_aircraft_type o;
     i_faker := i_faker o; i_callsign := i_callsign o; i_latitude := i_latitude
     o; i_longitude := i_longitude o; i_altitude := i_altitude o; i_ground_speed
     := i_ground_speed o; i_max_speed := i_max_speed o; i_min_speed :=
     i_min_speed o; i_climb_rate := i_climb_rate o; i_heading := i_heading o;
     i_target_altitude := i_target_altitude o; i_target_speed := i_target_speed
     o; i_target_heading := i_target_heading o; i_waypoints := i_waypoints o;
     i_current_waypoint_index := Some v; i_emergency_state := i_emergency_state
     o; i_conflict_state := i_conflict_state o; i_squawk := i_squawk o;
     i_last_update := i_last_update o |}.

Definition bind_emergency_state (v : bool) (o : Instance) : Instance :=
  {| i_icao_address := i_icao_address o; i_aircraft_type := i_aircraft_type o;
     i_faker := i_faker o; i_callsign := i_callsign o; i_latitude := i_latitude
     o; i_longitude := i_longitude o; i_altitude := i_altitude o; i_ground_speed
     := i_ground_speed o; i_max_speed := i_max_speed o; i_min_speed :=
     i_min_speed o; i_climb_rate := i_climb_rate o; i_heading := i_heading o;
     i_target_altitude := i_target_altitude o; i_target_speed := i_target_speed
     o; i_target_heading := i_target_heading o; i_waypoints := i_waypoints o;
     i_current_waypoint_index := i_current_waypoint_index o; i_emergency_state :=
     Some v; i_conflict_state := i_conflict_state o; i_squawk := i_squawk o;
     i_last_update := i_last_update o |}.

Definition bind_conflict_state (v : bool) (o : Instance) : Instance :=
  {| i_icao_address := i_icao_address o; i_aircraft_type := i_aircraft_type o;
     i_faker := i_faker o; i_callsign := i_callsign o; i_latitude := i_latitude
     o; i_longitude := i_longitude o; i_altitude := i_altitude o; i_ground_speed
     := i_ground_speed o; i_max_speed := i_max_speed o; i_min_speed :=
     i_min_speed o; i_climb_rate := i_climb_rate o; i_heading := i_heading o;
     i_target_altitude := i_target_altitude o; i_target_speed := i_target_speed
     o; i_target_heading := i_target_heading o; i_waypoints := i_waypoints o;
     i_current_waypoint_index := i_current_waypoint_index o; i_emergency_state :=
     i_emergency_state o; i_conflict_state := Some v; i_squawk := i_squawk o;
     i_last_update := i_last_update o |}.

Definition bind_squawk (v : string) (o : Instance) : Instance :=
  {| i_icao_address := i_icao_address o; i_aircraft_type := i_aircraft_type o;
     i_faker := i_faker o; i_callsign := i_callsign o; i_latitude := i_latitude
     o; i_longitude := i_longitude o; i_altitude := i_altitude o; i_ground_speed
     := i_ground_speed o; i_max_speed := i_max_speed o; i_min_speed :=
     i_min_speed o; i_climb_rate := i_climb_rate o; i_heading := i_heading o;
     i_target_altitude := i_target_altitude o; i_target_speed := i_target_speed
     o; i_target_heading := i_target_heading o; i_waypoints := i_waypoints o;
     i_current_waypoint_index := i_current_waypoint_index o; i_emergency_state :=
     i_emergency_state o; i_conflict_state := i_conflict_state o; i_squawk :=
     Some v; i_last_update := i_last_update o |}.

Definition bind_last_update (v : Q) (o : Instance) : Instance :=
  {| i_icao_address := i_icao_address o; i_aircraft_type := i_aircraft_type o;
     i_faker := i_faker o; i_callsign := i_callsign o; i_latitude := i_latitude
     o; i_longitude := i_longitude o; i_altitude := i_altitude o; i_ground_speed
     := i_ground_speed o; i_max_speed := i_max_speed o; i_min_speed :=
     i_min_speed o; i_climb_rate := i_climb_rate o; i_heading := i_heading o;
     i_target_altitude := i_target_altitude o; i_target_speed := i_target_speed
     o; i_target_heading := i_target_heading o; i_waypoints := i_waypoints o;
     i_current_waypoint_index := i_current_waypoint_index o; i_emergency_state :=
     i_emergency_state o; i_conflict_state := i_conflict_state o; i_squawk :=
     i_squawk o; i_last_update := Some v |}.

(** The finished object, once every attribute is bound. *)
Definition instance_complete (o : Instance) : option Aircraft :=
  icao_address' ← i_icao_address o;
  aircraft_type' ← i_aircraft_type o;
  faker' ← i_faker o;
  callsign' ← i_callsign o;
  latitude' ← i_latitude o;
  longitude' ← i_longitude o;
  altitude' ← i_altitude o;
  ground_speed' ← i_ground_speed o;
  max_speed' ← i_max_speed o;
  min_speed' ← i_min_speed o;
  climb_rate' ← i_climb_rate o;
  heading' ← i_heading o;
  target_altitude' ← i_target_altitude o;
  target_speed' ← i_target_speed o;
  target_heading' ← i_target_heading o;
  waypoints' ← i_waypoints o;
  current_waypoint_index' ← i_current_waypoint_index o;
  emergency_state' ← i_emergency_state o;
  conflict_state' ← i_conflict_state o;
  squawk' ← i_squawk o;
  last_update' ← i_last_update o;
  Some {| icao_address := icao_address'; aircraft_type := aircraft_type'; faker :=
          faker'; callsign := callsign'; latitude := latitude'; longitude :=
          longitude'; altitude := altitude'; ground_speed := ground_speed'; max_speed
          := max_speed'; min_speed := min_speed'; climb_rate := climb_rate'; heading
          := heading'; target_altitude := target_altitude'; target_speed :=
          target_speed'; target_heading := target_heading'; waypoints := waypoints';
          current_waypoint_index := current_waypoint_index'; emergency_state :=
          emergency_state'; conflict_state := conflict_state'; squawk := squawk';
          last_update := last_update' |}.
(** A parsed YAML document. *)
Inductive yaml :=
| YNull
| YBool (b : bool)
| YInt (z : Z)
| YFloat (q : Q)
| YStr (s : string)
| YSeq (l : list yaml)
| YMap (m : gmap string yaml).

(** The [confluent_kafka.Producer] handle. *)
Inductive Producer := ProducerHandle.

Record ADSBSimulator := {
  config : yaml;
  aircraft : list Aircraft;
  kafka_producer : option Producer;
  running : bool;
  messages_sent : Z;
  start_time : Q;
  last_stats_time : Q
}.

Definition with_aircraft (v : list Aircraft) (s : ADSBSimulator) : ADSBSimulator :=
  {| config := config s; aircraft := v; kafka_producer := kafka_producer s;
     running := running s; messages_sent := messages_sent s;
     start_time := start_time s; last_stats_time := last_stats_time s |}.

Definition with_kafka_producer (v : option Producer) (s : ADSBSimulator) : ADSBSimulator :=
  {| config := config s; aircraft := aircraft s; kafka_producer := v;
     running := running s; messages_sent := messages_sent s;
     start_time := start_time s; last_stats_time := last_stats_time s |}.

Definition with_running (v : bool) (s : ADSBSimulator) : ADSBSimulator :=
  {| config := config s; aircraft := aircraft s; kafka_producer := kafka_producer s;
     running := v; messages_sent := messages_sent s;
     start_time := start_time s; last_stats_time := last_stats_time s |}.

Definition with_messages_sent (v : Z) (s : ADSBSimulator) : ADSBSimulator :=
  {| config := config s; aircraft := aircraft s; kafka_producer := kafka_producer s;
     running := running s; messages_sent := v;
     start_time := start_time s; last_stats_time := last_stats_time s |}.

Definition with_last_stats_time (v : Q) (s : ADSBSimulator) : ADSBSimulator :=
  {| config := config s; aircraft := aircraft s; kafka_producer := kafka_producer s;
     running := running s; messages_sent := messages_sent s;
     start_time := start_time s; last_stats_time := v |}.

(** ** The world outside the objects *)

Inductive Level := INFO | WARNING | ERROR.

(** One constructor per [logger] call of the source, with the values its
    f-string interpolates. *)
Inductive LogMsg :=
| EmergencyTriggered (callsign' kind : string)
| ConfigurationLoaded (path : string)
| FailedToLoadConfig (e : exn)
| TopicCreated (topic : string)
| TopicAlreadyExists (topic : string)
| FailedToCreateTopic (topic : string) (e : exn)
| KafkaConfigured
| FailedToSetupKafka (e : exn)
| GeneratedAircraft (n jets props : Z)
| SeparationConflict (callsign1 callsign2 : string)
| FailedToPublish (e : exn)
| DeliveryFailed (err : string)
| Stats (n : nat) (rate : Q) (total : Z) (emergencies conflicts : nat) (uptime : Q)
| ReceivedSignal (signum : Z)
| StartingSimulation
| InterruptedByUser
| SimulationError (e : exn)
| FlushingRemaining
| SimulationStopped (uptime : Q) (total : Z)
| FailedToStartSimulator (e : exn).

(** The statements of the main loop's body, as [run] reaches them. *)
Inductive Call :=
| UpdatePosition (i : nat)
| EmissionTest (i : nat)
| PublishMessage (i : nat)
| CheckSeparationConflicts
| TriggerRandomEmergencies
| PollProducer
| LogStatistics.

Inductive Event :=
| Log (level : Level) (msg : LogMsg)
| Produce (topic key value : string)
| Poll (timeout : Q)
| Flush (timeout : Q)
| Sleep (seconds : Q)
| Invoke (c : Call).

Record World := {
  rng_pos : nat;
  clock_pos : nat;
  bus_pos : nat;
  poll_pos : nat;
  sleep_pos : nat;
  out : list Event
}.

Definition with_rng_pos (v : nat) (w : World) : World :=
  {| rng_pos := v; clock_pos := clock_pos w; bus_pos := bus_pos w;
     poll_pos := poll_pos w; sleep_pos := sleep_pos w; out := out w |}.

Definition with_clock_pos (v : nat) (w : World) : World :=
  {| rng_pos := rng_pos w; clock_pos := v; bus_pos := bus_pos w;
     poll_pos := poll_pos w; sleep_pos := sleep_pos w; out := out w |}.

Definition with_bus_pos (v : nat) (w : World) : World :=
  {| rng_pos := rng_pos w; clock_pos := clock_pos w; bus_pos := v;
     poll_pos := poll_pos w; sleep_pos := sleep_pos w; out := out w |}.

Definition with_poll_pos (v : nat) (w : World) : World :=
  {| rng_pos := rng_pos w; clock_pos := clock_pos w; bus_pos := bus_pos w;
     poll_pos := v; sleep_pos := sleep_pos w; out := out w |}.

Definition with_sleep_pos (v : nat) (w : World) : World :=
  {| rng_pos := rng_pos w; clock_pos := clock_pos w; bus_pos := bus_pos w;
     poll_pos := poll_pos w; sleep_pos := v; out := out w |}.

Definition with_out (v : list Event) (w : World) : World :=
  {| rng_pos := rng_pos w; clock_pos := clock_pos w; bus_pos := bus_pos w;
     poll_pos := poll_pos w; sleep_pos := sleep_pos w; out := v |}.

(** What a library call can raise. *)
Inductive LibraryError :=
| FileNotFound
| YamlSyntax
| QueueFull
| KafkaError (msg : string).

Definition library_exn (f : LibraryError) : exn :=
  match f with
  | FileNotFound => OSError
  | YamlSyntax => YAMLError
  | QueueFull => BufferError
  | KafkaError msg => KafkaException msg
  end.

(** What the libraries and the operating system answer.  Geodesy and
    trigonometry are total functions; the random generator is the stream of
    its raw words; the clock is the stream of [time.time()] readings; a
    library call answers [None] when it returns and [Some f] when it raises
    [library_exn f]; [delivery_reports k] are the errors ([None]: delivered)
    the client hands to the delivery callback during its [k]-th poll or
    flush; [signal_during_sleep k] is the signal, if any, that arrives during
    the [k]-th sleep. *)
Record Env := {
  geodesic_kilometers : Point -> Point -> Q;
  geodesic_destination : Q -> Point -> Q -> Point;
  math_radians : Q -> Q;
  math_degrees : Q -> Q;
  math_sin : Q -> Q;
  math_cos : Q -> Q;
  math_atan2 : Q -> Q -> Q;
  random_words : nat -> N;
  clock : nat -> Q;
  isoformat : Q -> string;
  json_dumps : ADSBMessage -> string;
  safe_load : string -> LibraryError + yaml;
  new_Producer : option LibraryError;
  new_AdminClient : option LibraryError;
  create_topics : option LibraryError;
  topic_future : option LibraryError;
  str_exn : exn -> string;
  produce : nat -> option LibraryError;
  delivery_reports : nat -> list (option string);
  signal_during_sleep : nat -> option Z
}.

(** ** The monad *)

Definition M (S A : Type) : Type := S -> result A * S.

Definition ret {S A} (a : A) : M S A := fun s => (Ok a, s).

Definition raise {S A} (e : exn) : M S A := fun s => (Raise e, s).

Definition bind {S A B} (m : M S A) (k : A -> M S B) : M S B :=
  fun s => match m s with
           | (Ok a, s') => k a s'
           | (Raise e, s') => (Raise e, s')
           end.

Declare Scope py_scope.
Delimit Scope py_scope with py.
Notation "x <- m ;; k" := (bind m (fun x => k))
  (at level 100, m at next level, right associativity) : py_scope.
Notation "m ;; k" := (bind m (fun _ => k))
  (at level 100, right associativity) : py_scope.
Open Scope py_scope.

Definition lift {S A} (r : result A) : M S A := fun s => (r, s).

(** [try: body except Exception as e: handler e]. *)
Definition try_except_Exception {S A} (body : M S A) (handler : exn -> M S A) : M S A :=
  fun s => match body s with
           | (Raise e, s') => if is_Exception e then handler e s' else (Raise e, s')
           | done => done
           end.

(** [try: body finally: cleanup]. *)
Definition try_finally {S A} (body : M S A) (cleanup : M S unit) : M S A :=
  fun s => match body s with
           | (r, s') => match cleanup s' with
                        | (Ok _, s'') => (r, s'')
                        | (Raise e, s'') => (Raise e, s'')
                        end
           end.

(** The receiver and the world. *)
Definition gets {X A} (f : X -> A) : M (X * World) A := fun s => (Ok (f (fst s)), s).

Definition modify {X} (f : X -> X) : M (X * World) unit :=
  fun s => (Ok tt, (f (fst s), snd s)).

Definition emit {X} (e : Event) : M (X * World) unit :=
  fun s => (Ok tt, (fst s, with_out (out (snd s) ++ [e]) (snd s))).

Definition logger {X} (level : Level) (msg : LogMsg) : M (X * World) unit :=
  emit (Log level msg).

(** [for i in range(n): body i], counting from [i]. *)
Fixpoint for_range {St} (i n : nat) (body : nat -> M St unit) : M St unit :=
  match n with
  | O => ret tt
  | S n' => body i ;; for_range (S i) n' body
  end.

Fixpoint for_each {St A} (l : list A) (body : A -> M St unit) : M St unit :=
  match l with
  | [] => ret tt
  | x :: l' => body x ;; for_each l' body
  end.

(** ** Binary64 arithmetic

    The kinematic state is modelled below over the rationals, which is exact
    where the source adds, multiplies, compares and clamps.  The one place
    where rounding changes what a claim says is the heading's [% 360]; this
    module follows the heading through [update_position] in the binary64
    arithmetic Python's [float] has, on the primitive floats. *)
Module Binary64.
Import PrimFloat FloatOps SpecFloat Uint63.

(** C's [fmod]: the remainder of the truncated division, which is exact. *)
Definition fmod (x y : float) : float :=
  match Prim2SF x, Prim2SF y with
  | S754_nan, _ | _, S754_nan => nan
  | S754_infinity _, _ => nan
  | _, S754_zero _ => nan
  | _, S754_infinity _ => x
  | S754_zero _, _ => x
  | S754_finite sx mx ex, S754_finite _ my ey =>
      let e := Z.min ex ey in
      let r := Z.rem (Z.pos mx * 2 ^ (ex - e)) (Z.pos my * 2 ^ (ey - e)) in
      SF2Prim (binary_normalize prec emax (if sx then - r else r)%Z e sx)
  end.

(** [v % w] on two floats (CPython's [float_rem]): [fmod], then the sign of
    the divisor; [None] is [ZeroDivisionError]. *)
Definition float_rem (v w : float) : option float :=
  if (w =? 0)%float then None
  else
    let m := fmod v w in
    Some (if (m =? 0)%float then (if get_sign w then neg_zero else zero)
          else if xorb (w <? 0)%float (m <? 0)%float then (m + w)%float else m).

(** [max(a, b)] and [min(a, b)]: the first argument unless the second is
    strictly beyond it. *)
Definition float_max (a b : float) : float := if (a <? b)%float then b else a.
Definition float_min (a b : float) : float := if (b <? a)%float then b else a.

(** [random.random()] is [k / 2^53] for a 53-bit [k]. *)
Definition random_of (k : PrimInt63.int) : float :=
  (of_uint63 k / of_uint63 9007199254740992%uint63)%float.

(** [random.uniform(a, b)] on the draw [r] of [random.random()]. *)
Definition uniform (a b r : float) : float := (a + (b - a) * r)%float.

(** [_normalize_heading_difference], each loop at most [fuel] times round. *)
Fixpoint while_above_180 (fuel : nat) (diff : float) : option float :=
  if (180 <? diff)%float then
    match fuel with
    | O => None
    | S fuel' => while_above_180 fuel' (diff - 360)%float
    end
  else Some diff.

Fixpoint while_below_minus_180 (fuel : nat) (diff : float) : option float :=
  if (diff <? -180)%float then
    match fuel with
    | O => None
    | S fuel' => while_below_minus_180 fuel' (diff + 360)%float
    end
  else Some diff.

Definition _normalize_heading_difference (fuel : nat) (diff : float) : option float :=
  match while_above_180 fuel diff with
  | Some diff => while_below_minus_180 fuel diff
  | None => None
  end.

(** Lines 169-178: the heading after the turn toward [target_heading]. *)
Definition slew_heading (fuel : nat) (target_heading heading delta_time : float)
  : option float :=
  let max_turn_rate := 3%float in
  match _normalize_heading_difference fuel (target_heading - heading)%float with
  | None => None
  | Some heading_diff =>
      let heading :=
        if (max_turn_rate * delta_time <? abs heading_diff)%float then
          let turn_direction := if (0 <? heading_diff)%float then 1%float else (-1)%float in
          (heading + turn_direction * max_turn_rate * delta_time)%float
        else target_heading in
      float_rem heading 360
  end.

(** Lines 228-229: the heading after [_add_realistic_variations], on the
    draw [r] of [random.random()]. *)
Definition vary_heading (heading r : float) : option float :=
  float_rem (heading + uniform (-0.5) 0.5 r)%float 360.

(** The heading [update_position] leaves, for an aircraft whose bearing to
    its current waypoint is [bearing_to_target] and which has not reached
    it: line 159 sets the target heading, lines 169-178 turn, and the last
    statement adds the variation; nothing in between assigns the heading. *)
Definition heading_after_update (fuel : nat) (bearing_to_target heading delta_time r : float)
  : option float :=
  match slew_heading fuel bearing_to_target heading delta_time with
  | Some heading => vary_heading heading r
  | None => None
  end.

(** The first conjunct of the kinematic invariant. *)
Definition heading_ok (heading : float) : bool :=
  ((0 <=? heading) && (heading <? 360))%float.

(** A run: the heading is 3.3 (rounded to binary64 as Python's literal is),
    the waypoint bears due west, a second passes, and the variation draws
    [1801439850948199 / 2^53]. *)
Definition heading_3_3 : float := 0x1.a666666666666p+1%float.
Definition due_west : float := 270%float.
Definition one_second : float := 1%float.
Definition unlucky_draw : float := random_of 1801439850948199%uint63.
Definition heading_360 : float := 360%float.

(** A difference so large that binary64 cannot take 360 from it: the
    neighbours of [1e20] are 16384 apart. *)
Definition huge : float := 1e20%float.

End Binary64.

(** [l[i]] with Python's negative indices. *)
Definition py_index {A} (l : list A) (i : Z) : result A :=
  let n := Z.of_nat (length l) in
  let j := if (i <? 0)%Z then (i + n)%Z else i in
  if (j <? 0)%Z then Raise IndexError
  else match l !! Z.to_nat j with
       | Some x => Ok x
       | None => Raise IndexError
       end.

(** The attributes [_generate_flight_plan] touches, on an object that may
    still be under construction. *)
Class SelfAttrs (X : Type) := {
  attr_latitude : X -> option Q;
  attr_longitude : X -> option Q;
  attr_waypoints : X -> option (list Waypoint);
  setattr_waypoints : list Waypoint -> X -> X
}.

#[global] Instance Aircraft_attrs : SelfAttrs Aircraft := {|
  attr_latitude a := Some (latitude a);
  attr_longitude a := Some (longitude a);
  attr_waypoints a := Some (waypoints a);
  setattr_waypoints := with_waypoints
|}.

#[global] Instance Instance_attrs : SelfAttrs Instance := {|
  attr_latitude := i_latitude;
  attr_longitude := i_longitude;
  attr_waypoints := i_waypoints;
  setattr_waypoints := bind_waypoints
|}.

(** [self.name]: [AttributeError] when the attribute is not bound. *)
Definition getattr {X A} (name : string) (proj : X -> option A) : M (X * World) A :=
  fun s => match proj (fst s) with
           | Some v => (Ok v, s)
           | None => (Raise (AttributeError name), s)
           end.

Definition airlines : list string :=
  ["UAL"; "DAL"; "AAL"; "SWA"; "JBU"; "DL"; "AA"; "UA"; "WN"; "B6"].

Definition emergency_squawks : gmap string string :=
  <["hijack" := "7500"]> (<["communication" := "7600"]> (<["general" := "7700"]> ∅)).

Definition emergency_types : list string := ["general"; "communication"; "hijack"].

(** [while diff > 180: diff -= 360], at most [fuel] times round the loop. *)
Fixpoint while_above_180 (fuel : nat) (diff : Q) : Q :=
  match fuel with
  | O => diff
  | S fuel' => if Qltb 180 diff then while_above_180 fuel' (diff - 360)%Q else diff
  end.

(** [while diff < -180: diff += 360], at most [fuel] times round the loop. *)
Fixpoint while_below_minus_180 (fuel : nat) (diff : Q) : Q :=
  match fuel with
  | O => diff
  | S fuel' => if Qltb diff (-180) then while_below_minus_180 fuel' (diff + 360)%Q else diff
  end.

(** As many turns as either loop can take from [diff]. *)
Definition full_turns (diff : Q) : nat := Z.to_nat (Qceiling (Qabs diff / 360)).

Definition _normalize_heading_difference (diff : Q) : Q :=
  let diff := while_above_180 (full_turns diff) diff in
  while_below_minus_180 (full_turns diff) diff.

Section Model.
Variable env : Env.

(** *** random, time *)

Definition next_word {X} : M (X * World) N :=
  fun s => (Ok (random_words env (rng_pos (snd s))),
            (fst s, with_rng_pos (S (rng_pos (snd s))) (snd s))).

(** [random.random()]: the low 53 bits of the next word over 2^53. *)
Definition random_random {X} : M (X * World) Q :=
  w <- next_word ;;
  ret (Z.of_N (w mod 9007199254740992) # 9007199254740992)%Q.

(** [random.uniform(a, b)] is [a + (b - a) * random()]. *)
Definition random_uniform {X} (a b : Q) : M (X * World) Q :=
  u <- random_random ;;
  ret (a + (b - a) * u)%Q.

(** [random.randint(a, b)]: [a] plus a number below [b - a + 1]. *)
Definition random_randint {X} (a b : Z) : M (X * World) Z :=
  if (b <? a)%Z then raise ValueError
  else w <- next_word ;;
       ret (a + Z.of_N w mod (b - a + 1))%Z.

Definition random_choice {X A} (seq : list A) : M (X * World) A :=
  match seq with
  | [] => raise IndexError
  | _ => w <- next_word ;;
         match seq !! (N.to_nat w mod length seq)%nat with
         | Some x => ret x
         | None => raise IndexError
         end
  end.

Definition time_time {X} : M (X * World) Q :=
  fun s => (Ok (clock env (clock_pos (snd s))),
            (fst s, with_clock_pos (S (clock_pos (snd s))) (snd s))).

(** *** Aircraft *)

Fixpoint flight_plan_loop {X} `{SelfAttrs X} (i n : nat) (current : Point)
  : M (X * World) unit :=
  match n with
  | O => ret tt
  | S n' =>
      distance_km <- random_uniform 185 555 ;;
      bearing <- random_uniform 0 360 ;;
      let origin := current in
      let destination := geodesic_destination env distance_km origin bearing in
      let waypoint := {| wp_latitude := pt_latitude destination;
                         wp_longitude := pt_longitude destination;
                         wp_name := "WPT" +:+ pretty (i + 1)%nat |} in
      l <- getattr "waypoints" attr_waypoints ;;
      modify (setattr_waypoints (l ++ [waypoint])) ;;
      flight_plan_loop (S i) n' destination
  end.

Definition _generate_flight_plan {X} `{SelfAttrs X} : M (X * World) unit :=
  num_waypoints <- random_randint 3 5 ;;
  current_lat <- getattr "latitude" attr_latitude ;;
  current_lon <- getattr "longitude" attr_longitude ;;
  flight_plan_loop 0 (Z.to_nat num_waypoints)
    {| pt_latitude := current_lat; pt_longitude := current_lon |}.

Definition _initialize_flight_parameters : M (Instance * World) unit :=
  lat <- random_uniform (-60) 60 ;;
  modify (bind_latitude lat) ;;
  lon <- random_uniform (-180) 180 ;;
  modify (bind_longitude lon) ;;
  ty <- getattr "aircraft_type" i_aircraft_type ;;
  (if String.eqb ty "jet" then
     alt <- random_randint 25000 42000 ;;
     modify (bind_altitude (inject_Z alt)) ;;
     gs <- random_randint 400 550 ;;
     modify (bind_ground_speed (inject_Z gs)) ;;
     modify (bind_max_speed 600) ;;
     modify (bind_min_speed 200) ;;
     cr <- random_uniform 1500 3000 ;;
     modify (bind_climb_rate cr)
   else
     alt <- random_randint 8000 18000 ;;
     modify (bind_altitude (inject_Z alt)) ;;
     gs <- random_randint 150 220 ;;
     modify (bind_ground_speed (inject_Z gs)) ;;
     modify (bind_max_speed 250) ;;
     modify (bind_min_speed 80) ;;
     cr <- random_uniform 500 1200 ;;
     modify (bind_climb_rate cr)) ;;
  hd <- random_randint 0 359 ;;
  modify (bind_heading (inject_Z hd)) ;;
  alt <- getattr "altitude" i_altitude ;;
  modify (bind_target_altitude alt) ;;
  gs <- getattr "ground_speed" i_ground_speed ;;
  modify (bind_target_speed gs) ;;
  hd <- getattr "heading" i_heading ;;
  modify (bind_target_heading hd) ;;
  _generate_flight_plan.

Definition Aircraft__init__ (icao_address' aircraft_type' : string)
  : M (Instance * World) unit :=
  modify (bind_icao_address icao_address') ;;
  modify (bind_aircraft_type aircraft_type') ;;
  modify (bind_faker FakerObject) ;;
  airline <- random_choice airlines ;;
  number <- random_randint 1000 9999 ;;
  modify (bind_callsign (airline +:+ pretty number)) ;;
  _initialize_flight_parameters ;;
  modify (bind_waypoints []) ;;
  modify (bind_current_waypoint_index 0) ;;
  modify (bind_emergency_state false) ;;
  modify (bind_conflict_state false) ;;
  modify (bind_squawk "1200") ;;
  now <- time_time ;;
  modify (bind_last_update now).

(** [Aircraft(icao_address, aircraft_type)]: a fresh instance, [__init__] run
    on it, and the object handed to the caller when [__init__] returns. *)
Definition new_Aircraft {X} (icao_address' aircraft_type' : string)
  : M (X * World) Aircraft :=
  fun s =>
    match Aircraft__init__ icao_address' aircraft_type' (empty_instance, snd s) with
    | (Ok _, (o, w)) =>
        match instance_complete o with
        | Some a => (Ok a, (fst s, w))
        | None => (Raise (AttributeError "__init__"), (fst s, w))
        end
    | (Raise e, (_, w)) => (Raise e, (fst s, w))
    end.

Definition _calculate_bearing (point1 point2 : Point) : Q :=
  let lat1 := math_radians env (pt_latitude point1) in
  let lon1 := math_radians env (pt_longitude point1) in
  let lat2 := math_radians env (pt_latitude point2) in
  let lon2 := math_radians env (pt_longitude point2) in
  let dlon := (lon2 - lon1)%Q in
  let y := (math_sin env dlon * math_cos env lat2)%Q in
  let x := (math_cos env lat1 * math_sin env lat2
            - math_sin env lat1 * math_cos env lat2 * math_cos env dlon)%Q in
  let bearing := math_atan2 env y x in
  let bearing := math_degrees env bearing in
  py_mod (bearing + 360) 360.

Definition _update_speed (delta_time : Q) : M (Aircraft * World) unit :=
  let max_acceleration := 2%Q in
  target <- gets target_speed ;;
  speed <- gets ground_speed ;;
  let speed_diff := (target - speed)%Q in
  (if Qltb (max_acceleration * delta_time) (Qabs speed_diff) then
     let acceleration_direction := if Qltb 0 speed_diff then 1%Q else (-1)%Q in
     modify (with_ground_speed
               (speed + acceleration_direction * max_acceleration * delta_time)%Q)
   else
     modify (with_ground_speed target)) ;;
  lo <- gets min_speed ;;
  hi <- gets max_speed ;;
  speed <- gets ground_speed ;;
  modify (with_ground_speed (py_max lo (py_min hi speed))).

Definition _update_altitude (delta_time : Q) : M (Aircraft * World) unit :=
  target <- gets target_altitude ;;
  alt <- gets altitude ;;
  let altitude_diff := (target - alt)%Q in
  rate <- gets climb_rate ;;
  let max_climb_rate_per_sec := (rate / 60)%Q in
  (if Qltb (max_climb_rate_per_sec * delta_time) (Qabs altitude_diff) then
     let climb_direction := if Qltb 0 altitude_diff then 1%Q else (-1)%Q in
     modify (with_altitude (alt + climb_direction * max_climb_rate_per_sec * delta_time)%Q)
   else
     modify (with_altitude target)) ;;
  alt <- gets altitude ;;
  modify (with_altitude (py_max 1000 (py_min 60000 alt))).

Definition _add_realistic_variations : M (Aircraft * World) unit :=
  dh <- random_uniform (-1 # 2) (1 # 2) ;;
  h <- gets heading ;;
  modify (with_heading (h + dh)%Q) ;;
  h <- gets heading ;;
  modify (with_heading (py_mod h 360)) ;;
  dv <- random_uniform (-2) 2 ;;
  v <- gets ground_speed ;;
  modify (with_ground_speed (v + dv)%Q) ;;
  lo <- gets min_speed ;;
  hi <- gets max_speed ;;
  v <- gets ground_speed ;;
  modify (with_ground_speed (py_max lo (py_min hi v))) ;;
  da <- random_uniform (-50) 50 ;;
  alt <- gets altitude ;;
  modify (with_altitude (alt + da)%Q) ;;
  alt <- gets altitude ;;
  modify (with_altitude (py_max 1000 (py_min 60000 alt))).

(** Lines 146-167 of [update_position]: steer for the current waypoint and
    step to the next one within 5 km of it. *)
Definition track_waypoint : M (Aircraft * World) unit :=
  index <- gets current_waypoint_index ;;
  plan <- gets waypoints ;;
  if (index <? Z.of_nat (length plan))%Z then
    target <- lift (py_index plan index) ;;
    lat <- gets latitude ;;
    lon <- gets longitude ;;
    let current_pos := {| pt_latitude := lat; pt_longitude := lon |} in
    let target_pos := {| pt_latitude := wp_latitude target;
                         pt_longitude := wp_longitude target |} in
    let distance_to_target := geodesic_kilometers env current_pos target_pos in
    let bearing_to_target := _calculate_bearing current_pos target_pos in
    modify (with_target_heading bearing_to_target) ;;
    if Qltb distance_to_target 5 then
      modify (with_current_waypoint_index (index + 1)%Z) ;;
      index <- gets current_waypoint_index ;;
      plan <- gets waypoints ;;
      if (Z.of_nat (length plan) <=? index)%Z then
        modify (with_waypoints []) ;;
        modify (with_current_waypoint_index 0) ;;
        _generate_flight_plan
      else ret tt
    else ret tt
  else ret tt.

(** Lines 169-179: turn toward the target heading at 3 degrees a second. *)
Definition slew_heading (delta_time : Q) : M (Aircraft * World) unit :=
  let max_turn_rate := 3%Q in
  target <- gets target_heading ;;
  h <- gets heading ;;
  let heading_diff := _normalize_heading_difference (target - h) in
  (if Qltb (max_turn_rate * delta_time) (Qabs heading_diff) then
     let turn_direction := if Qltb 0 heading_diff then 1%Q else (-1)%Q in
     modify (with_heading (h + turn_direction * max_turn_rate * delta_time)%Q)
   else
     modify (with_heading target)) ;;
  h <- gets heading ;;
  modify (with_heading (py_mod h 360)).

(** Lines 185-192: move along the heading by the distance flown. *)
Definition translate (delta_time : Q) : M (Aircraft * World) unit :=
  speed <- gets ground_speed ;;
  let distance_km := ((speed * (1852 # 1000)) * (delta_time / 3600))%Q in
  if Qltb 0 distance_km then
    lat <- gets latitude ;;
    lon <- gets longitude ;;
    h <- gets heading ;;
    let current_pos := {| pt_latitude := lat; pt_longitude := lon |} in
    let new_pos := geodesic_destination env distance_km current_pos h in
    modify (with_latitude (pt_latitude new_pos)) ;;
    modify (with_longitude (pt_longitude new_pos))
  else ret tt.

Definition update_position (delta_time : Q) : M (Aircraft * World) unit :=
  plan <- gets waypoints ;;
  match plan with
  | [] => ret tt
  | _ =>
      track_waypoint ;;
      slew_heading delta_time ;;
      _update_speed delta_time ;;
      _update_altitude delta_time ;;
      translate delta_time ;;
      _add_realistic_variations
  end.

Definition trigger_emergency (emergency_type : string) : M (Aircraft * World) unit :=
  modify (with_emergency_state true) ;;
  modify (with_squawk (default "7700" (emergency_squawks !! emergency_type))) ;;
  name <- gets callsign ;;
  logger WARNING (EmergencyTriggered name emergency_type).

Definition clear_emergency : M (Aircraft * World) unit :=
  modify (with_emergency_state false) ;;
  modify (with_squawk "1200").

Definition set_conflict_state (in_conflict : bool) : M (Aircraft * World) unit :=
  modify (with_conflict_state in_conflict).

Definition generate_message : M (Aircraft * World) ADSBMessage :=
  a <- gets id ;;
  now <- time_time ;;
  ret {| msg_icao_address := icao_address a;
         msg_callsign := callsign a;
         msg_latitude := py_round6 (latitude a);
         msg_longitude := py_round6 (longitude a);
         msg_altitude := py_int (altitude a);
         msg_ground_speed := py_int (ground_speed a);
         msg_heading := (py_int (heading a) mod 360)%Z;
         msg_timestamp := isoformat env now;
         msg_squawk := squawk a;
         msg_aircraft_type := aircraft_type a |}.

(** *** ADSBSimulator *)

(** [v[key]] on a parsed document. *)
Definition subscript (v : yaml) (key : string) : result yaml :=
  match v with
  | YMap m => match m !! key with
              | Some x => Ok x
              | None => Raise (KeyError key)
              end
  | _ => Raise TypeError
  end.

(** [self.config[section][key]]. *)
Definition config_get (section key : string) : M (ADSBSimulator * World) yaml :=
  cfg <- gets config ;;
  inner <- lift (subscript cfg section) ;;
  lift (subscript inner key).

(** A document value where Python needs a number, and where [range] needs an
    integer ([bool] is an [int]). *)
Definition as_number (v : yaml) : result Q :=
  match v with
  | YInt z => Ok (inject_Z z)
  | YFloat q => Ok q
  | YBool b => Ok (if b then 1%Q else 0%Q)
  | _ => Raise TypeError
  end.

Definition as_range_bound (v : yaml) : result Z :=
  match v with
  | YInt z => Ok z
  | YBool b => Ok (if b then 1%Z else 0%Z)
  | _ => Raise TypeError
  end.

(** [int(num_aircraft * jet_ratio)]; a string times a count that ran no loop
    pass is the empty string, which [int] refuses. *)
Definition int_of_product (n : Z) (ratio : yaml) : result Z :=
  match ratio with
  | YStr _ => Raise ValueError
  | _ => match as_number ratio with
         | Ok r => Ok (py_int (inject_Z n * r))
         | Raise e => Raise e
         end
  end.

Definition call {X} (outcome : option LibraryError) : M (X * World) unit :=
  match outcome with
  | None => ret tt
  | Some f => raise (library_exn f)
  end.

Definition as_str {X} (v : yaml) : M (X * World) string :=
  match v with
  | YStr s => ret s
  | _ => raise TypeError
  end.

Definition default_config : yaml :=
  YMap (<["simulation" :=
            YMap (<["num_aircraft" := YInt 75]>
                 (<["message_interval_min" := YInt 1]>
                 (<["message_interval_max" := YInt 5]>
                 (<["emergency_frequency" := YFloat (1 # 1000)]>
                 (<["separation_frequency" := YFloat (2 # 1000)]> ∅)))))]>
       (<["kafka" :=
            YMap (<["bootstrap_servers" := YStr "localhost:9092"]>
                 (<["topic" := YStr "adsb_messages"]> ∅))]>
       (<["aircraft_types" := YMap (<["jet_ratio" := YFloat (7 # 10)]> ∅)]> ∅))).

Definition _load_config {X} (config_path : string) : M (X * World) yaml :=
  try_except_Exception
    (cfg <- match safe_load env config_path with
            | inr doc => ret doc
            | inl f => raise (library_exn f)
            end ;;
     logger INFO (ConfigurationLoaded config_path) ;;
     ret cfg)
    (fun e =>
       logger ERROR (FailedToLoadConfig e) ;;
       ret default_config).

(** ["already exists" in s]. *)
Definition mentions_already_exists (s : string) : bool :=
  match String.index 0 "already exists" s with
  | Some _ => true
  | None => false
  end.

Definition _setup_kafka : M (ADSBSimulator * World) unit :=
  try_except_Exception
    (servers <- config_get "kafka" "bootstrap_servers" ;;
     call (new_Producer env) ;;
     modify (with_kafka_producer (Some ProducerHandle)) ;;
     servers <- config_get "kafka" "bootstrap_servers" ;;
     call (new_AdminClient env) ;;
     topic_name <- config_get "kafka" "topic" ;;
     topic <- as_str topic_name ;;
     call (create_topics env) ;;
     try_except_Exception
       (call (topic_future env) ;;
        logger INFO (TopicCreated topic))
       (fun e =>
          if mentions_already_exists (str_exn env e)
          then logger INFO (TopicAlreadyExists topic)
          else logger ERROR (FailedToCreateTopic topic e)) ;;
     logger INFO KafkaConfigured)
    (fun e =>
       logger ERROR (FailedToSetupKafka e) ;;
       modify (with_kafka_producer None)).

Definition hex_digit (d : Z) : string :=
  match d with
  | 0 => "0" | 1 => "1" | 2 => "2" | 3 => "3" | 4 => "4" | 5 => "5" | 6 => "6"
  | 7 => "7" | 8 => "8" | 9 => "9" | 10 => "A" | 11 => "B" | 12 => "C"
  | 13 => "D" | 14 => "E" | _ => "F"
  end%Z.

Fixpoint hex_digits (n : nat) (z : Z) : string :=
  match n with
  | O => ""
  | S n' => hex_digits n' (z / 16)%Z +:+ hex_digit (z mod 16)%Z
  end.

(** [f"{z:06X}"] for a 24-bit [z]. *)
Definition hex6 (z : Z) : string := hex_digits 6 z.

Definition _generate_aircraft_fleet : M (ADSBSimulator * World) unit :=
  num_aircraft <- config_get "simulation" "num_aircraft" ;;
  jet_ratio <- config_get "aircraft_types" "jet_ratio" ;;
  n <- lift (as_range_bound num_aircraft) ;;
  for_range 0 (Z.to_nat n) (fun i =>
    icao <- random_randint 0 16777215 ;;
    let icao_address' := hex6 icao in
    u <- random_random ;;
    ratio <- lift (as_number jet_ratio) ;;
    let aircraft_type' := if Qltb u ratio then "jet" else "prop" in
    a <- new_Aircraft icao_address' aircraft_type' ;;
    fleet <- gets aircraft ;;
    modify (with_aircraft (fleet ++ [a]))) ;;
  jets <- lift (int_of_product n jet_ratio) ;;
  logger INFO (GeneratedAircraft n jets (n - jets)).

(** A method of the [i]-th aircraft of the fleet. *)
Definition on_aircraft {A} (i : nat) (m : M (Aircraft * World) A)
  : M (ADSBSimulator * World) A :=
  fun s =>
    match aircraft (fst s) !! i with
    | None => (Raise IndexError, s)
    | Some a =>
        match m (a, snd s) with
        | (r, (a', w')) => (r, (with_aircraft (<[i := a']> (aircraft (fst s))) (fst s), w'))
        end
    end.

(** The test of line 420 on two aircraft. *)
Definition in_conflict (aircraft1 aircraft2 : Aircraft) : bool :=
  let pos1 := {| pt_latitude := latitude aircraft1; pt_longitude := longitude aircraft1 |} in
  let pos2 := {| pt_latitude := latitude aircraft2; pt_longitude := longitude aircraft2 |} in
  let horizontal_distance := (geodesic_kilometers env pos1 pos2 / (1852 # 1000))%Q in
  let vertical_separation := Qabs (altitude aircraft1 - altitude aircraft2) in
  Qltb horizontal_distance 5 && Qltb vertical_separation 1000.

(** [for j, aircraft2 in enumerate(self.aircraft[i+1:], i+1)]. *)
Fixpoint scan_against (aircraft1 : Aircraft) (i j : nat) (rest : list Aircraft)
  : list (nat * nat) :=
  match rest with
  | [] => []
  | aircraft2 :: rest' =>
      (if in_conflict aircraft1 aircraft2 then [(i, j)] else [])
      ++ scan_against aircraft1 i (S j) rest'
  end.

(** [for i, aircraft1 in enumerate(self.aircraft)], from index [i] on; the
    pairs hold the positions of the two objects in the fleet. *)
Fixpoint scan_from (i : nat) (fleet : list Aircraft) : list (nat * nat) :=
  match fleet with
  | [] => []
  | aircraft1 :: rest => scan_against aircraft1 i (S i) rest ++ scan_from (S i) rest
  end.

Definition _check_separation_conflicts : M (ADSBSimulator * World) nat :=
  fleet <- gets aircraft ;;
  let conflict_pairs := scan_from 0 fleet in
  for_range 0 (length fleet) (fun k => on_aircraft k (set_conflict_state false)) ;;
  for_each conflict_pairs (fun p =>
    on_aircraft (fst p) (set_conflict_state true) ;;
    on_aircraft (snd p) (set_conflict_state true) ;;
    callsign1 <- on_aircraft (fst p) (gets callsign) ;;
    callsign2 <- on_aircraft (snd p) (gets callsign) ;;
    logger WARNING (SeparationConflict callsign1 callsign2)) ;;
  ret (length conflict_pairs).

Definition _trigger_random_emergencies : M (ADSBSimulator * World) unit :=
  emergency_freq <- config_get "simulation" "emergency_frequency" ;;
  fleet <- gets aircraft ;;
  for_range 0 (length fleet) (fun i =>
    in_emergency <- on_aircraft i (gets emergency_state) ;;
    if in_emergency then ret tt
    else
      u <- random_random ;;
      freq <- lift (as_number emergency_freq) ;;
      if Qltb u freq then
        emergency_type <- random_choice emergency_types ;;
        on_aircraft i (trigger_emergency emergency_type)
      else ret tt).

(** [self.kafka_producer.produce(...)]: the client buffers the record or
    raises. *)
Definition producer_produce (topic : yaml) (key value : string)
  : M (ADSBSimulator * World) unit :=
  topic <- as_str topic ;;
  fun s =>
    let w := snd s in
    let w' := with_bus_pos (S (bus_pos w)) w in
    match produce env (bus_pos w) with
    | Some f => (Raise (library_exn f), (fst s, w'))
    | None => (Ok tt, (fst s, with_out (out w' ++ [Produce topic key value]) w'))
    end.

Definition _delivery_callback (err : option string) : M (ADSBSimulator * World) unit :=
  match err with
  | Some e => logger ERROR (DeliveryFailed e)
  | None => ret tt
  end.

Definition serve_callbacks : M (ADSBSimulator * World) unit :=
  fun s =>
    let w := snd s in
    for_each (delivery_reports env (poll_pos w)) _delivery_callback
      (fst s, with_poll_pos (S (poll_pos w)) w).

Definition producer_poll (timeout : Q) : M (ADSBSimulator * World) unit :=
  emit (Poll timeout) ;;
  serve_callbacks.

Definition producer_flush (timeout : Q) : M (ADSBSimulator * World) unit :=
  emit (Flush timeout) ;;
  serve_callbacks.

Definition _publish_message (message : ADSBMessage) : M (ADSBSimulator * World) unit :=
  producer <- gets kafka_producer ;;
  match producer with
  | None => ret tt
  | Some _ =>
      try_except_Exception
        (topic <- config_get "kafka" "topic" ;;
         let key := msg_icao_address message in
         let value := json_dumps env message in
         producer_produce topic key value ;;
         sent <- gets messages_sent ;;
         modify (with_messages_sent (sent + 1)%Z))
        (fun e => logger ERROR (FailedToPublish e))
  end.

Definition _log_statistics : M (ADSBSimulator * World) unit :=
  current_time <- time_time ;;
  last <- gets last_stats_time ;;
  let elapsed := (current_time - last)%Q in
  if Qle_bool 30 elapsed then
    start <- gets start_time ;;
    let uptime := (current_time - start)%Q in
    sent <- gets messages_sent ;;
    let messages_per_second := if Qltb 0 uptime then (inject_Z sent / uptime)%Q else 0%Q in
    fleet <- gets aircraft ;;
    let emergency_count := length (List.filter emergency_state fleet) in
    let conflict_count := length (List.filter conflict_state fleet) in
    sent <- gets messages_sent ;;
    logger INFO (Stats (length fleet) messages_per_second sent
                       emergency_count conflict_count uptime) ;;
    modify (with_last_stats_time current_time)
  else ret tt.

Definition stop : M (ADSBSimulator * World) unit :=
  modify (with_running false) ;;
  producer <- gets kafka_producer ;;
  match producer with
  | Some _ =>
      logger INFO FlushingRemaining ;;
      producer_flush 10
  | None => ret tt
  end ;;
  now <- time_time ;;
  start <- gets start_time ;;
  let uptime := (now - start)%Q in
  sent <- gets messages_sent ;;
  logger INFO (SimulationStopped uptime sent).

Definition _signal_handler (signum : Z) : M (ADSBSimulator * World) unit :=
  logger INFO (ReceivedSignal signum) ;;
  stop ;;
  raise (SystemExit 0).

(** [time.sleep(seconds)]; a SIGINT or SIGTERM that arrives meanwhile runs
    the handler [__init__] registered.  The sleep is where a pass spends its
    time, and it is the one place where a signal is delivered here; Python
    runs the handler between any two instructions once lines 319-320 have
    installed it.  What is stated below of a run that a signal ends is
    stated so that it holds wherever the handler runs. *)
Definition time_sleep (seconds : Q) : M (ADSBSimulator * World) unit :=
  emit (Sleep seconds) ;;
  fun s =>
    let w := snd s in
    let s' := (fst s, with_sleep_pos (S (sleep_pos w)) w) in
    match signal_during_sleep env (sleep_pos w) with
    | Some signum => _signal_handler signum s'
    | None => (Ok tt, s')
    end.

(** The emission test of line 526 and the publish it guards. *)
Definition maybe_publish (i : nat) : M (ADSBSimulator * World) unit :=
  min_interval <- config_get "simulation" "message_interval_min" ;;
  max_interval <- config_get "simulation" "message_interval_max" ;;
  emit (Invoke (EmissionTest i)) ;;
  u <- random_random ;;
  a <- lift (as_number min_interval) ;;
  b <- lift (as_number max_interval) ;;
  interval <- random_uniform a b ;;
  if Qeq_bool interval 0 then raise ZeroDivisionError
  else if Qltb u (1 / interval) then
    message <- on_aircraft i generate_message ;;
    emit (Invoke (PublishMessage i)) ;;
    _publish_message message
  else ret tt.

(** One pass of the [while self.running] loop of [run]; the value is the new
    [last_update_time]. *)
Definition tick (last_update_time : Q) : M (ADSBSimulator * World) Q :=
  current_time <- time_time ;;
  let delta_time := (current_time - last_update_time)%Q in
  fleet <- gets aircraft ;;
  for_range 0 (length fleet) (fun i =>
    emit (Invoke (UpdatePosition i)) ;;
    on_aircraft i (update_position delta_time) ;;
    maybe_publish i) ;;
  emit (Invoke CheckSeparationConflicts) ;;
  _check_separation_conflicts ;;
  emit (Invoke TriggerRandomEmergencies) ;;
  _trigger_random_emergencies ;;
  producer <- gets kafka_producer ;;
  match producer with
  | Some _ =>
      emit (Invoke PollProducer) ;;
      producer_poll 0
  | None => ret tt
  end ;;
  emit (Invoke LogStatistics) ;;
  _log_statistics ;;
  time_sleep (1 # 10) ;;
  ret current_time.

(** [while self.running: tick], for at most [fuel] passes: [true] when the
    loop has ended, [false] when it still runs after [fuel] passes. *)
Fixpoint while_running (fuel : nat) (last_update_time : Q)
  : M (ADSBSimulator * World) bool :=
  match fuel with
  | O => r <- gets running ;; ret (negb r)
  | S fuel' =>
      r <- gets running ;;
      if r then
        t <- tick last_update_time ;;
        while_running fuel' t
      else ret true
  end.

(** The [except] clauses of [run]. *)
Definition run_handlers (e : exn) : M (ADSBSimulator * World) bool :=
  match e with
  | KeyboardInterrupt => logger INFO InterruptedByUser ;; ret true
  | _ =>
      if is_Exception e then logger ERROR (SimulationError e) ;; ret true
      else raise e
  end.

(** The statements of [run] before its [try]. *)
Definition run_prelude : M (ADSBSimulator * World) Q :=
  modify (with_running true) ;;
  logger INFO StartingSimulation ;;
  time_time.

(** [run()]: [Ok true] when it has returned, [Ok false] when the loop still
    runs after [fuel] passes. *)
Definition run (fuel : nat) : M (ADSBSimulator * World) bool :=
  last_update_time <- run_prelude ;;
  fun s =>
    match while_running fuel last_update_time s with
    | (Ok false, s') => (Ok false, s')
    | (Ok true, s') => try_finally (ret true) stop s'
    | (Raise e, s') => try_finally (run_handlers e) stop s'
    end.

(** [ADSBSimulator(config_path)]. *)
Definition new_ADSBSimulator {X} (config_path : string) : M (X * World) ADSBSimulator :=
  cfg <- _load_config config_path ;;
  t_start <- time_time ;;
  t_stats <- time_time ;;
  let self := {| config := cfg; aircraft := []; kafka_producer := None;
                 running := false; messages_sent := 0;
                 start_time := t_start; last_stats_time := t_stats |} in
  fun s =>
    match (_setup_kafka ;; _generate_aircraft_fleet) (self, snd s) with
    | (Ok _, (self', w)) => (Ok self', (fst s, w))
    | (Raise e, (_, w)) => (Raise e, (fst s, w))
    end.

(** How the process ends. *)
Inductive ProcessEnd :=
| Exit (code : Z)
| Interrupted.

Definition uncaught (e : exn) : ProcessEnd :=
  match e with
  | SystemExit code => Exit code
  | KeyboardInterrupt => Interrupted
  | _ => Exit 1
  end.

(** The [try] statement of [main()] (lines 587-592), with the [--config]
    argument that [parse_args] returned: [None] while the loop still runs
    after [fuel] passes.  The parsing before it, which ends the process
    itself on a bad option, is not part of it. *)
Definition main (config_path : string) (fuel : nat) (w : World)
  : option ProcessEnd * World :=
  let body : M (unit * World) bool :=
    simulator <- new_ADSBSimulator config_path ;;
    fun s => match run fuel (simulator, snd s) with
             | (r, (_, w')) => (r, (fst s, w'))
             end in
  match try_except_Exception body
          (fun e => logger ERROR (FailedToStartSimulator e) ;; raise (SystemExit 1))
          (tt, w) with
  | (Ok true, (_, w')) => (Some (Exit 0), w')
  | (Ok false, (_, w')) => (None, w')
  | (Raise e, (_, w')) => (Some (uncaught e), w')
  end.

(** *** Sequences of calls on one aircraft *)

(** A call a client of [Aircraft] can make. *)
Inductive AircraftCall :=
| CallUpdatePosition (delta_time : Q)
| CallTriggerEmergency (emergency_type : string)
| CallClearEmergency
| CallSetConflictState (in_conflict : bool).

Definition perform (c : AircraftCall) : M (Aircraft * World) unit :=
  match c with
  | CallUpdatePosition delta_time => update_position delta_time
  | CallTriggerEmergency emergency_type => trigger_emergency emergency_type
  | CallClearEmergency => clear_emergency
  | CallSetConflictState in_conflict => set_conflict_state in_conflict
  end.

(** The aircraft and the world after the calls, made one after the other
    whatever each of them returned or raised. *)
Definition after_calls (calls : list AircraftCall) (s : Aircraft * World)
  : Aircraft * World :=
  fold_left (fun s c => snd (perform c s)) calls s.

(** Invariants 1 and 2 of the data model (P1, P2, P3). *)
Definition kinematic_ok (a : Aircraft) : Prop :=
  ((0 <= heading a)%Q /\ (heading a < 360)%Q) /\
  ((1000 <= altitude a)%Q /\ (altitude a <= 60000)%Q) /\
  ((min_speed a <= ground_speed a)%Q /\ (ground_speed a <= max_speed a)%Q).

(** P5. *)
Definition waypoint_index_ok (a : Aircraft) : Prop :=
  (0 <= current_waypoint_index a < Z.of_nat (length (waypoints a)))%Z.

(** The aircraft is within 5 km of its current waypoint, and that waypoint
    is the last one of the plan. *)
Definition at_last_waypoint (a : Aircraft) : bool :=
  match py_index (waypoints a) (current_waypoint_index a) with
  | Ok target =>
      Qltb (geodesic_kilometers env
              {| pt_latitude := latitude a; pt_longitude := longitude a |}
              {| pt_latitude := wp_latitude target; pt_longitude := wp_longitude target |})
           5
      && (Z.of_nat (length (waypoints a)) <=? current_waypoint_index a + 1)%Z
  | Raise _ => false
  end.

(** P6. *)
Definition squawk_ok (a : Aircraft) : Prop :=
  squawk a = "1200" <-> emergency_state a = false.

(** The separation minima in the words of the specification: closer than
    5 nautical miles and less than 1000 ft apart in altitude. *)
Definition distance_nm (a1 a2 : Aircraft) : Q :=
  (geodesic_kilometers env
     {| pt_latitude := latitude a1; pt_longitude := longitude a1 |}
     {| pt_latitude := latitude a2; pt_longitude := longitude a2 |} / (1852 # 1000))%Q.

Definition conflicting (a1 a2 : Aircraft) : Prop :=
  (distance_nm a1 a2 < 5)%Q /\ (Qabs (altitude a1 - altitude a2) < 1000)%Q.

(** Every aircraft of [fleet] that is in emergency is still in the fleet
    [fleet'], at the same place, in emergency and with the same squawk. *)
Definition emergencies_kept (fleet fleet' : list Aircraft) : Prop :=
  length fleet' = length fleet /\
  forall i a, fleet !! i = Some a -> emergency_state a = true ->
              exists a', fleet' !! i = Some a' /\ emergency_state a' = true /\
                         squawk a' = squawk a.

(** C6 as the specification states it, for one run of [main]: when a pass of
    the loop raises an [Exception], the process exits with code 1. *)
Definition loop_exception_exits_1 (config_path : string) (fuel : nat) (w : World) : Prop :=
  forall simulator w1 t s0 e s1,
    new_ADSBSimulator config_path (tt, w) = (Ok simulator, (tt, w1)) ->
    run_prelude (simulator, w1) = (Ok t, s0) ->
    while_running fuel t s0 = (Raise e, s1) ->
    is_Exception e = true ->
    fst (main config_path fuel w) = Some (Exit 1).

(** The two reads of the configuration that start [_generate_aircraft_fleet]. *)
Definition startup_reads (doc : yaml) : result yaml :=
  match subscript doc "simulation" with
  | Ok inner =>
      match subscript inner "num_aircraft" with
      | Ok _ =>
          match subscript doc "aircraft_types" with
          | Ok inner' => subscript inner' "jet_ratio"
          | Raise e => Raise e
          end
      | Raise e => Raise e
      end
  | Raise e => Raise e
  end.

(** C7 as the specification states it, for one start: when the file parses
    and [simulation.num_aircraft] is absent from it, the simulator starts,
    configured with the documented default of 75. *)
Definition absent_key_falls_back (config_path : string) (w : World) : Prop :=
  forall doc section,
    safe_load env config_path = inr doc ->
    subscript doc "simulation" = Ok (YMap section) ->
    section !! "num_aircraft" = None ->
    exists simulator w',
      new_ADSBSimulator config_path (tt, w) = (Ok simulator, (tt, w')) /\
      exists section',
        subscript (config simulator) "simulation" = Ok (YMap section') /\
        section' !! "num_aircraft" = Some (YInt 75).

(** The calls the main loop logged among the events [evs]. *)
Definition calls_of (evs : list Event) : list Call :=
  omap (fun e => match e with Invoke c => Some c | _ => None end) evs.

(** The calls of the pass of section 4.6 of the specification over a fleet of
    [length fired] aircraft, [fired] telling whose emission test fires:
    advance every aircraft, then test and publish for each aircraft, then the
    separation scan, the emergency sampling, the pump and the heartbeat. *)
Definition emissions (i : nat) (fired : bool) : list Call :=
  EmissionTest i :: (if fired then [PublishMessage i] else []).

Definition pass_calls_spec (fired : list bool) (pump : bool) : list Call :=
  map UpdatePosition (seq 0 (length fired))
  ++ concat (imap emissions fired)
  ++ [CheckSeparationConflicts; TriggerRandomEmergencies]
  ++ (if pump then [PollProducer] else [])
  ++ [LogStatistics].

(** The calls of a pass that handles the aircraft one at a time: advance
    aircraft [i], then test and publish for it, then go to aircraft [i+1]. *)
Fixpoint interleaved (i : nat) (fired : list bool) : list Call :=
  match fired with
  | [] => []
  | b :: rest => UpdatePosition i :: emissions i b ++ interleaved (S i) rest
  end.

Definition pass_calls (fired : list bool) (pump : bool) : list Call :=
  interleaved 0 fired
  ++ [CheckSeparationConflicts; TriggerRandomEmergencies]
  ++ (if pump then [PollProducer] else [])
  ++ [LogStatistics].

(** The events a computation added to the output. *)
Definition new_events {X A} (m : M (X * World) A) (s : X * World) : list Event :=
  drop (length (out (snd s))) (out (snd (snd (m s)))).

(** C9 as the specification states it, for one pass: a pass that returns
    made its calls in the order of section 4.6. *)
Definition pass_in_stated_order (t : Q) (s : ADSBSimulator * World) : Prop :=
  forall t', fst (tick t s) = Ok t' ->
    exists fired pump,
      length fired = length (aircraft (fst s)) /\
      calls_of (new_events (tick t) s) = pass_calls_spec fired pump.

(** * Proofs *)

(** ** Numerics *)

Lemma Qltb_true x y : Qltb x y = true <-> (x < y)%Q.
Proof.
  unfold Qltb. rewrite negb_true_iff, <- not_true_iff_false, Qle_bool_iff.
  split; [apply Qnot_le_lt | apply Qlt_not_le].
Qed.

Lemma Qltb_false x y : Qltb x y = false <-> (y <= x)%Q.
Proof. unfold Qltb. rewrite negb_false_iff. apply Qle_bool_iff. Qed.

Lemma py_max_lower lo x : (lo <= py_max lo x)%Q.
Proof.
  unfold py_max. destruct (Qltb lo x) eqn:E.
  - apply Qltb_true in E. lra.
  - lra.
Qed.

Lemma py_max_upper lo x hi : (lo <= hi)%Q -> (x <= hi)%Q -> (py_max lo x <= hi)%Q.
Proof. unfold py_max. destruct (Qltb lo x); lra. Qed.

Lemma py_min_upper hi x : (py_min hi x <= hi)%Q.
Proof.
  unfold py_min. destruct (Qltb x hi) eqn:E.
  - apply Qltb_true in E. lra.
  - lra.
Qed.

(** The clamp [max(lo, min(hi, x))] lands in [[lo, hi]] as soon as the
    interval is not empty. *)
Lemma clamp_range lo hi x :
  (lo <= hi)%Q ->
  (lo <= py_max lo (py_min hi x))%Q /\ (py_max lo (py_min hi x) <= hi)%Q.
Proof.
  intros Hle. split.
  - apply py_max_lower.
  - apply py_max_upper; [exact Hle | apply py_min_upper].
Qed.

Lemma py_mod_range x m : (0 < m)%Q -> (0 <= py_mod x m)%Q /\ (py_mod x m < m)%Q.
Proof.
  intros Hm. unfold py_mod.
  pose proof (Qfloor_le (x / m)) as Hlo.
  pose proof (Qlt_floor (x / m)) as Hhi.
  rewrite inject_Z_plus in Hhi. change (inject_Z 1) with 1%Q in Hhi.
  set (f := inject_Z (Qfloor (x / m))) in *.
  assert (Hx : (x == m * (x / m))%Q) by (field; lra).
  split.
  - assert ((m * f <= m * (x / m))%Q) by (apply Qmult_le_l; assumption).
    lra.
  - assert ((m * (x / m) < m * (f + 1))%Q) by (apply Qmult_lt_l; assumption).
    lra.
Qed.

(** ** Weakest preconditions for the monad *)

Definition wp {St A} (m : M St A) (Q : result A -> St -> Prop) (s : St) : Prop :=
  Q (fst (m s)) (snd (m s)).

Arguments wp : simpl never.

Lemma wp_ret {St A} (a : A) (Q : result A -> St -> Prop) s :
  Q (Ok a) s -> wp (ret a) Q s.
Proof. exact id. Qed.

Lemma wp_raise {St A} e (Q : result A -> St -> Prop) s :
  Q (Raise e) s -> wp (raise e) Q s.
Proof. exact id. Qed.

Lemma wp_lift {St A} (r : result A) (Q : result A -> St -> Prop) s :
  Q r s -> wp (lift r) Q s.
Proof. exact id. Qed.

Lemma wp_bind {St A B} (m : M St A) (k : A -> M St B) (Q : result B -> St -> Prop) s :
  wp m (fun r s' => match r with
                    | Ok a => wp (k a) Q s'
                    | Raise e => Q (Raise e) s'
                    end) s ->
  wp (bind m k) Q s.
Proof. unfold wp, bind. destruct (m s) as [[a|e] s']; exact id. Qed.

Lemma wp_mono {St A} (m : M St A) (Q Q' : result A -> St -> Prop) s :
  wp m Q s -> (forall r s', Q r s' -> Q' r s') -> wp m Q' s.
Proof. unfold wp. intros H HQ. apply HQ, H. Qed.

Lemma wp_gets {X A} (f : X -> A) (Q : result A -> X * World -> Prop) s :
  Q (Ok (f (fst s))) s -> wp (gets f) Q s.
Proof. exact id. Qed.

Lemma wp_modify {X} (f : X -> X) (Q : result unit -> X * World -> Prop) s :
  Q (Ok tt) (f (fst s), snd s) -> wp (modify f) Q s.
Proof. exact id. Qed.

Lemma wp_emit {X} e (Q : result unit -> X * World -> Prop) s :
  Q (Ok tt) (fst s, with_out (out (snd s) ++ [e]) (snd s)) -> wp (emit e) Q s.
Proof. exact id. Qed.

Lemma wp_getattr {X A} name (proj : X -> option A) (Q : result A -> X * World -> Prop) s :
  match proj (fst s) with
  | Some v => Q (Ok v) s
  | None => Q (Raise (AttributeError name)) s
  end ->
  wp (getattr name proj) Q s.
Proof. unfold wp, getattr. destruct (proj (fst s)); exact id. Qed.

Lemma wp_time_time {X} (Q : result Q -> X * World -> Prop) s :
  (forall t, Q (Ok t) (fst s, with_clock_pos (S (clock_pos (snd s))) (snd s))) ->
  wp time_time Q s.
Proof. intros H. apply H. Qed.

(** Drawing moves the generator on and touches nothing else. *)
Definition drawn {X} (s : X * World) : X * World :=
  (fst s, with_rng_pos (S (rng_pos (snd s))) (snd s)).

Lemma wp_random_random {X} (Q : result Q -> X * World -> Prop) s :
  (forall u, (0 <= u)%Q -> (u < 1)%Q -> Q (Ok u) (drawn s)) ->
  wp random_random Q s.
Proof.
  intros H. unfold wp, random_random, bind, next_word, ret. cbn.
  apply H.
  - unfold Qle. cbn. rewrite Z.mul_1_r. apply N2Z.is_nonneg.
  - unfold Qlt. cbn [Qnum Qden]. rewrite Z.mul_1_r, Z.mul_1_l.
    change (Zpos 9007199254740992) with (Z.of_N 9007199254740992).
    apply (proj1 (N2Z.inj_lt _ _)), N.mod_upper_bound. discriminate.
Qed.

Lemma wp_random_uniform {X} a b (Q : result Q -> X * World -> Prop) s :
  (forall u, (0 <= u)%Q -> (u < 1)%Q -> Q (Ok (a + (b - a) * u)%Q) (drawn s)) ->
  wp (random_uniform a b) Q s.
Proof.
  intros H. unfold random_uniform. apply wp_bind, wp_random_random.
  intros u H0 H1. apply wp_ret, H; assumption.
Qed.

Lemma wp_random_randint {X} a b (Q : result Z -> X * World -> Prop) s :
  (a <= b)%Z ->
  (forall z, (a <= z <= b)%Z -> Q (Ok z) (drawn s)) ->
  wp (random_randint a b) Q s.
Proof.
  intros Hab H. unfold random_randint.
  destruct (Z.ltb_spec b a) as [Hlt|_]; [lia|].
  apply wp_bind. unfold wp at 1. cbn. apply wp_ret. apply H.
  pose proof (Z.mod_pos_bound (Z.of_N (random_words env (rng_pos (snd s)))) (b - a + 1)).
  lia.
Qed.

Lemma wp_random_choice {X A} (seq : list A) (Q : result A -> X * World -> Prop) s :
  seq <> [] ->
  (forall x, In x seq -> Q (Ok x) (drawn s)) ->
  wp (random_choice seq) Q s.
Proof.
  intros Hne H. unfold random_choice. destruct seq as [|x0 seq0]; [congruence|].
  apply wp_bind. unfold wp at 1. cbn -[lookup Nat.modulo].
  set (k := (N.to_nat _ mod _)%nat).
  assert (Hk : (k < length (x0 :: seq0))%nat).
  { subst k. apply Nat.mod_upper_bound. cbn. lia. }
  destruct (lookup_lt_is_Some_2 (x0 :: seq0) k Hk) as [x Hx].
  rewrite Hx. apply wp_ret, H.
  apply list_elem_of_In. eapply list_elem_of_lookup_2, Hx.
Qed.

Arguments bind : simpl never.
Arguments ret : simpl never.
Arguments raise : simpl never.
Arguments lift : simpl never.
Arguments gets : simpl never.
Arguments modify : simpl never.
Arguments emit : simpl never.
Arguments logger : simpl never.
Arguments getattr : simpl never.
Arguments next_word : simpl never.
Arguments random_random : simpl never.
Arguments random_uniform : simpl never.
Arguments random_randint : simpl never.
Arguments random_choice : simpl never.
Arguments time_time : simpl never.
Arguments _generate_flight_plan : simpl never.

(** ** C1: the constructor *)

Lemma flight_plan_loop_unbound {X} `{SelfAttrs X} i n current (s : X * World) :
  attr_waypoints (fst s) = None ->
  wp (flight_plan_loop i (S n) current)
     (fun r _ => r = Raise (AttributeError "waypoints")) s.
Proof.
  intros Hw. cbn [flight_plan_loop].
  apply wp_bind, wp_random_uniform. intros u1 _ _.
  apply wp_bind, wp_random_uniform. intros u2 _ _.
  apply wp_bind, wp_getattr. cbn. rewrite Hw. reflexivity.
Qed.

Lemma _generate_flight_plan_unbound {X} `{SelfAttrs X} (s : X * World) :
  attr_waypoints (fst s) = None ->
  is_Some (attr_latitude (fst s)) ->
  is_Some (attr_longitude (fst s)) ->
  wp _generate_flight_plan (fun r _ => r = Raise (AttributeError "waypoints")) s.
Proof.
  intros Hw [lat Hlat] [lon Hlon]. unfold _generate_flight_plan.
  apply wp_bind, wp_random_randint; [lia|]. intros z Hz.
  apply wp_bind, wp_getattr. cbn. rewrite Hlat.
  apply wp_bind, wp_getattr. cbn. rewrite Hlon.
  destruct (Z.to_nat z) as [|n] eqn:En; [lia|].
  apply flight_plan_loop_unbound. exact Hw.
Qed.

Lemma _initialize_flight_parameters_unbound (s : Instance * World) :
  is_Some (i_aircraft_type (fst s)) ->
  i_waypoints (fst s) = None ->
  wp _initialize_flight_parameters
     (fun r _ => r = Raise (AttributeError "waypoints")) s.
Proof.
  intros [ty Hty] Hw. destruct s as [o w]. cbn in Hty, Hw.
  unfold _initialize_flight_parameters.
  apply wp_bind, wp_random_uniform. intros u1 _ _.
  apply wp_bind, wp_modify.
  apply wp_bind, wp_random_uniform. intros u2 _ _.
  apply wp_bind, wp_modify.
  apply wp_bind, wp_getattr. cbn. rewrite Hty.
  apply wp_bind.
  destruct (String.eqb ty "jet").
  - apply wp_bind, wp_random_randint; [lia|]. intros alt _.
    apply wp_bind, wp_modify.
    apply wp_bind, wp_random_randint; [lia|]. intros gs _.
    apply wp_bind, wp_modify.
    apply wp_bind, wp_modify.
    apply wp_bind, wp_modify.
    apply wp_bind, wp_random_uniform. intros u3 _ _.
    apply wp_modify.
    apply wp_bind, wp_random_randint; [lia|]. intros hd _.
    apply wp_bind, wp_modify.
    apply wp_bind, wp_getattr. cbn.
    apply wp_bind, wp_modify.
    apply wp_bind, wp_getattr. cbn.
    apply wp_bind, wp_modify.
    apply wp_bind, wp_getattr. cbn.
    apply wp_bind, wp_modify.
    apply _generate_flight_plan_unbound; cbn; eauto.
  - apply wp_bind, wp_random_randint; [lia|]. intros alt _.
    apply wp_bind, wp_modify.
    apply wp_bind, wp_random_randint; [lia|]. intros gs _.
    apply wp_bind, wp_modify.
    apply wp_bind, wp_modify.
    apply wp_bind, wp_modify.
    apply wp_bind, wp_random_uniform. intros u3 _ _.
    apply wp_modify.
    apply wp_bind, wp_random_randint; [lia|]. intros hd _.
    apply wp_bind, wp_modify.
    apply wp_bind, wp_getattr. cbn.
    apply wp_bind, wp_modify.
    apply wp_bind, wp_getattr. cbn.
    apply wp_bind, wp_modify.
    apply wp_bind, wp_getattr. cbn.
    apply wp_bind, wp_modify.
    apply _generate_flight_plan_unbound; cbn; eauto.
Qed.

Lemma Aircraft__init___raises icao ty (w : World) :
  wp (Aircraft__init__ icao ty)
     (fun r _ => r = Raise (AttributeError "waypoints")) (empty_instance, w).
Proof.
  unfold Aircraft__init__.
  apply wp_bind, wp_modify.
  apply wp_bind, wp_modify.
  apply wp_bind, wp_modify.
  apply wp_bind, wp_random_choice; [discriminate|]. intros airline _.
  apply wp_bind, wp_random_randint; [lia|]. intros number _.
  apply wp_bind, wp_modify.
  apply wp_bind.
  eapply wp_mono.
  - apply _initialize_flight_parameters_unbound; cbn; eauto.
  - intros r s' ->. reflexivity.
Qed.

(** C1 (the code breaks the claim).  Whatever the ICAO string, the category
    and the state of the random generator, [Aircraft(icao, category)] raises
    [AttributeError]: [__init__] runs [_initialize_flight_parameters], whose
    [_generate_flight_plan] appends to [self.waypoints], before it binds
    [self.waypoints].  No object is constructed, so none has the jet
    envelope, a flight plan of 3 to 5 waypoints or a waypoint index. *)
Theorem new_Aircraft_raises_AttributeError {X} icao category (s : X * World) :
  fst (new_Aircraft icao category s) = Raise (AttributeError "waypoints").
Proof.
  unfold new_Aircraft.
  pose proof (Aircraft__init___raises icao category (snd s)) as H.
  unfold wp in H.
  destruct (Aircraft__init__ icao category (empty_instance, s.2)) as [r [o w]].
  cbn in H. subst r. reflexivity.
Qed.

(** ** Properties of the receiver kept by a computation *)

Definition keeps {X A} (P : X -> Prop) (m : M (X * World) A) : Prop :=
  forall s, P (fst s) -> wp m (fun _ s' => P (fst s')) s.

Lemma keeps_bind {X A B} (P : X -> Prop) (m : M (X * World) A) (k : A -> M (X * World) B) :
  keeps P m -> (forall a, keeps P (k a)) -> keeps P (bind m k).
Proof.
  intros Hm Hk s Hs. apply wp_bind. eapply wp_mono; [apply Hm, Hs|].
  intros [a|e] s' Hs'; [apply Hk, Hs' | exact Hs'].
Qed.

Lemma keeps_ret {X A} (P : X -> Prop) (a : A) : keeps P (ret a).
Proof. intros s Hs. exact Hs. Qed.

Lemma keeps_raise {X A} (P : X -> Prop) e : keeps P (@raise (X * World) A e).
Proof. intros s Hs. exact Hs. Qed.

Lemma keeps_lift {X A} (P : X -> Prop) (r : result A) : keeps P (lift r).
Proof. intros s Hs. exact Hs. Qed.

Lemma keeps_gets {X A} (P : X -> Prop) (f : X -> A) : keeps P (gets f).
Proof. intros s Hs. exact Hs. Qed.

Lemma keeps_modify {X} (P : X -> Prop) (f : X -> X) :
  (forall x, P x -> P (f x)) -> keeps P (modify f).
Proof. intros Hf s Hs. apply Hf, Hs. Qed.

Lemma keeps_emit {X} (P : X -> Prop) e : keeps P (emit e).
Proof. intros s Hs. exact Hs. Qed.

Lemma keeps_logger {X} (P : X -> Prop) level msg : keeps P (logger level msg).
Proof. apply keeps_emit. Qed.

Lemma keeps_getattr {X A} (P : X -> Prop) name (proj : X -> option A) :
  keeps P (getattr name proj).
Proof. intros s Hs. apply wp_getattr. destruct (proj (fst s)); exact Hs. Qed.

Lemma keeps_time_time {X} (P : X -> Prop) : keeps P time_time.
Proof. intros s Hs. exact Hs. Qed.

Lemma keeps_random_random {X} (P : X -> Prop) : keeps P random_random.
Proof. intros s Hs. apply wp_random_random. intros u _ _. exact Hs. Qed.

Lemma keeps_random_uniform {X} (P : X -> Prop) a b : keeps P (random_uniform a b).
Proof. intros s Hs. apply wp_random_uniform. intros u _ _. exact Hs. Qed.

Lemma keeps_random_randint {X} (P : X -> Prop) a b : keeps P (random_randint a b).
Proof.
  intros s Hs. unfold random_randint. destruct (b <? a)%Z; [exact Hs|].
  exact Hs.
Qed.

Lemma keeps_random_choice {X A} (P : X -> Prop) (seq : list A) :
  keeps P (random_choice seq).
Proof.
  intros s Hs. destruct seq as [|x0 seq0]; [exact Hs|].
  apply wp_random_choice; [discriminate|]. intros x _. exact Hs.
Qed.

Lemma keeps_if {X A} (P : X -> Prop) (c : bool) (m1 m2 : M (X * World) A) :
  keeps P m1 -> keeps P m2 -> keeps P (if c then m1 else m2).
Proof. destruct c; auto. Qed.

Create HintDb keeps discriminated.

#[local] Hint Resolve keeps_ret keeps_raise keeps_lift keeps_gets keeps_emit
  keeps_logger keeps_getattr keeps_time_time keeps_random_random
  keeps_random_uniform keeps_random_randint keeps_random_choice : keeps.

(** Splits a [keeps] goal along the binds and branches of the program. *)
Ltac keeps_go :=
  repeat match goal with
    | |- keeps _ (bind _ _) => apply keeps_bind; [|intros ?]
    | |- keeps _ (if _ then _ else _) => apply keeps_if
    | |- keeps _ (modify _) => apply keeps_modify; intros ? ?
    | |- keeps _ (let _ := _ in _) => cbv zeta
    | |- keeps _ _ => solve [auto with keeps]
    end.

Lemma flight_plan_loop_keeps {X} `{SelfAttrs X} (P : X -> Prop) i n current :
  (forall l x, P x -> P (setattr_waypoints l x)) ->
  keeps P (flight_plan_loop i n current).
Proof.
  intros Hset. revert i current. induction n as [|n IH]; intros i current.
  - apply keeps_ret.
  - cbn [flight_plan_loop]. keeps_go; first [apply IH | apply Hset; assumption].
Qed.

Lemma _generate_flight_plan_keeps {X} `{SelfAttrs X} (P : X -> Prop) :
  (forall l x, P x -> P (setattr_waypoints l x)) ->
  keeps P _generate_flight_plan.
Proof.
  intros Hset. unfold _generate_flight_plan. keeps_go.
  apply flight_plan_loop_keeps, Hset.
Qed.

(** ** What [update_position] leaves alone *)

(** The attributes no step of [update_position] assigns. *)
Definition same_identity (a a' : Aircraft) : Prop :=
  icao_address a' = icao_address a /\ aircraft_type a' = aircraft_type a /\
  callsign a' = callsign a /\ max_speed a' = max_speed a /\
  min_speed a' = min_speed a /\ climb_rate a' = climb_rate a /\
  target_altitude a' = target_altitude a /\ target_speed a' = target_speed a /\
  emergency_state a' = emergency_state a /\ conflict_state a' = conflict_state a /\
  squawk a' = squawk a /\ last_update a' = last_update a.

Lemma same_identity_refl a : same_identity a a.
Proof. repeat split. Qed.

Ltac frame_modify :=
  match goal with
  | H : same_identity _ _ |- same_identity _ _ => exact H
  | H : _ /\ _ |- _ => exact H
  | H : _ = _ |- _ => exact H
  end.

Lemma track_waypoint_keeps (P : Aircraft -> Prop) :
  (forall v a, P a -> P (with_target_heading v a)) ->
  (forall v a, P a -> P (with_current_waypoint_index v a)) ->
  (forall v a, P a -> P (with_waypoints v a)) ->
  keeps P track_waypoint.
Proof.
  intros H1 H2 H3. unfold track_waypoint. keeps_go; auto.
  apply _generate_flight_plan_keeps. intros l x. apply H3.
Qed.

Lemma slew_heading_keeps (P : Aircraft -> Prop) dt :
  (forall v a, P a -> P (with_heading v a)) -> keeps P (slew_heading dt).
Proof. intros H1. unfold slew_heading. keeps_go; auto. Qed.

Lemma _update_speed_keeps (P : Aircraft -> Prop) dt :
  (forall v a, P a -> P (with_ground_speed v a)) -> keeps P (_update_speed dt).
Proof. intros H1. unfold _update_speed. keeps_go; auto. Qed.

Lemma _update_altitude_keeps (P : Aircraft -> Prop) dt :
  (forall v a, P a -> P (with_altitude v a)) -> keeps P (_update_altitude dt).
Proof. intros H1. unfold _update_altitude. keeps_go; auto. Qed.

Lemma translate_keeps (P : Aircraft -> Prop) dt :
  (forall v a, P a -> P (with_latitude v a)) ->
  (forall v a, P a -> P (with_longitude v a)) ->
  keeps P (translate dt).
Proof. intros H1 H2. unfold translate. keeps_go; auto. Qed.

Lemma _add_realistic_variations_keeps (P : Aircraft -> Prop) :
  (forall v a, P a -> P (with_heading v a)) ->
  (forall v a, P a -> P (with_ground_speed v a)) ->
  (forall v a, P a -> P (with_altitude v a)) ->
  keeps P _add_realistic_variations.
Proof. intros H1 H2 H3. unfold _add_realistic_variations. keeps_go; auto. Qed.

(** A property that no assignment of [update_position] can break is kept
    by [update_position]. *)
Lemma update_position_keeps (P : Aircraft -> Prop) dt :
  (forall v a, P a -> P (with_target_heading v a)) ->
  (forall v a, P a -> P (with_current_waypoint_index v a)) ->
  (forall v a, P a -> P (with_waypoints v a)) ->
  (forall v a, P a -> P (with_heading v a)) ->
  (forall v a, P a -> P (with_ground_speed v a)) ->
  (forall v a, P a -> P (with_altitude v a)) ->
  (forall v a, P a -> P (with_latitude v a)) ->
  (forall v a, P a -> P (with_longitude v a)) ->
  keeps P (update_position dt).
Proof.
  intros. unfold update_position. apply keeps_bind; [auto with keeps|].
  intros [|wp0 plan]; [apply keeps_ret|].
  repeat (apply keeps_bind; [|intros _]).
  - apply track_waypoint_keeps; assumption.
  - apply slew_heading_keeps; assumption.
  - apply _update_speed_keeps; assumption.
  - apply _update_altitude_keeps; assumption.
  - apply translate_keeps; assumption.
  - apply _add_realistic_variations_keeps; assumption.
Qed.

Lemma update_position_same_identity a0 dt :
  keeps (same_identity a0) (update_position dt).
Proof. apply update_position_keeps; intros v a Ha; exact Ha. Qed.

(** ** Stepping through a computation *)

(** Projections of an aircraft after assignments. *)
Ltac norm_aircraft :=
  cbn [icao_address aircraft_type faker callsign latitude longitude altitude
       ground_speed max_speed min_speed climb_rate heading target_altitude
       target_speed target_heading waypoints current_waypoint_index
       emergency_state conflict_state squawk last_update with_latitude
       with_longitude with_altitude with_ground_speed with_heading
       with_target_heading with_waypoints with_current_waypoint_index
       with_emergency_state with_conflict_state with_squawk].

Ltac wp_go :=
  repeat (match goal with
          | |- wp (bind _ _) _ _ => apply wp_bind
          | |- wp (ret _) _ _ => apply wp_ret
          | |- wp (raise _) _ _ => apply wp_raise
          | |- wp (lift _) _ _ => apply wp_lift
          | |- wp (gets _) _ _ => apply wp_gets
          | |- wp (modify _) _ _ => apply wp_modify
          | |- wp (getattr _ _) _ _ => apply wp_getattr
          | |- wp (emit _) _ _ => apply wp_emit
          | |- wp (logger _ _) _ _ => apply wp_emit
          | |- wp time_time _ _ => apply wp_time_time; intros ?
          | |- wp random_random _ _ => apply wp_random_random; intros ? ? ?
          | |- wp (random_uniform _ _) _ _ => apply wp_random_uniform; intros ? ? ?
          | |- wp (let _ := _ in _) _ _ => cbv zeta
          | |- wp (if ?c then _ else _) _ _ => destruct c eqn:?
          end; cbv beta iota;
          cbn [fst snd attr_latitude attr_longitude attr_waypoints
               setattr_waypoints Aircraft_attrs];
          norm_aircraft).

(** ** C4: the kinematic invariants *)

Lemma slew_heading_kinematic dt : keeps kinematic_ok (slew_heading dt).
Proof.
  intros [a w] (_ & Halt & Hspeed). unfold slew_heading. cbn [fst] in *. wp_go.
  all: split; [apply py_mod_range; reflexivity | split; assumption].
Qed.

Lemma _update_speed_kinematic dt : keeps kinematic_ok (_update_speed dt).
Proof.
  intros [a w] (Hh & Halt & Hspeed). unfold _update_speed. cbn [fst] in *. wp_go.
  all: split; [exact Hh | split; [exact Halt|]].
  all: apply clamp_range; cbn; lra.
Qed.

Lemma _update_altitude_kinematic dt : keeps kinematic_ok (_update_altitude dt).
Proof.
  intros [a w] (Hh & Halt & Hspeed). unfold _update_altitude. cbn [fst] in *. wp_go.
  all: split; [exact Hh | split; [|exact Hspeed]].
  all: apply clamp_range; lra.
Qed.

Lemma _add_realistic_variations_kinematic : keeps kinematic_ok _add_realistic_variations.
Proof.
  intros [a w] (Hh & Halt & Hspeed). unfold _add_realistic_variations.
  cbn [fst] in *. wp_go.
  split; [apply py_mod_range; reflexivity | split].
  - apply clamp_range; lra.
  - apply clamp_range; cbn; lra.
Qed.

Lemma update_position_kinematic dt : keeps kinematic_ok (update_position dt).
Proof.
  unfold update_position. apply keeps_bind; [auto with keeps|].
  intros [|wp0 plan]; [apply keeps_ret|].
  repeat (apply keeps_bind; [|intros _]).
  - apply track_waypoint_keeps; intros v a Ha; exact Ha.
  - apply slew_heading_kinematic.
  - apply _update_speed_kinematic.
  - apply _update_altitude_kinematic.
  - apply translate_keeps; intros v a Ha; exact Ha.
  - apply _add_realistic_variations_kinematic.
Qed.

Lemma after_calls_cons c calls s :
  after_calls (c :: calls) s = after_calls calls (snd (perform c s)).
Proof. reflexivity. Qed.

(** X1 (C4 in exact arithmetic).  Over the rationals, where no operation
    rounds: from an aircraft whose heading, altitude and ground speed are in
    range, every [update_position] call, with any time step (so with any
    positive one), leaves them in range: 0 <= heading < 360, 1000 <=
    altitude <= 60000 and min_speed <= ground_speed <= max_speed, where
    min_speed and max_speed are still those of the aircraft's category.
    This is the state after the call's last statement, the random noise of
    [_add_realistic_variations], and it holds after each call of a sequence
    since every prefix of a sequence is a sequence.  What binary64 rounding
    does to the upper bound of the heading is in [Binary64]. *)
Theorem update_position_keeps_kinematic_invariants (dts : list Q) (s : Aircraft * World) :
  kinematic_ok (fst s) ->
  kinematic_ok (fst (after_calls (map CallUpdatePosition dts) s)) /\
  min_speed (fst (after_calls (map CallUpdatePosition dts) s)) = min_speed (fst s) /\
  max_speed (fst (after_calls (map CallUpdatePosition dts) s)) = max_speed (fst s).
Proof.
  revert s. induction dts as [|dt dts IH]; intros s Hs.
  - cbn. auto.
  - cbn [map]. rewrite after_calls_cons. cbn [perform].
    pose proof (update_position_kinematic dt s Hs) as Hk.
    pose proof (update_position_same_identity (fst s) dt s (same_identity_refl _)) as Hi.
    unfold wp in Hk, Hi.
    destruct (IH _ Hk) as (H1 & H2 & H3).
    destruct Hi as (_ & _ & _ & Hmax & Hmin & _).
    split; [exact H1|]. split.
    + rewrite H2. exact Hmin.
    + rewrite H3. exact Hmax.
Qed.

(** ** C5: squawk and emergency *)

Lemma emergency_squawk_cases kind :
  default "7700" (emergency_squawks !! kind) = "7500" \/
  default "7700" (emergency_squawks !! kind) = "7600" \/
  default "7700" (emergency_squawks !! kind) = "7700".
Proof.
  unfold emergency_squawks.
  destruct (decide (kind = "hijack")) as [->|H1]; [left; reflexivity|].
  rewrite lookup_insert_ne by congruence.
  destruct (decide (kind = "communication")) as [->|H2]; [right; left; reflexivity|].
  rewrite lookup_insert_ne by congruence.
  destruct (decide (kind = "general")) as [->|H3]; [right; right; reflexivity|].
  rewrite lookup_insert_ne by congruence.
  right; right. reflexivity.
Qed.

Lemma emergency_squawk_not_1200 kind :
  default "7700" (emergency_squawks !! kind) <> "1200".
Proof.
  destruct (emergency_squawk_cases kind) as [H|[H|H]]; rewrite H; discriminate.
Qed.

Lemma perform_keeps_squawk_ok c : keeps squawk_ok (perform c).
Proof.
  destruct c as [dt|kind| |b]; cbn [perform].
  - apply update_position_keeps; intros v a Ha; exact Ha.
  - intros [a w] _. unfold trigger_emergency. wp_go.
    unfold squawk_ok. cbn. split; [|discriminate].
    intros H. destruct (emergency_squawk_not_1200 kind H).
  - intros [a w] _. unfold clear_emergency. wp_go.
    unfold squawk_ok. cbn. split; reflexivity.
  - intros [a w] Ha. unfold set_conflict_state. wp_go. exact Ha.
Qed.

(** C5.  The equivalence between [squawk == "1200"] and [emergency_state ==
    False] that [__init__] sets up (lines 82-84 assign [False] and ["1200"])
    is kept by every sequence of [update_position], [trigger_emergency] with
    any kind string, [clear_emergency] and [set_conflict_state] calls, also
    when one of the calls raises. *)
Theorem squawk_1200_iff_no_emergency (calls : list AircraftCall) (s : Aircraft * World) :
  squawk_ok (fst s) -> squawk_ok (fst (after_calls calls s)).
Proof.
  revert s. induction calls as [|c calls IH]; intros s Hs.
  - exact Hs.
  - rewrite after_calls_cons. apply IH. apply (perform_keeps_squawk_ok c s Hs).
Qed.

(** ** C3: the waypoint index *)

(** A waypoint between 185 and 555 km from [origin]. *)
Definition leg_from (origin : Point) (w : Waypoint) : Prop :=
  exists distance_km bearing,
    (185 <= distance_km)%Q /\ (distance_km < 555)%Q /\
    (0 <= bearing)%Q /\ (bearing < 360)%Q /\
    wp_latitude w = pt_latitude (geodesic_destination env distance_km origin bearing) /\
    wp_longitude w = pt_longitude (geodesic_destination env distance_km origin bearing).

Lemma flight_plan_loop_appends i n current (s : Aircraft * World) :
  wp (flight_plan_loop i n current)
     (fun r s' =>
        r = Ok tt /\
        exists new,
          length new = n /\
          fst s' = with_waypoints (waypoints (fst s) ++ new) (fst s) /\
          (forall first, head new = Some first -> leg_from current first)) s.
Proof.
  revert i current s. induction n as [|n IH]; intros i current [a w].
  - cbn [flight_plan_loop]. apply wp_ret. split; [reflexivity|].
    exists []. cbn. rewrite app_nil_r. destruct a. repeat split. discriminate.
  - cbn [flight_plan_loop]. wp_go.
    eapply wp_mono; [apply IH|].
    cbn [fst snd]. intros r s' (-> & new & Hlen & Hs' & _). split; [reflexivity|].
    eexists (_ :: new). split; [cbn; rewrite Hlen; reflexivity|]. split.
    + rewrite Hs'. cbn. rewrite <- app_assoc. reflexivity.
    + cbn. intros first [= <-]. eexists _, _. cbn.
      repeat split; try reflexivity; lra.
Qed.

Lemma _generate_flight_plan_appends (s : Aircraft * World) :
  wp _generate_flight_plan
     (fun r s' =>
        r = Ok tt /\
        exists new,
          (3 <= length new <= 5)%nat /\
          fst s' = with_waypoints (waypoints (fst s) ++ new) (fst s) /\
          (forall first, head new = Some first ->
             leg_from {| pt_latitude := latitude (fst s);
                         pt_longitude := longitude (fst s) |} first)) s.
Proof.
  unfold _generate_flight_plan.
  apply wp_bind, wp_random_randint; [lia|]. intros z Hz.
  wp_go. cbn [drawn fst snd].
  eapply wp_mono; [apply flight_plan_loop_appends|].
  cbn [fst snd]. intros r s' (-> & new & Hlen & Hs' & Hfirst). split; [reflexivity|].
  exists new. split; [lia|]. split; assumption.
Qed.

Lemma py_index_in_range {A} (l : list A) (i : Z) :
  (0 <= i < Z.of_nat (length l))%Z ->
  exists x, py_index l i = Ok x /\ l !! Z.to_nat i = Some x.
Proof.
  intros Hi. unfold py_index.
  destruct (Z.ltb_spec i 0) as [?|_]; [lia|].
  destruct (Z.ltb_spec i 0) as [?|_]; [lia|].
  destruct (lookup_lt_is_Some_2 l (Z.to_nat i)) as [x Hx]; [lia|].
  rewrite Hx. eauto.
Qed.

Lemma track_waypoint_spec (s : Aircraft * World) :
  waypoint_index_ok (fst s) ->
  wp track_waypoint
     (fun r s' =>
        r = Ok tt /\ waypoint_index_ok (fst s') /\
        latitude (fst s') = latitude (fst s) /\
        longitude (fst s') = longitude (fst s) /\
        if at_last_waypoint (fst s) then
          current_waypoint_index (fst s') = 0%Z /\
          (3 <= length (waypoints (fst s')) <= 5)%nat /\
          (forall first, head (waypoints (fst s')) = Some first ->
             leg_from {| pt_latitude := latitude (fst s);
                         pt_longitude := longitude (fst s) |} first)
        else
          waypoints (fst s') = waypoints (fst s) /\
          (current_waypoint_index (fst s') = current_waypoint_index (fst s) \/
           current_waypoint_index (fst s') = (current_waypoint_index (fst s) + 1)%Z)) s.
Proof.
  destruct s as [a w]. unfold waypoint_index_ok, at_last_waypoint. cbn [fst].
  intros Hi. destruct (py_index_in_range _ _ Hi) as (target & Htarget & _).
  unfold track_waypoint. apply wp_bind, wp_gets. apply wp_bind, wp_gets.
  cbv beta iota. cbn [fst snd].
  destruct (Z.ltb_spec (current_waypoint_index a) (Z.of_nat (length (waypoints a))))
    as [_|?]; [|lia].
  rewrite Htarget. apply wp_bind, wp_lift. cbv beta iota.
  wp_go.
  - eapply wp_mono; [apply _generate_flight_plan_appends|].
    cbn [fst snd]. norm_aircraft.
    intros r [a' w'] (-> & new & Hlen & Ha' & Hfirst). cbn [fst] in *.
    rewrite Ha'. norm_aircraft. cbn [app andb].
    repeat split; try reflexivity; try lia; try exact Hfirst.
  - apply Z.leb_gt in Heqb0. cbn [andb]. repeat split; lia.
  - cbn [andb]. repeat split; lia.
Qed.

(** ** Computations that return *)

Definition returns {X A} (m : M (X * World) A) : Prop :=
  forall s, wp m (fun r _ => exists a, r = Ok a) s.

Lemma returns_bind {X A B} (m : M (X * World) A) (k : A -> M (X * World) B) :
  returns m -> (forall a, returns (k a)) -> returns (bind m k).
Proof.
  intros Hm Hk s. apply wp_bind. eapply wp_mono; [apply Hm|].
  intros r s' [a ->]. apply Hk.
Qed.

Lemma returns_ret {X A} (a : A) : returns (@ret (X * World) A a).
Proof. intros s. exists a. reflexivity. Qed.

Lemma returns_gets {X A} (f : X -> A) : returns (gets f).
Proof. intros s. eexists. reflexivity. Qed.

Lemma returns_modify {X} (f : X -> X) : returns (modify f).
Proof. intros s. eexists. reflexivity. Qed.

Lemma returns_emit {X} e : returns (@emit X e).
Proof. intros s. eexists. reflexivity. Qed.

Lemma returns_logger {X} level msg : returns (@logger X level msg).
Proof. apply returns_emit. Qed.

Lemma returns_time_time {X} : returns (@time_time X).
Proof. intros s. eexists. reflexivity. Qed.

Lemma returns_random_random {X} : returns (@random_random X).
Proof. intros s. apply wp_random_random. intros u _ _. eexists. reflexivity. Qed.

Lemma returns_random_uniform {X} a b : returns (@random_uniform X a b).
Proof. intros s. apply wp_random_uniform. intros u _ _. eexists. reflexivity. Qed.

Lemma returns_if {X A} (c : bool) (m1 m2 : M (X * World) A) :
  returns m1 -> returns m2 -> returns (if c then m1 else m2).
Proof. destruct c; auto. Qed.

Create HintDb returns discriminated.

#[local] Hint Resolve returns_ret returns_gets returns_modify returns_emit
  returns_logger returns_time_time returns_random_random returns_random_uniform
  : returns.

Ltac returns_go :=
  repeat match goal with
    | |- returns (bind _ _) => apply returns_bind; [|intros ?]
    | |- returns (if _ then _ else _) => apply returns_if
    | |- returns (let _ := _ in _) => cbv zeta
    | |- returns _ => solve [auto with returns]
    end.

Lemma slew_heading_returns dt : returns (slew_heading dt).
Proof. unfold slew_heading. returns_go. Qed.

Lemma _update_speed_returns dt : returns (_update_speed dt).
Proof. unfold _update_speed. returns_go. Qed.

Lemma _update_altitude_returns dt : returns (_update_altitude dt).
Proof. unfold _update_altitude. returns_go. Qed.

Lemma translate_returns dt : returns (translate dt).
Proof. unfold translate. returns_go. Qed.

Lemma _add_realistic_variations_returns : returns _add_realistic_variations.
Proof. unfold _add_realistic_variations. returns_go. Qed.

(** The five steps of [update_position] after the waypoint tracking. *)
Definition fly_on (dt : Q) : M (Aircraft * World) unit :=
  slew_heading dt ;;
  _update_speed dt ;;
  _update_altitude dt ;;
  translate dt ;;
  _add_realistic_variations.

Lemma fly_on_returns dt : returns (fly_on dt).
Proof.
  unfold fly_on. repeat (apply returns_bind; [|intros _]).
  - apply slew_heading_returns.
  - apply _update_speed_returns.
  - apply _update_altitude_returns.
  - apply translate_returns.
  - apply _add_realistic_variations_returns.
Qed.

Lemma fly_on_keeps (P : Aircraft -> Prop) dt :
  (forall v a, P a -> P (with_heading v a)) ->
  (forall v a, P a -> P (with_ground_speed v a)) ->
  (forall v a, P a -> P (with_altitude v a)) ->
  (forall v a, P a -> P (with_latitude v a)) ->
  (forall v a, P a -> P (with_longitude v a)) ->
  keeps P (fly_on dt).
Proof.
  intros. unfold fly_on. repeat (apply keeps_bind; [|intros _]).
  - apply slew_heading_keeps; assumption.
  - apply _update_speed_keeps; assumption.
  - apply _update_altitude_keeps; assumption.
  - apply translate_keeps; assumption.
  - apply _add_realistic_variations_keeps; assumption.
Qed.

Lemma fly_on_keeps_plan dt plan index :
  keeps (fun a => waypoints a = plan /\ current_waypoint_index a = index) (fly_on dt).
Proof. apply fly_on_keeps; intros v a Ha; exact Ha. Qed.

(** What C3 says of the state [s'] a call leaves from the state [s]. *)
Definition waypoint_step (s s' : Aircraft * World) : Prop :=
  waypoint_index_ok (fst s') /\
  if at_last_waypoint (fst s) then
    current_waypoint_index (fst s') = 0%Z /\
    (3 <= length (waypoints (fst s')) <= 5)%nat /\
    (forall first, head (waypoints (fst s')) = Some first ->
       leg_from {| pt_latitude := latitude (fst s);
                   pt_longitude := longitude (fst s) |} first)
  else
    waypoints (fst s') = waypoints (fst s) /\
    (current_waypoint_index (fst s') = current_waypoint_index (fst s) \/
     current_waypoint_index (fst s') = (current_waypoint_index (fst s) + 1)%Z).

(** C3.  For an aircraft whose waypoint index is within its flight plan (so
    the plan is not empty), [update_position] returns, for every time step,
    with the index within the plan again.  When the aircraft is within 5 km
    of the current waypoint and that waypoint is the last one, the call
    leaves index 0 and a plan of 3 to 5 waypoints whose first leg starts at
    the position the aircraft had when the call began; otherwise the plan is
    the same and the index is the same or one more. *)
Theorem update_position_keeps_waypoint_index (dt : Q) (s : Aircraft * World) :
  waypoint_index_ok (fst s) ->
  fst (update_position dt s) = Ok tt /\
  waypoint_step s (snd (update_position dt s)).
Proof.
  intros Hi.
  assert (Hwp : wp (update_position dt)
                   (fun r s' => r = Ok tt /\ waypoint_step s s') s); [|exact Hwp].
  unfold update_position. apply wp_bind, wp_gets.
  destruct (waypoints (fst s)) as [|wp0 plan] eqn:Hplan.
  { unfold waypoint_index_ok in Hi. rewrite Hplan in Hi. cbn in Hi. lia. }
  change (wp (track_waypoint ;; fly_on dt)
             (fun r s' => r = Ok tt /\ waypoint_step s s') s).
  apply wp_bind. eapply wp_mono; [apply track_waypoint_spec, Hi|].
  intros r s1 (-> & Hi1 & _ & _ & Hcase).
  pose proof (fly_on_returns dt s1) as Hret.
  pose proof (fly_on_keeps_plan dt _ _ s1 (conj eq_refl eq_refl)) as Hkeep.
  unfold wp in *. destruct Hret as [[] Hret]. destruct Hkeep as [Hk1 Hk2].
  split; [exact Hret|].
  unfold waypoint_step, waypoint_index_ok. rewrite Hk1, Hk2.
  split; [exact Hi1|exact Hcase].
Qed.

(** ** Rules for the simulator's primitives *)

Lemma wp_try_except_Exception {St A} (body : M St A) (handler : exn -> M St A)
      (Q : result A -> St -> Prop) s :
  wp body (fun r s' => match r with
                       | Ok a => Q (Ok a) s'
                       | Raise e => if is_Exception e then wp (handler e) Q s'
                                    else Q (Raise e) s'
                       end) s ->
  wp (try_except_Exception body handler) Q s.
Proof.
  unfold wp, try_except_Exception. destruct (body s) as [[a|e] s']; cbn; [exact id|].
  destruct (is_Exception e); exact id.
Qed.

(** [cfg[section][key]]. *)
Definition config_lookup (cfg : yaml) (section key : string) : result yaml :=
  match subscript cfg section with
  | Ok inner => subscript inner key
  | Raise e => Raise e
  end.

Lemma wp_config_get section key (Q : result yaml -> ADSBSimulator * World -> Prop) s :
  Q (config_lookup (config (fst s)) section key) s ->
  wp (config_get section key) Q s.
Proof.
  intros H. unfold config_get, config_lookup in *.
  apply wp_bind, wp_gets. apply wp_bind, wp_lift.
  destruct (subscript (config (fst s)) section) as [inner|e]; [|exact H].
  apply wp_lift, H.
Qed.

Lemma subscript_raises_Exception v key e :
  subscript v key = Raise e -> is_Exception e = true.
Proof.
  unfold subscript. destruct v; try (intros [= <-]; reflexivity).
  destruct (_ !! _); [discriminate|]. intros [= <-]. reflexivity.
Qed.

Lemma config_lookup_raises_Exception cfg section key e :
  config_lookup cfg section key = Raise e -> is_Exception e = true.
Proof.
  unfold config_lookup. destruct (subscript cfg section) eqn:E.
  - apply subscript_raises_Exception.
  - intros [= <-]. eapply subscript_raises_Exception, E.
Qed.

Lemma library_exn_is_Exception f : is_Exception (library_exn f) = true.
Proof. destruct f; reflexivity. Qed.

(** The world after the client has been asked to buffer a record. *)
Definition asked (w : World) : World := with_bus_pos (S (bus_pos w)) w.

Lemma wp_producer_produce topic key value
      (Q : result unit -> ADSBSimulator * World -> Prop) s :
  match topic with
  | YStr t =>
      match produce env (bus_pos (snd s)) with
      | Some f => Q (Raise (library_exn f)) (fst s, asked (snd s))
      | None => Q (Ok tt) (fst s, with_out (out (snd s) ++ [Produce t key value])
                                          (asked (snd s)))
      end
  | _ => Q (Raise TypeError) s
  end ->
  wp (producer_produce topic key value) Q s.
Proof.
  intros H. unfold producer_produce. apply wp_bind.
  destruct topic; try exact H.
  unfold as_str. apply wp_ret. unfold wp. cbn.
  destruct (produce env (bus_pos (snd s))); exact H.
Qed.

(** ** C8: publishing *)

(** The record of [message] was handed to the bus between [w] and [w']. *)
Definition enqueued (message : ADSBMessage) (w w' : World) : Prop :=
  exists topic,
    out w' = out w ++ [Produce topic (msg_icao_address message) (json_dumps env message)].

(** Nothing but one error line was written between [w] and [w']. *)
Definition logged_failure (w w' : World) : Prop :=
  exists e, out w' = out w ++ [Log ERROR (FailedToPublish e)].

Lemma _publish_message_cases message (s : ADSBSimulator * World) :
  wp (_publish_message message)
     (fun r s' =>
        r = Ok tt /\
        match kafka_producer (fst s) with
        | None => s' = s
        | Some _ =>
            match config_lookup (config (fst s)) "kafka" "topic" with
            | Ok (YStr t) =>
                match produce env (bus_pos (snd s)) with
                | None =>
                    fst s' = with_messages_sent (messages_sent (fst s) + 1)%Z (fst s) /\
                    snd s' = with_out (out (snd s) ++
                                         [Produce t (msg_icao_address message)
                                                  (json_dumps env message)])
                                      (asked (snd s))
                | Some f =>
                    fst s' = fst s /\
                    snd s' = with_out (out (snd s) ++
                                         [Log ERROR (FailedToPublish (library_exn f))])
                                      (asked (snd s))
                end
            | Ok _ =>
                fst s' = fst s /\
                snd s' = with_out (out (snd s) ++ [Log ERROR (FailedToPublish TypeError)])
                                  (snd s)
            | Raise e =>
                fst s' = fst s /\
                snd s' = with_out (out (snd s) ++ [Log ERROR (FailedToPublish e)]) (snd s)
            end
        end) s.
Proof.
  destruct s as [sim w]. unfold _publish_message. apply wp_bind, wp_gets.
  cbn [fst snd]. destruct (kafka_producer sim) as [p|]; [|apply wp_ret; auto].
  apply wp_try_except_Exception, wp_bind, wp_config_get. cbn [fst snd].
  destruct (config_lookup (config sim) "kafka" "topic") as [topic|e] eqn:Hcfg.
  - apply wp_bind, wp_producer_produce. cbn [fst snd].
    destruct topic; try (cbn; unfold logger; wp_go; auto).
    destruct (produce env (bus_pos w)) as [f|].
    + rewrite library_exn_is_Exception. unfold logger. wp_go. auto.
    + wp_go. auto.
  - rewrite (config_lookup_raises_Exception _ _ _ _ Hcfg). unfold logger. wp_go. auto.
Qed.

(** The three ways a publish can go. *)
Inductive publish_outcome (message : ADSBMessage) (s s' : ADSBSimulator * World) : Prop :=
| publish_skipped :
    kafka_producer (fst s) = None -> s' = s ->
    publish_outcome message s s'
| publish_dropped :
    kafka_producer (fst s) <> None ->
    (forall t, config_lookup (config (fst s)) "kafka" "topic" = Ok (YStr t) ->
               produce env (bus_pos (snd s)) <> None) ->
    fst s' = fst s -> logged_failure (snd s) (snd s') ->
    publish_outcome message s s'
| publish_enqueued :
    kafka_producer (fst s) <> None ->
    produce env (bus_pos (snd s)) = None ->
    fst s' = with_messages_sent (messages_sent (fst s) + 1)%Z (fst s) ->
    enqueued message (snd s) (snd s') ->
    publish_outcome message s s'.

Lemma _publish_message_outcome message (s : ADSBSimulator * World) :
  fst (_publish_message message s) = Ok tt /\
  publish_outcome message s (snd (_publish_message message s)).
Proof.
  pose proof (_publish_message_cases message s) as H. unfold wp in H.
  destruct (_publish_message message s) as [r [sim' w']].
  destruct s as [sim w]. cbn [fst snd] in *. destruct H as [-> H].
  split; [reflexivity|].
  destruct (kafka_producer sim) as [p|] eqn:Hp;
    [|apply publish_skipped; [exact Hp | exact H]].
  assert (Hsome : kafka_producer (fst (sim, w)) <> None) by (cbn; congruence).
  destruct (config_lookup (config sim) "kafka" "topic") as [topic|e] eqn:Hcfg.
  - destruct topic as [| | | |t| |];
      try (destruct H as [-> ->];
           apply publish_dropped;
           [exact Hsome | cbn; rewrite Hcfg; discriminate | reflexivity
           | eexists; reflexivity]).
    destruct (produce env (bus_pos w)) as [f|] eqn:Hprod; destruct H as [-> ->].
    + apply publish_dropped; [exact Hsome | | reflexivity | eexists; reflexivity].
      cbn. intros _ _. rewrite Hprod. discriminate.
    + apply publish_enqueued; [exact Hsome | exact Hprod | reflexivity
                              | eexists; reflexivity].
  - destruct H as [-> ->].
    apply publish_dropped; [exact Hsome | | reflexivity | eexists; reflexivity].
    cbn. rewrite Hcfg. discriminate.
Qed.

Lemma not_both_logged_and_enqueued message w w' :
  logged_failure w w' -> enqueued message w w' -> False.
Proof.
  intros [e He] [t Ht]. rewrite He in Ht. apply app_inv_head in Ht. discriminate.
Qed.

Lemma not_enqueued_in_place message w : ~ enqueued message w w.
Proof.
  intros [t Ht]. rewrite <- (app_nil_r (out w)) in Ht at 1.
  apply app_inv_head in Ht. discriminate.
Qed.

Lemma _setup_kafka_without_producer f (s : ADSBSimulator * World) :
  new_Producer env = Some f ->
  wp _setup_kafka (fun r s' => r = Ok tt /\ kafka_producer (fst s') = None) s.
Proof.
  intros Hf. unfold _setup_kafka.
  apply wp_try_except_Exception, wp_bind, wp_config_get.
  destruct (config_lookup _ _ _) as [servers|e] eqn:Hcfg.
  - apply wp_bind. rewrite Hf. apply wp_raise.
    rewrite library_exn_is_Exception. unfold logger. wp_go. auto.
  - rewrite (config_lookup_raises_Exception _ _ _ _ Hcfg). unfold logger. wp_go. auto.
Qed.

(** C8.  [_publish_message] never raises.  It changes nothing of the
    simulator but, at most, [messages_sent], which goes up by one exactly
    when the record is handed to the bus and otherwise stays as it was.  With
    no producer the call changes nothing at all; when [produce] raises, the
    simulator is unchanged and the only output is one error line.  And a
    producer whose construction fails at startup is absent afterwards. *)
Theorem publish_counts_only_successful_enqueues
        (message : ADSBMessage) (s : ADSBSimulator * World) :
  fst (_publish_message message s) = Ok tt /\
  fst (snd (_publish_message message s))
    = with_messages_sent (messages_sent (fst (snd (_publish_message message s)))) (fst s) /\
  (kafka_producer (fst s) = None -> snd (_publish_message message s) = s) /\
  (forall f topic,
      kafka_producer (fst s) <> None ->
      config_lookup (config (fst s)) "kafka" "topic" = Ok (YStr topic) ->
      produce env (bus_pos (snd s)) = Some f ->
      fst (snd (_publish_message message s)) = fst s /\
      logged_failure (snd s) (snd (snd (_publish_message message s)))) /\
  ((messages_sent (fst (snd (_publish_message message s))) = messages_sent (fst s) + 1)%Z
   <-> enqueued message (snd s) (snd (snd (_publish_message message s)))) /\
  (~ enqueued message (snd s) (snd (snd (_publish_message message s))) ->
   messages_sent (fst (snd (_publish_message message s))) = messages_sent (fst s)) /\
  (forall f s0, new_Producer env = Some f ->
                fst (_setup_kafka s0) = Ok tt /\
                kafka_producer (fst (snd (_setup_kafka s0))) = None).
Proof.
  destruct (_publish_message_outcome message s) as [Hr Hout].
  split; [exact Hr|].
  set (s' := snd (_publish_message message s)) in *. clearbody s'.
  split; [|split; [|split; [|split; [|split]]]].
  - destruct Hout as [_ ->|_ _ -> _|_ _ -> _]; destruct (fst s); reflexivity.
  - intros Hnone. destruct Hout as [_ ->|Hsome _ _ _|Hsome _ _ _];
      [reflexivity | contradiction | contradiction].
  - intros f topic Hsome Hcfg Hprod.
    destruct Hout as [Hnone _|_ _ Hfst Hlog|_ Hok _ _].
    + contradiction.
    + split; assumption.
    + rewrite Hok in Hprod. discriminate.
  - destruct Hout as [_ ->|_ _ Hfst Hlog|_ _ Hfst Henq].
    + split; [lia|]. intros H. destruct (not_enqueued_in_place _ _ H).
    + rewrite Hfst. split; [lia|].
      intros H. destruct (not_both_logged_and_enqueued _ _ _ Hlog H).
    + rewrite Hfst. split; [intros _; exact Henq | intros _; reflexivity].
  - intros Hnot. destruct Hout as [_ ->|_ _ -> _|_ _ _ Henq];
      [reflexivity | reflexivity | contradiction].
  - intros f s0 Hf. apply (_setup_kafka_without_producer f s0 Hf).
Qed.

(** ** C2: the separation scan *)

Lemma in_conflict_conflicting a1 a2 : in_conflict a1 a2 = true <-> conflicting a1 a2.
Proof.
  unfold in_conflict, conflicting, distance_nm.
  rewrite andb_true_iff, !Qltb_true. reflexivity.
Qed.

Lemma scan_against_spec a1 i j rest x y :
  (x, y) ∈ scan_against a1 i j rest <->
  x = i /\ (j <= y)%nat /\
  exists a2, rest !! (y - j)%nat = Some a2 /\ in_conflict a1 a2 = true.
Proof.
  revert j. induction rest as [|a2 rest IH]; intros j; cbn [scan_against].
  - rewrite elem_of_nil. split; [tauto|]. intros (_ & _ & a & Ha & _). discriminate.
  - rewrite elem_of_app, IH. split.
    + intros [Hhead|(-> & Hle & a & Ha & Hc)].
      * destruct (in_conflict a1 a2) eqn:Hc; [|apply elem_of_nil in Hhead; tauto].
        apply list_elem_of_singleton in Hhead. injection Hhead as -> ->.
        split; [reflexivity|]. split; [lia|]. exists a2.
        rewrite Nat.sub_diag. auto.
      * split; [reflexivity|]. split; [lia|]. exists a.
        replace (y - j)%nat with (S (y - S j)) by lia. auto.
    + intros (-> & Hle & a & Ha & Hc).
      destruct (decide (y = j)) as [->|Hne].
      * left. rewrite Nat.sub_diag in Ha. injection Ha as <-. rewrite Hc.
        apply list_elem_of_singleton. reflexivity.
      * right. split; [reflexivity|]. split; [lia|]. exists a.
        replace (y - j)%nat with (S (y - S j)) in Ha by lia. auto.
Qed.

Lemma scan_against_NoDup a1 i j rest : NoDup (scan_against a1 i j rest).
Proof.
  revert j. induction rest as [|a2 rest IH]; intros j; cbn [scan_against].
  - constructor.
  - apply NoDup_app. split; [|split; [|apply IH]].
    + destruct (in_conflict a1 a2); [apply NoDup_singleton | constructor].
    + intros [x y] Hhead Htail. apply scan_against_spec in Htail as (_ & Hle & _).
      destruct (in_conflict a1 a2); [|apply elem_of_nil in Hhead; tauto].
      apply list_elem_of_singleton in Hhead. injection Hhead as -> ->. lia.
Qed.

Lemma scan_from_spec k fleet x y :
  (x, y) ∈ scan_from k fleet <->
  (k <= x < y)%nat /\
  exists a1 a2, fleet !! (x - k)%nat = Some a1 /\ fleet !! (y - k)%nat = Some a2 /\
                in_conflict a1 a2 = true.
Proof.
  revert k. induction fleet as [|a fleet IH]; intros k; cbn [scan_from].
  - rewrite elem_of_nil. split; [tauto|]. intros (_ & a1 & _ & Ha & _). discriminate.
  - rewrite elem_of_app, scan_against_spec, IH. split.
    + intros [(-> & Hle & a2 & Ha2 & Hc)|(Hle & a1 & a2 & Ha1 & Ha2 & Hc)].
      * split; [lia|]. exists a, a2. rewrite Nat.sub_diag.
        replace (y - k)%nat with (S (y - S k)) by lia. auto.
      * split; [lia|]. exists a1, a2.
        replace (x - k)%nat with (S (x - S k)) by lia.
        replace (y - k)%nat with (S (y - S k)) by lia. auto.
    + intros (Hle & a1 & a2 & Ha1 & Ha2 & Hc).
      replace (y - k)%nat with (S (y - S k)) in Ha2 by lia.
      destruct (decide (x = k)) as [->|Hne].
      * left. rewrite Nat.sub_diag in Ha1. injection Ha1 as <-.
        split; [reflexivity|]. split; [lia|]. exists a2. auto.
      * right. split; [lia|]. exists a1, a2.
        replace (x - k)%nat with (S (x - S k)) in Ha1 by lia. auto.
Qed.

Lemma scan_from_NoDup k fleet : NoDup (scan_from k fleet).
Proof.
  revert k. induction fleet as [|a fleet IH]; intros k; cbn [scan_from].
  - constructor.
  - apply NoDup_app. split; [apply scan_against_NoDup|]. split; [|apply IH].
    intros [x y] Hhead Htail.
    apply scan_against_spec in Hhead as (-> & _).
    apply scan_from_spec in Htail as (Hle & _). lia.
Qed.

(** The pairs the scan collects are the pairs [i < j] of aircraft of the
    fleet that are in conflict, each once. *)
Lemma conflict_pairs_spec fleet i j :
  (i, j) ∈ scan_from 0 fleet <->
  (i < j)%nat /\
  exists a1 a2, fleet !! i = Some a1 /\ fleet !! j = Some a2 /\ conflicting a1 a2.
Proof.
  rewrite scan_from_spec, !Nat.sub_0_r. split.
  - intros (Hle & a1 & a2 & H1 & H2 & Hc). split; [lia|].
    exists a1, a2. rewrite <- in_conflict_conflicting. auto.
  - intros (Hlt & a1 & a2 & H1 & H2 & Hc). split; [lia|].
    exists a1, a2. rewrite in_conflict_conflicting. auto.
Qed.

Lemma wp_on_aircraft {A} i (m : M (Aircraft * World) A)
      (Q : result A -> ADSBSimulator * World -> Prop) s :
  match aircraft (fst s) !! i with
  | None => Q (Raise IndexError) s
  | Some a =>
      wp m (fun r s1 =>
              Q r (with_aircraft (<[i := fst s1]> (aircraft (fst s))) (fst s), snd s1))
         (a, snd s)
  end ->
  wp (on_aircraft i m) Q s.
Proof.
  unfold wp, on_aircraft. destruct (aircraft (fst s) !! i) as [a|]; [|exact id].
  destruct (m (a, snd s)) as [r [a' w']]. exact id.
Qed.

(** [fleet'] is [fleet] with the conflict flag of the aircraft at [k] set
    according to [P k], and nothing else changed. *)
Definition flagged (P : nat -> Prop) (fleet fleet' : list Aircraft) : Prop :=
  length fleet' = length fleet /\
  forall k a, fleet !! k = Some a ->
              exists b, fleet' !! k = Some (with_conflict_state b a) /\ (b = true <-> P k).

Lemma flagged_iff (P P' : nat -> Prop) fleet fleet' :
  (forall k, (k < length fleet)%nat -> P k <-> P' k) ->
  flagged P fleet fleet' -> flagged P' fleet fleet'.
Proof.
  intros HP [Hlen H]. split; [exact Hlen|]. intros k a Ha.
  destruct (H k a Ha) as (b & Hb & Hiff). exists b.
  rewrite <- HP by (eapply lookup_lt_Some, Ha). auto.
Qed.

Lemma flagged_lookup P fleet fleet' i :
  flagged P fleet fleet' -> (i < length fleet)%nat ->
  exists a b, fleet !! i = Some a /\ fleet' !! i = Some (with_conflict_state b a).
Proof.
  intros [_ H] Hi. destruct (lookup_lt_is_Some_2 fleet i Hi) as [a Ha].
  destruct (H i a Ha) as (b & Hb & _). eauto.
Qed.

Lemma flagged_set P fleet cur i x b :
  flagged P fleet cur -> cur !! i = Some x ->
  flagged (fun k => if decide (k = i) then b = true else P k) fleet
          (<[i := with_conflict_state b x]> cur).
Proof.
  intros [Hlen H] Hx. split; [rewrite length_insert; exact Hlen|].
  intros k a Ha. destruct (H k a Ha) as (b0 & Hb0 & Hiff).
  destruct (decide (k = i)) as [->|Hne].
  - exists b. split; [|reflexivity].
    rewrite list_lookup_insert_eq by (eapply lookup_lt_Some, Hx).
    rewrite Hx in Hb0. injection Hb0 as ->. reflexivity.
  - exists b0. rewrite list_lookup_insert_ne by congruence. auto.
Qed.

Lemma clear_loop n : forall i fleet (s : ADSBSimulator * World) (P : nat -> Prop),
  (i + n <= length fleet)%nat ->
  flagged P fleet (aircraft (fst s)) ->
  wp (for_range i n (fun k => on_aircraft k (set_conflict_state false)))
     (fun r s' =>
        r = Ok tt /\ snd s' = snd s /\
        flagged (fun k => (k < i \/ i + n <= k)%nat /\ P k) fleet (aircraft (fst s'))) s.
Proof.
  induction n as [|n IH]; intros i fleet [sim w] P Hle Hfl; cbn [for_range fst snd] in *.
  - apply wp_ret. split; [reflexivity|]. split; [reflexivity|].
    revert Hfl. apply flagged_iff. intros k _. split; [intros H; split; [lia|exact H]|tauto].
  - apply wp_bind, wp_on_aircraft. cbn [fst snd].
    destruct (flagged_lookup _ _ _ i Hfl) as (a & b & Ha & Hcur); [lia|].
    rewrite Hcur. unfold set_conflict_state. apply wp_modify. cbn [fst snd].
    eapply wp_mono.
    + apply (IH (S i) fleet _ (fun k => if decide (k = i) then false = true else P k));
        [lia|]. cbn [fst aircraft with_aircraft].
      apply flagged_set; assumption.
    + cbn [fst snd]. intros r s' (-> & -> & Hfl'). split; [reflexivity|].
      split; [reflexivity|]. revert Hfl'. apply flagged_iff. intros k _.
      destruct (decide (k = i)) as [->|Hne]; split; intros [H1 H2];
        try discriminate; try (split; [lia|assumption]); lia.
Qed.

(** The aircraft at [k] belongs to one of the [pairs]. *)
Definition in_some_pair (pairs : list (nat * nat)) (k : nat) : Prop :=
  exists i j, (i, j) ∈ pairs /\ (k = i \/ k = j).

Lemma mark_loop pairs : forall done fleet (s : ADSBSimulator * World),
  (forall p, p ∈ pairs -> (fst p < length fleet)%nat /\ (snd p < length fleet)%nat) ->
  flagged (in_some_pair done) fleet (aircraft (fst s)) ->
  wp (for_each pairs (fun p =>
        on_aircraft (fst p) (set_conflict_state true) ;;
        on_aircraft (snd p) (set_conflict_state true) ;;
        callsign1 <- on_aircraft (fst p) (gets callsign) ;;
        callsign2 <- on_aircraft (snd p) (gets callsign) ;;
        logger WARNING (SeparationConflict callsign1 callsign2)))
     (fun r s' =>
        r = Ok tt /\
        flagged (in_some_pair (done ++ pairs)) fleet (aircraft (fst s'))) s.
Proof.
  induction pairs as [|[i j] pairs IH]; intros done fleet [sim w] Hin Hfl;
    cbn [for_each fst snd] in *.
  - apply wp_ret. rewrite app_nil_r. auto.
  - destruct (Hin (i, j)) as [Hi Hj]; [apply elem_of_cons; auto|]. cbn [fst snd] in *.
    assert (Hlen := proj1 Hfl).
    apply wp_bind, wp_bind, wp_on_aircraft. cbn [fst snd].
    destruct (flagged_lookup _ _ _ i Hfl Hi) as (a1 & b1 & Ha1 & Hc1).
    rewrite Hc1. unfold set_conflict_state at 1. apply wp_modify. cbn [fst snd].
    pose proof (flagged_set _ _ _ _ _ true Hfl Hc1) as Hfl1.
    set (fleet1 := <[i := _]> _) in *.
    apply wp_bind, wp_on_aircraft. cbn [fst snd aircraft with_aircraft].
    destruct (flagged_lookup _ _ _ j Hfl1 Hj) as (a2 & b2 & Ha2 & Hc2).
    rewrite Hc2. unfold set_conflict_state at 1. apply wp_modify. cbn [fst snd].
    pose proof (flagged_set _ _ _ _ _ true Hfl1 Hc2) as Hfl2.
    set (fleet2 := <[j := _]> _) in *.
    apply wp_bind, wp_on_aircraft. cbn [fst snd aircraft with_aircraft].
    destruct (flagged_lookup _ _ _ i Hfl2 Hi) as (a3 & b3 & Ha3 & Hc3).
    rewrite Hc3. apply wp_gets. cbn [fst snd].
    rewrite (list_insert_id _ _ _ Hc3).
    apply wp_bind, wp_on_aircraft. cbn [fst snd aircraft with_aircraft].
    destruct (flagged_lookup _ _ _ j Hfl2 Hj) as (a4 & b4 & Ha4 & Hc4).
    rewrite Hc4. apply wp_gets. cbn [fst snd].
    rewrite (list_insert_id _ _ _ Hc4).
    apply wp_emit. cbn [fst snd].
    eapply wp_mono.
    + apply (IH (done ++ [(i, j)]) fleet).
      * intros p Hp. apply Hin, elem_of_cons. auto.
      * cbn [fst aircraft with_aircraft]. revert Hfl2. apply flagged_iff.
        intros k _. unfold in_some_pair.
        destruct (decide (k = j)) as [->|Hnj].
        { split; [intros _|reflexivity]. exists i, j.
          split; [apply elem_of_app; right; apply list_elem_of_singleton; reflexivity|auto]. }
        destruct (decide (k = i)) as [->|Hni].
        { split; [intros _|reflexivity]. exists i, j.
          split; [apply elem_of_app; right; apply list_elem_of_singleton; reflexivity|auto]. }
        split.
        -- intros (x & y & Hxy & Hk). exists x, y.
           split; [apply elem_of_app; left; exact Hxy | exact Hk].
        -- intros (x & y & Hxy & Hk). apply elem_of_app in Hxy as [Hxy|Hxy].
           ++ exists x, y. auto.
           ++ apply list_elem_of_singleton in Hxy. injection Hxy as -> ->. lia.
    + cbn [fst snd]. intros r s' (-> & Hfl'). split; [reflexivity|].
      rewrite <- app_assoc in Hfl'. exact Hfl'.
Qed.

Lemma flagged_refl fleet :
  flagged (fun k => forall a, fleet !! k = Some a -> conflict_state a = true) fleet fleet.
Proof.
  split; [reflexivity|]. intros k a Ha. exists (conflict_state a).
  split; [rewrite Ha; destruct a; reflexivity|].
  split; [intros H a' Ha'; congruence | intros H; apply H, Ha].
Qed.

(** C2.  For every fleet, whatever the conflict flags were, the separation
    scan returns the number of pairs [i < j] of aircraft that are closer
    than 5 nautical miles and less than 1000 ft apart in altitude, and
    leaves every aircraft as it was but for its conflict flag, which is set
    exactly when the aircraft belongs to one of these pairs; so an aircraft
    flagged before and in no such pair now ends unflagged. *)
Theorem separation_scan_counts_and_flags (s : ADSBSimulator * World) :
  exists pairs : list (nat * nat),
    NoDup pairs /\
    (forall i j, (i, j) ∈ pairs <->
       (i < j)%nat /\
       exists a1 a2, aircraft (fst s) !! i = Some a1 /\
                     aircraft (fst s) !! j = Some a2 /\ conflicting a1 a2) /\
    fst (_check_separation_conflicts s) = Ok (length pairs) /\
    length (aircraft (fst (snd (_check_separation_conflicts s))))
      = length (aircraft (fst s)) /\
    forall k a, aircraft (fst s) !! k = Some a ->
      exists b, aircraft (fst (snd (_check_separation_conflicts s))) !! k
                  = Some (with_conflict_state b a) /\
                (b = true <-> in_some_pair pairs k).
Proof.
  exists (scan_from 0 (aircraft (fst s))).
  split; [apply scan_from_NoDup|]. split; [apply conflict_pairs_spec|].
  assert (Hwp : wp _check_separation_conflicts
                   (fun r s' =>
                      r = Ok (length (scan_from 0 (aircraft (fst s)))) /\
                      flagged (in_some_pair (scan_from 0 (aircraft (fst s))))
                              (aircraft (fst s)) (aircraft (fst s'))) s).
  { unfold _check_separation_conflicts. apply wp_bind, wp_gets. cbv zeta.
    apply wp_bind. eapply wp_mono.
    - apply (clear_loop _ 0 (aircraft (fst s)) s _ (Nat.le_refl _) (flagged_refl _)).
    - intros r s1 (-> & _ & Hfl). apply wp_bind. eapply wp_mono.
      + apply (mark_loop _ [] (aircraft (fst s))).
        * intros [i j] Hp. apply scan_from_spec in Hp as (Hle & a1 & a2 & H1 & H2 & _).
          rewrite !Nat.sub_0_r in *. cbn [fst snd].
          split; eapply lookup_lt_Some; eassumption.
        * revert Hfl. apply flagged_iff. intros k Hk0. split.
          -- intros [Hk _]. lia.
          -- intros (i & j & Hij & _). apply elem_of_nil in Hij. tauto.
      + intros r s2 (-> & Hfl2). apply wp_ret. auto. }
  unfold wp in Hwp. destruct Hwp as (Hr & Hlen & Hfl).
  split; [exact Hr|]. split; [exact Hlen|exact Hfl].
Qed.

(** ** C10: emergencies last *)

(** An aircraft in emergency stays so, with its squawk. *)
Definition stays (a0 a : Aircraft) : Prop :=
  emergency_state a0 = true -> emergency_state a = true /\ squawk a = squawk a0.

Lemma emergencies_kept_refl fleet : emergencies_kept fleet fleet.
Proof. split; [reflexivity|]. intros i a Ha He. eauto. Qed.

Lemma emergencies_kept_trans f1 f2 f3 :
  emergencies_kept f1 f2 -> emergencies_kept f2 f3 -> emergencies_kept f1 f3.
Proof.
  intros [L1 H1] [L2 H2]. split; [congruence|]. intros i a Ha He.
  destruct (H1 i a Ha He) as (a2 & Ha2 & He2 & Hs2).
  destruct (H2 i a2 Ha2 He2) as (a3 & Ha3 & He3 & Hs3).
  exists a3. repeat split; congruence.
Qed.

Lemma emergencies_kept_insert fleet i a a' :
  fleet !! i = Some a -> stays a a' -> emergencies_kept fleet (<[i := a']> fleet).
Proof.
  intros Ha Hst. split; [apply length_insert|]. intros k b Hb He.
  destruct (decide (k = i)) as [->|Hne].
  - exists a'. rewrite list_lookup_insert_eq by (eapply lookup_lt_Some, Ha).
    rewrite Ha in Hb. injection Hb as <-. destruct (Hst He). auto.
  - exists b. rewrite list_lookup_insert_ne by congruence. auto.
Qed.

(** The invariant of the run: the emergencies of [fleet0] are kept. *)
Definition keeps_emergencies (fleet0 : list Aircraft) (sim : ADSBSimulator) : Prop :=
  emergencies_kept fleet0 (aircraft sim).

Lemma keeps_on_aircraft {A} fleet0 i (m : M (Aircraft * World) A) :
  (forall a0, keeps (stays a0) m) ->
  keeps (keeps_emergencies fleet0) (on_aircraft i m).
Proof.
  intros Hm [sim w] Hs. apply wp_on_aircraft. cbn [fst snd] in *.
  destruct (aircraft sim !! i) as [a|] eqn:Ha; [|exact Hs].
  eapply wp_mono; [apply (Hm a (a, w)); intros He; auto|].
  cbn [fst snd]. intros r [a' w'] Hst. cbn [fst] in *.
  unfold keeps_emergencies in *. cbn [aircraft with_aircraft].
  eapply emergencies_kept_trans; [exact Hs|].
  apply (emergencies_kept_insert _ _ a); assumption.
Qed.

Lemma keeps_for_range {X} (P : X -> Prop) n :
  forall i (body : nat -> M (X * World) unit),
    (forall k, keeps P (body k)) -> keeps P (for_range i n body).
Proof.
  induction n as [|n IH]; intros i body Hbody; cbn [for_range].
  - apply keeps_ret.
  - apply keeps_bind; [apply Hbody|]. intros _. apply IH, Hbody.
Qed.

Lemma keeps_for_each {X B} (P : X -> Prop) (l : list B) (body : B -> M (X * World) unit) :
  (forall x, keeps P (body x)) -> keeps P (for_each l body).
Proof.
  intros Hbody. induction l as [|x l IH]; cbn [for_each].
  - apply keeps_ret.
  - apply keeps_bind; [apply Hbody|]. intros _. exact IH.
Qed.

Lemma keeps_try_except_Exception {X A} (P : X -> Prop)
      (body : M (X * World) A) handler :
  keeps P body -> (forall e, keeps P (handler e)) ->
  keeps P (try_except_Exception body handler).
Proof.
  intros Hb Hh s Hs. apply wp_try_except_Exception.
  eapply wp_mono; [apply Hb, Hs|]. intros [a|e] s' Hs'; [exact Hs'|].
  destruct (is_Exception e); [apply Hh, Hs' | exact Hs'].
Qed.

Lemma keeps_try_finally {X A} (P : X -> Prop) (body : M (X * World) A) cleanup :
  keeps P body -> keeps P cleanup -> keeps P (try_finally body cleanup).
Proof.
  intros Hb Hc s Hs. pose proof (Hb s Hs) as H1. unfold wp, try_finally in *.
  destruct (body s) as [r s1]. cbn [fst snd] in *.
  pose proof (Hc s1 H1) as H2. unfold wp in H2.
  destruct (cleanup s1) as [[u|e] s2]; exact H2.
Qed.

Lemma keeps_config_get (P : ADSBSimulator -> Prop) section key :
  keeps P (config_get section key).
Proof. intros s Hs. apply wp_config_get. exact Hs. Qed.

Lemma keeps_call {X} (P : X -> Prop) outcome : keeps P (@call X outcome).
Proof. destruct outcome; [apply keeps_raise | apply keeps_ret]. Qed.

Lemma keeps_as_str {X} (P : X -> Prop) v : keeps P (@as_str X v).
Proof. destruct v; first [apply keeps_raise | apply keeps_ret]. Qed.

Lemma keeps_producer_produce (P : ADSBSimulator -> Prop) topic key value :
  keeps P (producer_produce topic key value).
Proof.
  intros s Hs. apply wp_producer_produce.
  destruct topic; try exact Hs. destruct (produce env _); exact Hs.
Qed.

#[local] Hint Resolve keeps_config_get keeps_call keeps_as_str keeps_producer_produce
  : keeps.

Lemma keeps_serve_callbacks (P : ADSBSimulator -> Prop) : keeps P serve_callbacks.
Proof.
  intros [sim w] Hs. unfold serve_callbacks.
  assert (H : keeps P (for_each (delivery_reports env (poll_pos w)) _delivery_callback)).
  { apply keeps_for_each. intros [e|]; cbn; auto with keeps. }
  apply (H (sim, with_poll_pos (S (poll_pos w)) w) Hs).
Qed.

#[local] Hint Resolve keeps_serve_callbacks : keeps.

(** A property of the simulator that depends on the fleet alone. *)
Definition fleet_only (P : ADSBSimulator -> Prop) : Prop :=
  forall sim sim', aircraft sim' = aircraft sim -> P sim -> P sim'.

Lemma keeps_emergencies_fleet_only fleet0 : fleet_only (keeps_emergencies fleet0).
Proof. intros sim sim' H. unfold keeps_emergencies. rewrite H. exact id. Qed.

Lemma _publish_message_keeps (P : ADSBSimulator -> Prop) message :
  fleet_only P -> keeps P (_publish_message message).
Proof.
  intros HP. unfold _publish_message. apply keeps_bind; [auto with keeps|].
  intros [p|]; [|apply keeps_ret].
  apply keeps_try_except_Exception; [|intros e; auto with keeps].
  keeps_go. revert H. apply HP. reflexivity.
Qed.

Lemma _log_statistics_keeps (P : ADSBSimulator -> Prop) :
  fleet_only P -> keeps P _log_statistics.
Proof.
  intros HP. unfold _log_statistics. keeps_go. revert H. apply HP. reflexivity.
Qed.

Lemma stop_keeps (P : ADSBSimulator -> Prop) : fleet_only P -> keeps P stop.
Proof.
  intros HP. unfold stop, producer_flush. apply keeps_bind.
  { apply keeps_modify. intros x. apply HP. reflexivity. }
  intros _. apply keeps_bind; [auto with keeps|]. intros [p|]; keeps_go.
Qed.

Lemma time_sleep_keeps (P : ADSBSimulator -> Prop) seconds :
  fleet_only P -> keeps P (time_sleep seconds).
Proof.
  intros HP. unfold time_sleep. apply keeps_bind; [auto with keeps|]. intros _.
  intros [sim w] Hs. unfold wp. cbn [fst snd].
  destruct (signal_during_sleep env (sleep_pos w)) as [signum|]; [|exact Hs].
  assert (H : keeps P (_signal_handler signum)).
  { unfold _signal_handler. keeps_go. apply stop_keeps, HP. }
  apply (H (sim, with_sleep_pos (S (sleep_pos w)) w) Hs).
Qed.

Lemma set_conflict_state_stays a0 b : keeps (stays a0) (set_conflict_state b).
Proof. unfold set_conflict_state. apply keeps_modify. intros x Hx. exact Hx. Qed.

Lemma update_position_stays a0 dt : keeps (stays a0) (update_position dt).
Proof. apply update_position_keeps; intros v a Ha; exact Ha. Qed.

Lemma generate_message_keeps (P : Aircraft -> Prop) : keeps P generate_message.
Proof. unfold generate_message. keeps_go. Qed.

Lemma _check_separation_conflicts_keeps fleet0 :
  keeps (keeps_emergencies fleet0) _check_separation_conflicts.
Proof.
  unfold _check_separation_conflicts. apply keeps_bind; [auto with keeps|].
  intros fleet. cbv zeta. apply keeps_bind; [|intros _; apply keeps_bind].
  - apply keeps_for_range. intros k. apply keeps_on_aircraft.
    intros a0. apply set_conflict_state_stays.
  - apply keeps_for_each. intros p.
    repeat (apply keeps_bind; [|intros ?]); auto with keeps;
      apply keeps_on_aircraft; intros ?;
      first [apply set_conflict_state_stays | apply keeps_gets].
  - intros _. apply keeps_ret.
Qed.

(** Sampling triggers an emergency only on an aircraft that is not in one. *)
Lemma sample_emergency_keeps fleet0 emergency_freq i :
  keeps (keeps_emergencies fleet0)
        (in_emergency <- on_aircraft i (gets emergency_state) ;;
         if in_emergency then ret tt
         else
           u <- random_random ;;
           freq <- lift (as_number emergency_freq) ;;
           if Qltb u freq then
             emergency_type <- random_choice emergency_types ;;
             on_aircraft i (trigger_emergency emergency_type)
           else ret tt).
Proof.
  intros [sim w] Hs. cbn [fst] in Hs.
  apply wp_bind, wp_on_aircraft. cbn [fst snd].
  destruct (aircraft sim !! i) as [a|] eqn:Ha; [|exact Hs].
  apply wp_gets. cbn [fst snd]. rewrite (list_insert_id _ _ _ Ha).
  assert (Hsim : with_aircraft (aircraft sim) sim = sim) by (destruct sim; reflexivity).
  rewrite Hsim. destruct (emergency_state a) eqn:He; [exact Hs|].
  apply wp_bind, wp_random_random. intros u _ _. cbn [drawn fst snd].
  apply wp_bind, wp_lift. destruct (as_number emergency_freq) as [freq|e]; [|exact Hs].
  destruct (Qltb u freq); [|exact Hs].
  apply wp_bind, wp_random_choice; [discriminate|]. intros kind _. cbn [drawn fst snd].
  apply wp_on_aircraft. unfold drawn. cbn [fst snd]. rewrite Ha.
  unfold trigger_emergency. wp_go.
  unfold keeps_emergencies in *. cbn [aircraft with_aircraft].
  eapply emergencies_kept_trans; [exact Hs|].
  apply (emergencies_kept_insert _ _ a); [exact Ha|].
  intros Htrue. congruence.
Qed.

Lemma _trigger_random_emergencies_keeps fleet0 :
  keeps (keeps_emergencies fleet0) _trigger_random_emergencies.
Proof.
  unfold _trigger_random_emergencies. apply keeps_bind; [auto with keeps|].
  intros emergency_freq. apply keeps_bind; [auto with keeps|]. intros fleet.
  apply keeps_for_range. intros i. apply sample_emergency_keeps.
Qed.

Lemma maybe_publish_keeps fleet0 i : keeps (keeps_emergencies fleet0) (maybe_publish i).
Proof.
  unfold maybe_publish. keeps_go.
  - apply keeps_on_aircraft. intros ?. apply generate_message_keeps.
  - apply _publish_message_keeps, keeps_emergencies_fleet_only.
Qed.

Lemma tick_keeps fleet0 t : keeps (keeps_emergencies fleet0) (tick t).
Proof.
  unfold tick, producer_poll. apply keeps_bind; [auto with keeps|]. intros current_time.
  cbv zeta. apply keeps_bind; [auto with keeps|]. intros fleet.
  apply keeps_bind.
  { apply keeps_for_range. intros i. keeps_go.
    - apply keeps_on_aircraft. intros ?. apply update_position_stays.
    - apply maybe_publish_keeps. }
  intros _. apply keeps_bind; [auto with keeps|]. intros _.
  apply keeps_bind; [apply _check_separation_conflicts_keeps|]. intros _.
  apply keeps_bind; [auto with keeps|]. intros _.
  apply keeps_bind; [apply _trigger_random_emergencies_keeps|]. intros _.
  apply keeps_bind; [auto with keeps|]. intros producer.
  apply keeps_bind; [destruct producer; keeps_go|]. intros _.
  apply keeps_bind; [auto with keeps|]. intros _.
  apply keeps_bind; [apply _log_statistics_keeps, keeps_emergencies_fleet_only|].
  intros _.
  apply keeps_bind; [apply time_sleep_keeps, keeps_emergencies_fleet_only|].
  intros _. apply keeps_ret.
Qed.

Lemma while_running_keeps fleet0 fuel :
  forall t, keeps (keeps_emergencies fleet0) (while_running fuel t).
Proof.
  induction fuel as [|fuel IH]; intros t; cbn [while_running]; keeps_go;
    first [apply tick_keeps | apply IH].
Qed.

Lemma run_keeps fleet0 fuel : keeps (keeps_emergencies fleet0) (run fuel).
Proof.
  unfold run, run_prelude. apply keeps_bind.
  { apply keeps_bind.
    { apply keeps_modify. intros x. apply keeps_emergencies_fleet_only. reflexivity. }
    intros _. apply keeps_bind; [auto with keeps|]. intros _. auto with keeps. }
  intros t.
  intros s Hs. pose proof (while_running_keeps fleet0 fuel t s Hs) as H.
  unfold wp in *. destruct (while_running fuel t s) as [[[|]|e] s']; cbn [fst snd] in *.
  - apply (keeps_try_finally _ (ret true) stop); auto with keeps.
    apply stop_keeps, keeps_emergencies_fleet_only.
  - exact H.
  - apply (keeps_try_finally _ (run_handlers e) stop); auto.
    + unfold run_handlers. destruct e; cbn; keeps_go.
    + apply stop_keeps, keeps_emergencies_fleet_only.
Qed.

(** C10.  Along a run, an aircraft that is in emergency stays in emergency
    and keeps its squawk: after one pass of the loop ([tick]), after any
    number of passes ([while_running]), and after the whole of [run] with
    its shutdown, also when a pass raises.  [clear_emergency] is called
    nowhere in these, and the sampling skips an aircraft in emergency. *)
Theorem emergencies_only_grow (fuel : nat) (t : Q) (s : ADSBSimulator * World) :
  emergencies_kept (aircraft (fst s)) (aircraft (fst (snd (tick t s)))) /\
  emergencies_kept (aircraft (fst s)) (aircraft (fst (snd (while_running fuel t s)))) /\
  emergencies_kept (aircraft (fst s)) (aircraft (fst (snd (run fuel s)))).
Proof.
  split; [|split].
  - apply (tick_keeps _ t s), emergencies_kept_refl.
  - apply (while_running_keeps _ fuel t s), emergencies_kept_refl.
  - apply (run_keeps _ fuel s), emergencies_kept_refl.
Qed.

(** ** What a computation writes to the output *)

(** [m] only appends to the output, and only events that satisfy [ok]. *)
Definition emits_only {X A} (ok : Event -> Prop) (m : M (X * World) A) : Prop :=
  forall s, wp m (fun _ s' => exists evs, out (snd s') = out (snd s) ++ evs /\
                                          Forall ok evs) s.

Lemma emits_nothing {X A} (ok : Event -> Prop) (m : M (X * World) A) :
  (forall s, out (snd (snd (m s))) = out (snd s)) -> emits_only ok m.
Proof.
  intros H s. exists []. unfold wp. rewrite H, app_nil_r. split; [reflexivity|constructor].
Qed.

Lemma emits_bind {X A B} ok (m : M (X * World) A) (k : A -> M (X * World) B) :
  emits_only ok m -> (forall a, emits_only ok (k a)) -> emits_only ok (bind m k).
Proof.
  intros Hm Hk s. apply wp_bind. eapply wp_mono; [apply Hm|].
  intros [a|e] s' (evs & Hevs & Hok); [|eauto].
  eapply wp_mono; [apply Hk|]. cbn beta.
  intros r s'' (evs' & Hevs' & Hok'). exists (evs ++ evs').
  rewrite Hevs', Hevs, app_assoc. split; [reflexivity|].
  apply Forall_app. auto.
Qed.

Lemma emits_ret {X A} ok (a : A) : emits_only ok (@ret (X * World) A a).
Proof. apply emits_nothing. reflexivity. Qed.

Lemma emits_raise {X A} ok e : emits_only ok (@raise (X * World) A e).
Proof. apply emits_nothing. reflexivity. Qed.

Lemma emits_lift {X A} ok (r : result A) : emits_only ok (@lift (X * World) A r).
Proof. apply emits_nothing. reflexivity. Qed.

Lemma emits_gets {X A} ok (f : X -> A) : emits_only ok (gets f).
Proof. apply emits_nothing. reflexivity. Qed.

Lemma emits_modify {X} ok (f : X -> X) : emits_only ok (modify f).
Proof. apply emits_nothing. reflexivity. Qed.

Lemma emits_getattr {X A} ok name (proj : X -> option A) :
  emits_only ok (getattr name proj).
Proof. apply emits_nothing. intros s. unfold getattr. destruct (proj _); reflexivity. Qed.

Lemma emits_time_time {X} ok : emits_only ok (@time_time X).
Proof. apply emits_nothing. reflexivity. Qed.

Lemma emits_next_word {X} ok : emits_only ok (@next_word X).
Proof. apply emits_nothing. reflexivity. Qed.

Lemma emits_random_random {X} ok : emits_only ok (@random_random X).
Proof. apply emits_nothing. reflexivity. Qed.

Lemma emits_random_uniform {X} ok a b : emits_only ok (@random_uniform X a b).
Proof. apply emits_nothing. reflexivity. Qed.

Lemma emits_random_randint {X} ok a b : emits_only ok (@random_randint X a b).
Proof.
  apply emits_nothing. intros s. unfold random_randint.
  destruct (b <? a)%Z; reflexivity.
Qed.

Lemma emits_random_choice {X A} ok (seq : list A) : emits_only ok (@random_choice X A seq).
Proof.
  apply emits_nothing. intros s. unfold random_choice. destruct seq as [|x seq]; [reflexivity|].
  unfold bind, next_word. cbn -[lookup Nat.modulo].
  destruct (lookup _ _); reflexivity.
Qed.

Lemma emits_emit {X} (ok : Event -> Prop) e : ok e -> emits_only ok (@emit X e).
Proof.
  intros He s. exists [e]. split; [reflexivity|]. constructor; [exact He|constructor].
Qed.

Lemma emits_logger {X} (ok : Event -> Prop) level msg :
  ok (Log level msg) -> emits_only ok (@logger X level msg).
Proof. apply emits_emit. Qed.

Lemma emits_if {X A} ok (c : bool) (m1 m2 : M (X * World) A) :
  emits_only ok m1 -> emits_only ok m2 -> emits_only ok (if c then m1 else m2).
Proof. destruct c; auto. Qed.

Lemma emits_for_range {X} ok n :
  forall i (body : nat -> M (X * World) unit),
    (forall k, emits_only ok (body k)) -> emits_only ok (for_range i n body).
Proof.
  induction n as [|n IH]; intros i body Hbody; cbn [for_range].
  - apply emits_ret.
  - apply emits_bind; [apply Hbody|]. intros _. apply IH, Hbody.
Qed.

Lemma emits_for_each {X B} ok (l : list B) (body : B -> M (X * World) unit) :
  (forall x, emits_only ok (body x)) -> emits_only ok (for_each l body).
Proof.
  intros Hbody. induction l as [|x l IH]; cbn [for_each].
  - apply emits_ret.
  - apply emits_bind; [apply Hbody|]. intros _. exact IH.
Qed.

Lemma emits_try_except_Exception {X A} ok (body : M (X * World) A) handler :
  emits_only ok body -> (forall e, emits_only ok (handler e)) ->
  emits_only ok (try_except_Exception body handler).
Proof.
  intros Hb Hh s. apply wp_try_except_Exception.
  eapply wp_mono; [apply Hb|]. intros [a|e] s' (evs & Hevs & Hok); [eauto|].
  destruct (is_Exception e); [|eauto].
  eapply wp_mono; [apply Hh|]. cbn beta.
  intros r s'' (evs' & Hevs' & Hok'). exists (evs ++ evs').
  rewrite Hevs', Hevs, app_assoc. split; [reflexivity|]. apply Forall_app. auto.
Qed.

Lemma emits_on_aircraft {A} ok i (m : M (Aircraft * World) A) :
  emits_only ok m -> emits_only ok (on_aircraft i m).
Proof.
  intros Hm s. apply wp_on_aircraft.
  destruct (aircraft (fst s) !! i) as [a|].
  - eapply wp_mono; [apply Hm|]. cbn [fst snd]. auto.
  - exists []. rewrite app_nil_r. split; [reflexivity|constructor].
Qed.

Lemma emits_config_get ok section key : emits_only ok (config_get section key).
Proof.
  intros s. apply wp_config_get. exists []. rewrite app_nil_r.
  split; [reflexivity|constructor].
Qed.

Lemma emits_call {X} ok outcome : emits_only ok (@call X outcome).
Proof. destruct outcome; [apply emits_raise | apply emits_ret]. Qed.

Lemma emits_as_str {X} ok v : emits_only ok (@as_str X v).
Proof. destruct v; first [apply emits_raise | apply emits_ret]. Qed.

Create HintDb emits discriminated.

#[local] Hint Resolve emits_ret emits_raise emits_lift emits_gets emits_modify
  emits_getattr emits_time_time emits_next_word emits_random_random
  emits_random_uniform emits_random_randint emits_random_choice emits_config_get
  emits_call emits_as_str : emits.

Ltac emits_go :=
  repeat match goal with
    | |- emits_only _ (bind _ _) => apply emits_bind; [|intros ?]
    | |- emits_only _ (if _ then _ else _) => apply emits_if
    | |- emits_only _ (let _ := _ in _) => cbv zeta
    | |- emits_only _ (emit _) => apply emits_emit
    | |- emits_only _ (logger _ _) => apply emits_emit
    | |- emits_only _ (on_aircraft _ _) => apply emits_on_aircraft
    | |- emits_only _ (for_range _ _ _) => apply emits_for_range; intros ?
    | |- emits_only _ (for_each _ _) => apply emits_for_each; intros ?
    | |- emits_only _ (try_except_Exception _ _) =>
        apply emits_try_except_Exception; [|intros ?]
    | |- emits_only _ _ => solve [auto with emits]
    end.

(** ** C6: an exception in the loop *)

Lemma returns_for_each {X B} (l : list B) (body : B -> M (X * World) unit) :
  (forall x, returns (body x)) -> returns (for_each l body).
Proof.
  intros Hbody. induction l as [|x l IH]; cbn [for_each].
  - apply returns_ret.
  - apply returns_bind; [apply Hbody|]. intros _. exact IH.
Qed.

Lemma serve_callbacks_returns : returns serve_callbacks.
Proof.
  intros [sim w]. unfold serve_callbacks.
  assert (H : returns (X := ADSBSimulator)
                (for_each (delivery_reports env (poll_pos w)) _delivery_callback)).
  { apply returns_for_each. intros [msg|]; cbn [_delivery_callback]; auto with returns. }
  apply (H (sim, with_poll_pos (S (poll_pos w)) w)).
Qed.

Lemma stop_returns : returns stop.
Proof.
  unfold stop, producer_flush. apply returns_bind; [auto with returns|]. intros _.
  apply returns_bind; [auto with returns|]. intros [p|]; returns_go.
  apply serve_callbacks_returns.
Qed.

(** What [run] does once a pass has raised the [Exception] [e]: the
    [except Exception] clause, then the [finally] clause. *)
Definition after_loop_exception (e : exn) : M (ADSBSimulator * World) unit :=
  logger ERROR (SimulationError e) ;;
  stop.

Lemma run_swallows_loop_exception fuel (s : ADSBSimulator * World) t s0 e s1 :
  run_prelude s = (Ok t, s0) ->
  while_running fuel t s0 = (Raise e, s1) ->
  is_Exception e = true ->
  run fuel s = (Ok true, snd (after_loop_exception e s1)).
Proof.
  intros Hpre Hloop He. unfold run, bind at 1. rewrite Hpre, Hloop.
  unfold try_finally, run_handlers, after_loop_exception.
  assert (Hh : (match e with
                | KeyboardInterrupt => logger INFO InterruptedByUser;; ret true
                | _ => if is_Exception e
                       then logger ERROR (SimulationError e);; ret true
                       else raise e
                end) s1
               = (Ok true, snd (logger ERROR (SimulationError e) s1))).
  { destruct e; try discriminate; reflexivity. }
  rewrite Hh. unfold bind at 1. cbn [fst snd].
  change (logger ERROR (SimulationError e) s1)
    with (Ok tt, snd (logger ERROR (SimulationError e) s1)).
  cbv beta iota.
  pose proof (stop_returns (snd (logger ERROR (SimulationError e) s1))) as [[] Hst].
  destruct (stop _) as [r s2]. cbn [fst snd] in *. subst r. reflexivity.
Qed.

Definition any_event (e : Event) : Prop := True.

Lemma serve_callbacks_emits ok :
  (forall level msg, ok (Log level msg)) -> emits_only ok serve_callbacks.
Proof.
  intros Hok [sim w]. unfold serve_callbacks.
  assert (H : emits_only (X := ADSBSimulator) ok
                (for_each (delivery_reports env (poll_pos w)) _delivery_callback)).
  { apply emits_for_each. intros [msg|]; cbn [_delivery_callback].
    - apply emits_emit, Hok.
    - apply emits_ret. }
  apply (H (sim, with_poll_pos (S (poll_pos w)) w)).
Qed.

(** An event already written is still there after [m]. *)
Lemma emits_only_keeps_event {X A} (m : M (X * World) A) e :
  emits_only any_event m ->
  forall s, In e (out (snd s)) -> wp m (fun _ s' => In e (out (snd s'))) s.
Proof.
  intros Hm s He. eapply wp_mono; [apply Hm|]. cbn beta.
  intros r s' (evs & -> & _). apply in_or_app. auto.
Qed.

Lemma stop_emits : emits_only any_event stop.
Proof.
  unfold stop, producer_flush. apply emits_bind; [auto with emits|]. intros _.
  apply emits_bind; [auto with emits|]. intros producer.
  apply emits_bind.
  - destruct producer as [p|]; emits_go; try exact I.
    apply serve_callbacks_emits. intros; exact I.
  - intros _. emits_go; try exact I.
Qed.

Lemma stop_flushes (s : ADSBSimulator * World) :
  kafka_producer (fst s) <> None ->
  wp stop (fun _ s' => In (Flush 10) (out (snd s'))) s.
Proof.
  intros Hp. unfold stop. apply wp_bind, wp_modify. apply wp_bind, wp_gets.
  cbn [fst snd kafka_producer with_running].
  destruct (kafka_producer (fst s)) as [p|]; [|congruence].
  apply wp_bind, wp_bind, wp_emit. unfold producer_flush.
  apply wp_bind, wp_emit. cbn [fst snd out with_out].
  eapply wp_mono.
  - apply emits_only_keeps_event.
    + apply serve_callbacks_emits. intros; exact I.
    + cbn [fst snd out with_out]. apply in_or_app. right. left. reflexivity.
  - cbn beta. intros [[]|e] s' Hin; [|exact Hin].
    apply (emits_only_keeps_event
             (now <- time_time ;; start <- gets start_time ;;
              let uptime := (now - start)%Q in
              sent <- gets messages_sent ;;
              logger INFO (SimulationStopped uptime sent))); [|exact Hin].
    emits_go; try exact I.
Qed.

(** C6, amended.  When a pass of the loop raises an [Exception], [run]
    catches it: it logs the error, runs [stop] (which flushes the producer
    when there is one, and logs the final line) and returns, so [main]
    returns too and the process exits with code 0.  The state and the output
    are those of the raise followed by the error line and [stop]. *)
Theorem loop_exception_exits_0 (config_path : string) (fuel : nat) (w : World)
        simulator w1 t s0 e s1 :
  new_ADSBSimulator config_path (tt, w) = (Ok simulator, (tt, w1)) ->
  run_prelude (simulator, w1) = (Ok t, s0) ->
  while_running fuel t s0 = (Raise e, s1) ->
  is_Exception e = true ->
  main config_path fuel w = (Some (Exit 0), snd (snd (after_loop_exception e s1))) /\
  fst (after_loop_exception e s1) = Ok tt /\
  In (Log ERROR (SimulationError e)) (out (snd (snd (after_loop_exception e s1)))) /\
  (kafka_producer (fst s1) <> None ->
   In (Flush 10) (out (snd (snd (after_loop_exception e s1))))).
Proof.
  intros Hnew Hpre Hloop He.
  pose proof (run_swallows_loop_exception fuel _ _ _ _ _ Hpre Hloop He) as Hrun.
  split; [|split; [|split]].
  - unfold main, try_except_Exception, bind at 1. rewrite Hnew. cbn [fst snd].
    rewrite Hrun. destruct (after_loop_exception e s1) as [r [sim' w']]. reflexivity.
  - unfold after_loop_exception, logger.
    assert (H : returns (emit (X := ADSBSimulator) (Log ERROR (SimulationError e)) ;; stop)).
    { apply returns_bind; [auto with returns|]. intros _. apply stop_returns. }
    destruct (H s1) as [[] Hr]. exact Hr.
  - unfold after_loop_exception, logger.
    assert (H : wp (emit (Log ERROR (SimulationError e)) ;; stop)
                   (fun _ s' => In (Log ERROR (SimulationError e)) (out (snd s'))) s1);
      [|exact H].
    apply wp_bind, wp_emit. apply emits_only_keeps_event; [apply stop_emits|].
    cbn [fst snd out with_out]. apply in_or_app. right. left. reflexivity.
  - intros Hp. unfold after_loop_exception, logger.
    assert (H : wp (emit (Log ERROR (SimulationError e)) ;; stop)
                   (fun _ s' => In (Flush 10) (out (snd s'))) s1); [|exact H].
    apply wp_bind, wp_emit. apply stop_flushes. exact Hp.
Qed.

(** ** C7: the configuration *)

(** [m] raises nothing that [except Exception] would let through. *)
Definition tame {X A} (m : M (X * World) A) : Prop :=
  forall s, wp m (fun r _ => match r with
                             | Ok _ => True
                             | Raise e => is_Exception e = true
                             end) s.

Lemma tame_bind {X A B} (m : M (X * World) A) (k : A -> M (X * World) B) :
  tame m -> (forall a, tame (k a)) -> tame (bind m k).
Proof.
  intros Hm Hk s. apply wp_bind. eapply wp_mono; [apply Hm|].
  intros [a|e] s' H; [apply Hk | exact H].
Qed.

Lemma tame_returns {X A} (m : M (X * World) A) : returns m -> tame m.
Proof. intros Hm s. eapply wp_mono; [apply Hm|]. intros r s' [a ->]. exact I. Qed.

Lemma tame_config_get section key : tame (config_get section key).
Proof.
  intros s. apply wp_config_get.
  destruct (config_lookup _ _ _) eqn:E; [exact I|].
  eapply config_lookup_raises_Exception, E.
Qed.

Lemma tame_call {X} outcome : tame (@call X outcome).
Proof.
  destruct outcome as [f|]; intros s; [apply library_exn_is_Exception | exact I].
Qed.

Lemma tame_as_str {X} v : tame (@as_str X v).
Proof. destruct v; intros ?; first [exact I | reflexivity]. Qed.

Lemma returns_try_except_Exception {X A} (body : M (X * World) A) handler :
  tame body -> (forall e, returns (handler e)) ->
  returns (try_except_Exception body handler).
Proof.
  intros Hb Hh s. apply wp_try_except_Exception.
  eapply wp_mono; [apply Hb|]. intros [a|e] s' H; [eauto|].
  rewrite H. apply Hh.
Qed.

Ltac tame_go :=
  repeat match goal with
    | |- tame (bind _ _) => apply tame_bind; [|intros ?]
    | |- tame (config_get _ _) => apply tame_config_get
    | |- tame (call _) => apply tame_call
    | |- tame (as_str _) => apply tame_as_str
    | |- tame _ => apply tame_returns; solve [auto with returns]
    end.

Lemma _setup_kafka_returns : returns _setup_kafka.
Proof.
  unfold _setup_kafka. apply returns_try_except_Exception.
  - tame_go. apply tame_returns, returns_try_except_Exception.
    + tame_go.
    + intros e. destruct (mentions_already_exists _); auto with returns.
  - intros e. returns_go.
Qed.

Lemma _setup_kafka_keeps (P : ADSBSimulator -> Prop) :
  (forall v sim, P sim -> P (with_kafka_producer v sim)) -> keeps P _setup_kafka.
Proof.
  intros HP. unfold _setup_kafka. apply keeps_try_except_Exception.
  - keeps_go; auto.
    apply keeps_try_except_Exception; [keeps_go|].
    intros e. destruct (mentions_already_exists _); auto with keeps.
  - intros e. keeps_go. auto.
Qed.

Lemma _load_config_loaded {X} config_path doc (s : X * World) :
  safe_load env config_path = inr doc ->
  _load_config config_path s
  = (Ok doc, (fst s, with_out (out (snd s) ++ [Log INFO (ConfigurationLoaded config_path)])
                              (snd s))).
Proof. intros H. unfold _load_config, try_except_Exception, bind. rewrite H. reflexivity. Qed.

Lemma _load_config_default {X} config_path f (s : X * World) :
  safe_load env config_path = inl f ->
  _load_config config_path s
  = (Ok default_config,
     (fst s, with_out (out (snd s) ++ [Log ERROR (FailedToLoadConfig (library_exn f))])
                      (snd s))).
Proof.
  intros H. unfold _load_config, try_except_Exception, bind. rewrite H.
  unfold raise. rewrite library_exn_is_Exception. reflexivity.
Qed.

Lemma startup_reads_raise_Exception doc e :
  startup_reads doc = Raise e -> is_Exception e = true.
Proof.
  unfold startup_reads.
  destruct (subscript doc "simulation") as [inner|e1] eqn:E1.
  - destruct (subscript inner "num_aircraft") as [n|e2] eqn:E2.
    + destruct (subscript doc "aircraft_types") as [inner'|e3] eqn:E3.
      * apply subscript_raises_Exception.
      * intros [= <-]. eapply subscript_raises_Exception, E3.
    + intros [= <-]. eapply subscript_raises_Exception, E2.
  - intros [= <-]. eapply subscript_raises_Exception, E1.
Qed.

Lemma _generate_aircraft_fleet_startup_reads (s : ADSBSimulator * World) e :
  startup_reads (config (fst s)) = Raise e ->
  fst (_generate_aircraft_fleet s) = Raise e.
Proof.
  intros H. unfold startup_reads in H.
  assert (Hwp : wp _generate_aircraft_fleet (fun r _ => r = Raise e) s); [|exact Hwp].
  unfold _generate_aircraft_fleet. apply wp_bind, wp_config_get. unfold config_lookup.
  destruct (subscript (config (fst s)) "simulation") as [inner|e1]; [|congruence].
  destruct (subscript inner "num_aircraft") as [n|e2]; [|congruence].
  apply wp_bind, wp_config_get. unfold config_lookup.
  destruct (subscript (config (fst s)) "aircraft_types") as [inner'|e3]; [|congruence].
  rewrite H. reflexivity.
Qed.

Lemma new_ADSBSimulator_startup_reads config_path doc e (w : World) :
  safe_load env config_path = inr doc ->
  startup_reads doc = Raise e ->
  fst (new_ADSBSimulator config_path (tt, w)) = Raise e.
Proof.
  intros Hload Hreads. unfold new_ADSBSimulator.
  unfold bind at 1. rewrite (_load_config_loaded _ _ _ Hload).
  unfold bind at 1, time_time at 1. cbn [fst snd].
  unfold bind at 1, time_time at 1. cbn [fst snd].
  set (self := {| config := doc |}). set (w' := with_clock_pos _ _).
  pose proof (_setup_kafka_returns (self, w')) as [[] Hret].
  pose proof (_setup_kafka_keeps (fun sim => config sim = doc)
                (fun v sim H => H) (self, w') eq_refl) as Hcfg.
  unfold wp in Hcfg. unfold bind at 1.
  destruct (_setup_kafka (self, w')) as [r s1]. cbn [fst snd] in *. subst r.
  pose proof (_generate_aircraft_fleet_startup_reads s1 e) as Hgen.
  rewrite Hcfg in Hgen. specialize (Hgen Hreads).
  destruct (_generate_aircraft_fleet s1) as [r [self' w'']]. cbn [fst] in *.
  subst r. reflexivity.
Qed.

(** A document value that is not a mapping: subscripting it with a string
    raises [TypeError]. *)
Definition not_a_mapping (v : yaml) : Prop :=
  match v with
  | YMap _ => False
  | _ => True
  end.

(** The constructor raises [e], and [main] ends with exit code 1. *)
Definition startup_fails (config_path : string) (fuel : nat) (w : World) (e : exn)
  : Prop :=
  fst (new_ADSBSimulator config_path (tt, w)) = Raise e /\
  fst (main config_path fuel w) = Some (Exit 1).

(** C7, amended.  When the configuration file loads and parses, the parsed
    document is the configuration as it stands: nothing is filled in for a
    key that is absent.  The fleet is built from [simulation.num_aircraft]
    and then [aircraft_types.jet_ratio]; when one of the two reads raises,
    the constructor of the simulator raises the same exception and [main]
    exits with code 1.  The exception of the first read that fails is a
    [KeyError] with the name of the section or key that a mapping lacks
    ([simulation], [num_aircraft], [aircraft_types], [jet_ratio]), and a
    [TypeError] when the document or the section is not a mapping, as for
    an empty file or a section without children.  The default record is the
    configuration only when loading the file raises, and then as a whole. *)
Theorem config_is_used_as_loaded (config_path : string) (fuel : nat) (w : World) :
  match safe_load env config_path with
  | inr doc =>
      fst (_load_config config_path (tt, w)) = Ok doc /\
      (forall section, subscript doc "simulation" = Ok (YMap section) ->
                       section !! "num_aircraft" = None ->
                       startup_reads doc = Raise (KeyError "num_aircraft")) /\
      (forall e, startup_reads doc = Raise e ->
                 fst (new_ADSBSimulator config_path (tt, w)) = Raise e /\
                 fst (main config_path fuel w) = Some (Exit 1)) /\
      (not_a_mapping doc -> startup_fails config_path fuel w TypeError) /\
      (forall top,
         doc = YMap top ->
         match top !! "simulation" with
         | None => startup_fails config_path fuel w (KeyError "simulation")
         | Some (YMap section) =>
             match section !! "num_aircraft" with
             | None => startup_fails config_path fuel w (KeyError "num_aircraft")
             | Some _ =>
                 match top !! "aircraft_types" with
                 | None => startup_fails config_path fuel w (KeyError "aircraft_types")
                 | Some (YMap types) =>
                     match types !! "jet_ratio" with
                     | None => startup_fails config_path fuel w (KeyError "jet_ratio")
                     | Some ratio => startup_reads doc = Ok ratio
                     end
                 | Some _ => startup_fails config_path fuel w TypeError
                 end
             end
         | Some _ => startup_fails config_path fuel w TypeError
         end)
  | inl f =>
      fst (_load_config config_path (tt, w)) = Ok default_config
  end.
Proof.
  destruct (safe_load env config_path) as [f|doc] eqn:Hload.
  - rewrite (_load_config_default _ _ _ Hload). reflexivity.
  - assert (Hfail : forall e, startup_reads doc = Raise e ->
                              startup_fails config_path fuel w e).
    { intros e Hreads.
      pose proof (new_ADSBSimulator_startup_reads _ _ _ w Hload Hreads) as Hnew.
      split; [exact Hnew|].
      unfold main, try_except_Exception, bind at 1.
      destruct (new_ADSBSimulator config_path (tt, w)) as [r [u w1]].
      cbn [fst] in Hnew. subst r.
      rewrite (startup_reads_raise_Exception _ _ Hreads). reflexivity. }
    split; [rewrite (_load_config_loaded _ _ _ Hload); reflexivity|].
    split; [|split; [exact Hfail|split]].
    + intros section Hsec Hnone. unfold startup_reads. rewrite Hsec.
      cbn [subscript]. rewrite Hnone. reflexivity.
    + intros Hdoc. apply Hfail. destruct doc; try reflexivity. destruct Hdoc.
    + intros top ->. unfold startup_reads in *. cbn [subscript] in *.
      destruct (top !! "simulation") as [inner|]; [|apply Hfail; reflexivity].
      destruct inner as [| | | | | |section]; try (apply Hfail; reflexivity).
      cbn [subscript] in *.
      destruct (section !! "num_aircraft") as [n|]; [|apply Hfail; reflexivity].
      destruct (top !! "aircraft_types") as [inner'|]; [|apply Hfail; reflexivity].
      destruct inner' as [| | | | | |types]; try (apply Hfail; reflexivity).
      cbn [subscript] in *.
      destruct (types !! "jet_ratio") as [ratio|]; [reflexivity|apply Hfail; reflexivity].
Qed.

(** ** C9: the order of a pass *)

Definition not_a_call (e : Event) : Prop :=
  match e with
  | Invoke _ => False
  | _ => True
  end.

(** [m] logs no call of the main loop. *)
Definition quiet {X A} (m : M (X * World) A) : Prop := emits_only not_a_call m.

Lemma flight_plan_loop_emits {X} `{SelfAttrs X} ok i n current :
  emits_only ok (flight_plan_loop i n current).
Proof.
  revert i current. induction n as [|n IH]; intros i current; cbn [flight_plan_loop].
  - apply emits_ret.
  - emits_go; try apply IH.
Qed.

Lemma _generate_flight_plan_emits {X} `{SelfAttrs X} ok :
  emits_only ok (_generate_flight_plan (X := X)).
Proof. unfold _generate_flight_plan. emits_go. apply flight_plan_loop_emits. Qed.

Lemma update_position_emits ok dt : emits_only ok (update_position dt).
Proof.
  unfold update_position. apply emits_bind; [auto with emits|].
  intros [|wp0 plan]; [apply emits_ret|].
  unfold track_waypoint, slew_heading, _update_speed, _update_altitude, translate,
    _add_realistic_variations.
  emits_go. apply _generate_flight_plan_emits.
Qed.

Lemma generate_message_emits ok : emits_only ok generate_message.
Proof. unfold generate_message. emits_go. Qed.

Lemma producer_produce_emits ok topic key value :
  (forall t k v, ok (Produce t k v)) ->
  emits_only ok (producer_produce topic key value).
Proof.
  intros Hok s. apply wp_producer_produce.
  destruct topic; try (exists []; rewrite app_nil_r; split; [reflexivity|constructor]).
  destruct (produce env _).
  - exists []. cbn. rewrite app_nil_r. split; [reflexivity|constructor].
  - eexists [_]. cbn. split; [reflexivity|]. constructor; [apply Hok|constructor].
Qed.

Lemma _publish_message_quiet message : quiet (_publish_message message).
Proof.
  unfold quiet, _publish_message. apply emits_bind; [auto with emits|].
  intros [p|]; [|apply emits_ret]. emits_go; try exact I.
  apply producer_produce_emits. intros; exact I.
Qed.

Lemma _check_separation_conflicts_quiet : quiet _check_separation_conflicts.
Proof.
  unfold quiet, _check_separation_conflicts, set_conflict_state. emits_go; try exact I.
Qed.

Lemma _trigger_random_emergencies_quiet : quiet _trigger_random_emergencies.
Proof.
  unfold quiet, _trigger_random_emergencies, trigger_emergency. emits_go; try exact I.
Qed.

Lemma _log_statistics_quiet : quiet _log_statistics.
Proof. unfold quiet, _log_statistics. emits_go; try exact I. Qed.

Lemma producer_poll_quiet timeout : quiet (producer_poll timeout).
Proof.
  unfold quiet, producer_poll. emits_go; try exact I.
  apply serve_callbacks_emits. intros; exact I.
Qed.

Lemma stop_quiet : quiet stop.
Proof.
  unfold quiet, stop, producer_flush. apply emits_bind; [auto with emits|]. intros _.
  apply emits_bind; [auto with emits|]. intros producer.
  apply emits_bind.
  - destruct producer as [p|]; emits_go; try exact I.
    apply serve_callbacks_emits. intros; exact I.
  - intros _. emits_go; try exact I.
Qed.

Lemma time_sleep_quiet seconds : quiet (time_sleep seconds).
Proof.
  unfold quiet, time_sleep. apply emits_bind; [apply emits_emit; exact I|]. intros _.
  intros [sim w]. unfold wp. cbn [fst snd].
  destruct (signal_during_sleep env (sleep_pos w)) as [signum|].
  - assert (H : emits_only not_a_call (_signal_handler signum)).
    { unfold _signal_handler. emits_go; try exact I; apply stop_quiet. }
    apply (H (sim, with_sleep_pos (S (sleep_pos w)) w)).
  - exists []. cbn. rewrite app_nil_r. split; [reflexivity|constructor].
Qed.

Lemma calls_of_app evs1 evs2 : calls_of (evs1 ++ evs2) = calls_of evs1 ++ calls_of evs2.
Proof. apply omap_app. Qed.

Lemma calls_of_quiet evs : Forall not_a_call evs -> calls_of evs = [].
Proof.
  induction 1 as [|e evs He _ IH]; [reflexivity|].
  destruct e; cbn in *; try exact IH. destruct He.
Qed.

(** The calls [m] logs from the state [s]. *)
Definition calls_are {X A} (m : M (X * World) A) (s : X * World) (cs : list Call) : Prop :=
  exists evs, out (snd (snd (m s))) = out (snd s) ++ evs /\ calls_of evs = cs.

Lemma calls_are_new_events {X A} (m : M (X * World) A) s cs :
  calls_are m s cs -> calls_of (new_events m s) = cs.
Proof.
  intros (evs & Hevs & Hcs). unfold new_events. rewrite Hevs.
  rewrite drop_app_length. exact Hcs.
Qed.

(** When [m] returns, the calls it logged satisfy [P]. *)
Definition pass {X A} (P : list Call -> Prop) (m : M (X * World) A) : Prop :=
  forall s b, fst (m s) = Ok b -> exists cs, calls_are m s cs /\ P cs.

Lemma pass_conseq {X A} (P P' : list Call -> Prop) (m : M (X * World) A) :
  pass P m -> (forall cs, P cs -> P' cs) -> pass P' m.
Proof. intros Hm HP s b Hb. destruct (Hm s b Hb) as (cs & Hcs & Hp). eauto. Qed.

Lemma pass_quiet {X A} (m : M (X * World) A) : quiet m -> pass (fun cs => cs = []) m.
Proof.
  intros Hm s b _. exists []. split; [|reflexivity].
  destruct (Hm s) as (evs & Hevs & Hok). exists evs. split; [exact Hevs|].
  apply calls_of_quiet, Hok.
Qed.

Lemma pass_raise {X A} (P : list Call -> Prop) e : pass P (@raise (X * World) A e).
Proof. intros s b Hb. discriminate. Qed.

Lemma pass_bind {X A B} (P1 P2 : list Call -> Prop)
      (m : M (X * World) A) (k : A -> M (X * World) B) :
  pass P1 m -> (forall a, pass P2 (k a)) ->
  pass (fun cs => exists c1 c2, cs = c1 ++ c2 /\ P1 c1 /\ P2 c2) (bind m k).
Proof.
  intros Hm Hk s b Hb. unfold bind in Hb. unfold calls_are, bind.
  destruct (m s) as [[a|e] s1] eqn:Hms; [|discriminate].
  destruct (Hm s a) as (c1 & (evs1 & Hevs1 & Hc1) & Hp1); [rewrite Hms; reflexivity|].
  destruct (Hk a s1 b Hb) as (c2 & (evs2 & Hevs2 & Hc2) & Hp2).
  rewrite Hms in Hevs1. cbn [fst snd] in Hevs1.
  exists (c1 ++ c2). split; [|eauto 6].
  exists (evs1 ++ evs2). rewrite Hevs2, Hevs1, app_assoc, calls_of_app, Hc1, Hc2.
  auto.
Qed.

Lemma pass_quiet_bind {X A B} (P : list Call -> Prop)
      (m : M (X * World) A) (k : A -> M (X * World) B) :
  quiet m -> (forall a, pass P (k a)) -> pass P (bind m k).
Proof.
  intros Hm Hk. eapply pass_conseq.
  - apply pass_bind; [apply pass_quiet, Hm | exact Hk].
  - cbn beta. intros cs (c1 & c2 & -> & -> & Hp). exact Hp.
Qed.

Lemma pass_emit_bind {X B} (P : list Call -> Prop) c (k : M (X * World) B) :
  pass P k -> pass (fun cs => exists rest, cs = c :: rest /\ P rest) (emit (Invoke c) ;; k).
Proof.
  intros Hk. eapply pass_conseq.
  - apply pass_bind with (P1 := fun cs => cs = [c]); [|intros _; exact Hk].
    intros s b _. exists [c]. split; [|reflexivity]. exists [Invoke c]. auto.
  - cbn beta. intros cs (c1 & c2 & -> & -> & Hp). eauto.
Qed.

Lemma pass_ret {X A} (a : A) : pass (fun cs => cs = []) (@ret (X * World) A a).
Proof. apply pass_quiet, emits_ret. Qed.

Lemma maybe_publish_pass i : pass (fun cs => exists b, cs = emissions i b) (maybe_publish i).
Proof.
  unfold maybe_publish.
  apply pass_quiet_bind; [apply emits_config_get|]. intros min_interval.
  apply pass_quiet_bind; [apply emits_config_get|]. intros max_interval.
  eapply pass_conseq.
  - apply pass_emit_bind with (P := fun cs => exists b : bool,
                                        cs = if b then [PublishMessage i] else []).
    apply pass_quiet_bind; [apply emits_random_random|]. intros u.
    apply pass_quiet_bind; [apply emits_lift|]. intros a.
    apply pass_quiet_bind; [apply emits_lift|]. intros b.
    apply pass_quiet_bind; [apply emits_random_uniform|]. intros interval.
    destruct (Qeq_bool interval 0); [apply pass_raise|].
    destruct (Qltb u (1 / interval)).
    + apply pass_quiet_bind; [apply emits_on_aircraft, generate_message_emits|].
      intros message. eapply pass_conseq.
      * apply pass_emit_bind, pass_quiet, _publish_message_quiet.
      * cbn beta. intros cs (rest & -> & ->). exists true. reflexivity.
    + eapply pass_conseq; [apply pass_ret|]. intros cs ->. exists false. reflexivity.
  - cbn beta. intros cs (rest & -> & b & ->). exists b. reflexivity.
Qed.

Lemma advance_and_emit_pass dt n : forall i,
  pass (fun cs => exists fired, length fired = n /\ cs = interleaved i fired)
       (for_range i n (fun i =>
          emit (Invoke (UpdatePosition i)) ;;
          on_aircraft i (update_position dt) ;;
          maybe_publish i)).
Proof.
  induction n as [|n IH]; intros i; cbn [for_range].
  - eapply pass_conseq; [apply pass_ret|]. intros cs ->. exists []. auto.
  - eapply pass_conseq.
    + apply pass_bind with (P1 := fun cs => exists b, cs = UpdatePosition i :: emissions i b);
        [|intros _; apply IH].
      eapply pass_conseq.
      * apply pass_emit_bind.
        apply pass_quiet_bind; [apply emits_on_aircraft, update_position_emits|].
        intros _. apply maybe_publish_pass.
      * cbn beta. intros cs (rest & -> & b & ->). exists b. reflexivity.
    + cbn beta. intros cs (c1 & c2 & -> & (b & ->) & fired & Hlen & ->).
      exists (b :: fired). split; [cbn; rewrite Hlen; reflexivity|].
      reflexivity.
Qed.

(** A pass from its first loop on: the statements of [tick] after the two
    reads that start it. *)
Definition rest_of_tick (current_time delta_time : Q) (n : nat)
  : M (ADSBSimulator * World) Q :=
  for_range 0 n (fun i =>
    emit (Invoke (UpdatePosition i)) ;;
    on_aircraft i (update_position delta_time) ;;
    maybe_publish i) ;;
  emit (Invoke CheckSeparationConflicts) ;;
  _check_separation_conflicts ;;
  emit (Invoke TriggerRandomEmergencies) ;;
  _trigger_random_emergencies ;;
  producer <- gets kafka_producer ;;
  match producer with
  | Some _ =>
      emit (Invoke PollProducer) ;;
      producer_poll 0
  | None => ret tt
  end ;;
  emit (Invoke LogStatistics) ;;
  _log_statistics ;;
  time_sleep (1 # 10) ;;
  ret current_time.

Lemma rest_of_tick_pass current_time delta_time n :
  pass (fun cs => exists fired pump, length fired = n /\ cs = pass_calls fired pump)
       (rest_of_tick current_time delta_time n).
Proof.
  unfold rest_of_tick. eapply pass_conseq.
  - apply pass_bind; [apply advance_and_emit_pass|]. intros _.
    apply pass_emit_bind.
    apply pass_quiet_bind; [apply _check_separation_conflicts_quiet|]. intros _.
    apply pass_emit_bind.
    apply pass_quiet_bind; [apply _trigger_random_emergencies_quiet|]. intros _.
    apply pass_quiet_bind; [apply emits_gets|]. intros producer.
    apply pass_bind with
      (P1 := fun cs => exists pump : bool, cs = if pump then [PollProducer] else []).
    + destruct producer as [p|].
      * eapply pass_conseq; [apply pass_emit_bind, pass_quiet, producer_poll_quiet|].
        cbn beta. intros cs (rest & -> & ->). exists true. reflexivity.
      * eapply pass_conseq; [apply pass_ret|]. intros cs ->. exists false. reflexivity.
    + intros _. apply pass_emit_bind.
      apply pass_quiet_bind; [apply _log_statistics_quiet|]. intros _.
      apply pass_quiet_bind; [apply time_sleep_quiet|]. intros _.
      apply pass_ret.
  - cbn beta.
    intros cs (c1 & c2 & -> & (fired & Hlen & ->) & r1 & -> & r2 & -> & c3 & c4 & ->
               & (pump & ->) & r3 & -> & ->).
    exists fired, pump. split; [exact Hlen|]. unfold pass_calls.
    destruct pump; reflexivity.
Qed.

Lemma tick_unfold t (s : ADSBSimulator * World) :
  tick t s
  = rest_of_tick (clock env (clock_pos (snd s)))
                 (clock env (clock_pos (snd s)) - t)
                 (length (aircraft (fst s)))
                 (fst s, with_clock_pos (S (clock_pos (snd s))) (snd s)).
Proof. reflexivity. Qed.


(** ** The loops of [_normalize_heading_difference] end by their guards *)

Lemma while_above_180_enough fuel : forall diff,
  (diff <= 180 + 360 * inject_Z (Z.of_nat fuel))%Q ->
  (while_above_180 fuel diff <= 180)%Q.
Proof.
  induction fuel as [|fuel IH]; intros diff Hd; cbn [while_above_180].
  - change (inject_Z (Z.of_nat 0)) with 0%Q in Hd. lra.
  - destruct (Qltb 180 diff) eqn:E.
    + apply IH. rewrite Nat2Z.inj_succ, <- Z.add_1_r, inject_Z_plus in Hd.
      change (inject_Z 1) with 1%Q in Hd. lra.
    + apply Qltb_false in E. exact E.
Qed.

Lemma while_below_minus_180_enough fuel : forall diff,
  (- 180 - 360 * inject_Z (Z.of_nat fuel) <= diff)%Q ->
  (- 180 <= while_below_minus_180 fuel diff)%Q.
Proof.
  induction fuel as [|fuel IH]; intros diff Hd; cbn [while_below_minus_180].
  - change (inject_Z (Z.of_nat 0)) with 0%Q in Hd. lra.
  - destruct (Qltb diff (-180)) eqn:E.
    + apply IH. rewrite Nat2Z.inj_succ, <- Z.add_1_r, inject_Z_plus in Hd.
      change (inject_Z 1) with 1%Q in Hd. lra.
    + apply Qltb_false in E. exact E.
Qed.

Lemma while_below_minus_180_upper fuel : forall diff,
  (diff <= 180)%Q -> (while_below_minus_180 fuel diff <= 180)%Q.
Proof.
  induction fuel as [|fuel IH]; intros diff Hd; cbn [while_below_minus_180].
  - exact Hd.
  - destruct (Qltb diff (-180)) eqn:E; [|exact Hd].
    apply Qltb_true in E. apply IH. lra.
Qed.

Lemma full_turns_enough diff :
  (Qabs diff <= 360 * inject_Z (Z.of_nat (full_turns diff)))%Q.
Proof.
  unfold full_turns.
  pose proof (Qle_ceiling (Qabs diff / 360)) as Hc.
  assert (H0 : (0 <= Qabs diff / 360)%Q).
  { apply Qle_shift_div_l; [reflexivity|]. pose proof (Qabs_nonneg diff). lra. }
  assert (Hz : (0 <= Qceiling (Qabs diff / 360))%Z).
  { rewrite Zle_Qle. change (inject_Z 0) with 0%Q.
    eapply Qle_trans; [exact H0|exact Hc]. }
  rewrite Z2Nat.id by exact Hz.
  assert (Hx : (Qabs diff == 360 * (Qabs diff / 360))%Q) by (field; discriminate).
  lra.
Qed.

(** The result is in [[-180, 180]]: no loop was cut short by its fuel. *)
Lemma _normalize_heading_difference_range diff :
  (- 180 <= _normalize_heading_difference diff)%Q /\
  (_normalize_heading_difference diff <= 180)%Q.
Proof.
  unfold _normalize_heading_difference.
  set (d := while_above_180 (full_turns diff) diff).
  assert (Hd : (d <= 180)%Q).
  { apply while_above_180_enough. pose proof (full_turns_enough diff).
    pose proof (Qle_Qabs diff). lra. }
  split.
  - apply while_below_minus_180_enough. pose proof (full_turns_enough d).
    pose proof (Qle_Qabs (- d)). rewrite Qabs_opp in H0. lra.
  - apply while_below_minus_180_upper, Hd.
Qed.

(** * More of the aircraft *)

(** ** [_normalize_heading_difference] *)

Lemma while_above_180_turns fuel : forall diff,
  exists k : Z, (while_above_180 fuel diff == diff + 360 * inject_Z k)%Q.
Proof.
  induction fuel as [|fuel IH]; intros diff; cbn [while_above_180].
  - exists 0%Z. change (inject_Z 0) with 0%Q. lra.
  - destruct (Qltb 180 diff).
    + destruct (IH (diff - 360)%Q) as [k Hk]. exists (k - 1)%Z.
      rewrite Hk. unfold Z.sub. rewrite inject_Z_plus.
      change (inject_Z (- (1))) with (- (1))%Q. lra.
    + exists 0%Z. change (inject_Z 0) with 0%Q. lra.
Qed.

Lemma while_below_minus_180_turns fuel : forall diff,
  exists k : Z, (while_below_minus_180 fuel diff == diff + 360 * inject_Z k)%Q.
Proof.
  induction fuel as [|fuel IH]; intros diff; cbn [while_below_minus_180].
  - exists 0%Z. change (inject_Z 0) with 0%Q. lra.
  - destruct (Qltb diff (-180)).
    + destruct (IH (diff + 360)%Q) as [k Hk]. exists (k + 1)%Z.
      rewrite Hk, inject_Z_plus. change (inject_Z 1) with 1%Q. lra.
    + exists 0%Z. change (inject_Z 0) with 0%Q. lra.
Qed.

Lemma while_above_180_fixed fuel diff :
  (diff <= 180)%Q -> while_above_180 fuel diff = diff.
Proof.
  intros H. destruct fuel as [|fuel]; cbn [while_above_180]; [reflexivity|].
  apply Qltb_false in H. rewrite H. reflexivity.
Qed.

Lemma while_below_minus_180_fixed fuel diff :
  (- 180 <= diff)%Q -> while_below_minus_180 fuel diff = diff.
Proof.
  intros H. destruct fuel as [|fuel]; cbn [while_below_minus_180]; [reflexivity|].
  apply Qltb_false in H. rewrite H. reflexivity.
Qed.

Lemma _normalize_heading_difference_turns (diff : Q) :
  exists k : Z, (_normalize_heading_difference diff == diff + 360 * inject_Z k)%Q.
Proof.
  unfold _normalize_heading_difference.
  destruct (while_above_180_turns (full_turns diff) diff) as [k1 H1].
  destruct (while_below_minus_180_turns
              (full_turns (while_above_180 (full_turns diff) diff))
              (while_above_180 (full_turns diff) diff)) as [k2 H2].
  exists (k1 + k2)%Z. rewrite H2, H1, inject_Z_plus. lra.
Qed.

(** In binary64 the first loop makes no progress at [huge]: the difference
    is above 180 and [huge - 360] rounds to [huge]. *)
Lemma while_above_180_stuck fuel :
  Binary64.while_above_180 fuel Binary64.huge = None.
Proof.
  induction fuel as [|fuel IH]; [vm_compute; reflexivity|].
  rewrite <- IH at 1. cbn [Binary64.while_above_180].
  match goal with
  | |- context [PrimFloat.ltb ?a Binary64.huge] =>
      replace (PrimFloat.ltb a Binary64.huge) with true by (vm_compute; reflexivity)
  end.
  match goal with
  | |- context [PrimFloat.sub Binary64.huge ?a] =>
      replace (PrimFloat.sub Binary64.huge a) with Binary64.huge
        by (vm_compute; reflexivity)
  end.
  reflexivity.
Qed.

(** X2.  Over exact arithmetic, that is for a difference that is a rational
    number, [_normalize_heading_difference] returns a value between -180
    and 180 (both ends included) that differs from its argument by a whole
    number of turns; an argument already between -180 and 180 is returned
    as it is, so 180 stays 180 and -180 stays -180.  This is not so for
    every binary64 argument: at [1e20], where taking 360 away rounds back
    to [1e20], the first loop is still above 180 after any number of
    rounds, so the call does not return. *)
Theorem _normalize_heading_difference_wraps (diff : Q) :
  ((- 180 <= _normalize_heading_difference diff)%Q /\
   (_normalize_heading_difference diff <= 180)%Q) /\
  (exists k : Z, (_normalize_heading_difference diff == diff + 360 * inject_Z k)%Q) /\
  ((- 180 <= diff)%Q /\ (diff <= 180)%Q -> _normalize_heading_difference diff = diff) /\
  (forall fuel : nat, Binary64.while_above_180 fuel Binary64.huge = None).
Proof.
  split; [apply _normalize_heading_difference_range|]. split; [|split].
  - apply _normalize_heading_difference_turns.
  - intros [Hlo Hhi]. unfold _normalize_heading_difference.
    rewrite (while_above_180_fixed _ _ Hhi).
    apply while_below_minus_180_fixed, Hlo.
  - apply while_above_180_stuck.
Qed.

(** ** Speed and altitude *)

(** Linear arithmetic with absolute values: each one by its sign. *)
Ltac Qabs_split x :=
  lazymatch goal with
  | H : (Qabs x == _)%Q |- _ => fail
  | _ =>
      let Hs := fresh "Hs" in
      destruct (Qlt_le_dec x 0) as [Hs|Hs];
      [pose proof (Qabs_neg x (Qlt_le_weak _ _ Hs)) | pose proof (Qabs_pos x Hs)]
  end.

Ltac Qabs_lra :=
  repeat match goal with
    | |- context [Qabs ?x] => Qabs_split x
    | H : context [Qabs ?x] |- _ => Qabs_split x
    end;
  lra.

(** Every comparison that decides an [if], by its two outcomes. *)
Ltac Qltb_cases :=
  repeat match goal with
    | H : context [if Qltb ?x ?y then _ else _] |- _ =>
        let E := fresh "E" in destruct (Qltb x y) eqn:E; try rewrite E in *
    | |- context [if Qltb ?x ?y then _ else _] =>
        let E := fresh "E" in destruct (Qltb x y) eqn:E; try rewrite E in *
    end;
  repeat match goal with
    | H : Qltb _ _ = true |- _ => apply Qltb_true in H
    | H : Qltb _ _ = false |- _ => apply Qltb_false in H
    end.

(** How far the ground speed is from its target. *)
Definition speed_gap (a : Aircraft) : Q := Qabs (target_speed a - ground_speed a).

(** X3.  [_update_speed] on an aircraft whose ground speed and target speed
    are within its speed limits, for a time step that is not negative: the
    call returns and assigns nothing but the ground speed; the new speed is
    the target when the target was within 2 kt per second of the time step,
    and otherwise it is exactly 2 kt per second closer to the target; the
    change is never more than 2 kt per second. *)
Theorem _update_speed_approaches_target (dt : Q) (s : Aircraft * World) :
  (0 <= dt)%Q ->
  (min_speed (fst s) <= ground_speed (fst s))%Q /\
  (ground_speed (fst s) <= max_speed (fst s))%Q ->
  (min_speed (fst s) <= target_speed (fst s))%Q /\
  (target_speed (fst s) <= max_speed (fst s))%Q ->
  fst (_update_speed dt s) = Ok tt /\
  snd (snd (_update_speed dt s)) = snd s /\
  fst (snd (_update_speed dt s))
    = with_ground_speed (ground_speed (fst (snd (_update_speed dt s)))) (fst s) /\
  ((speed_gap (fst s) <= 2 * dt)%Q ->
   (ground_speed (fst (snd (_update_speed dt s))) == target_speed (fst s))%Q) /\
  ((2 * dt < speed_gap (fst s))%Q ->
   (speed_gap (fst (snd (_update_speed dt s))) == speed_gap (fst s) - 2 * dt)%Q) /\
  (Qabs (ground_speed (fst (snd (_update_speed dt s))) - ground_speed (fst s))
   <= 2 * dt)%Q.
Proof.
  intros Hdt [Hlo Hhi] [Htlo Hthi].
  assert (Hwp : wp (_update_speed dt)
                   (fun r s' =>
                      r = Ok tt /\ snd s' = snd s /\
                      fst s' = with_ground_speed (ground_speed (fst s')) (fst s) /\
                      ((speed_gap (fst s) <= 2 * dt)%Q ->
                       (ground_speed (fst s') == target_speed (fst s))%Q) /\
                      ((2 * dt < speed_gap (fst s))%Q ->
                       (speed_gap (fst s') == speed_gap (fst s) - 2 * dt)%Q) /\
                      (Qabs (ground_speed (fst s') - ground_speed (fst s)) <= 2 * dt)%Q) s);
    [|exact Hwp].
  destruct s as [a w]. cbn [fst snd] in *. unfold _update_speed, speed_gap. wp_go.
  all: split; [reflexivity|]; split; [reflexivity|]; split; [destruct a; reflexivity|].
  all: unfold py_max, py_min; Qltb_cases.
  all: repeat split; intros; Qabs_lra.
Qed.

(** How far the altitude is from its target, and the most it can change in
    [dt] seconds at the aircraft's climb rate (feet a minute). *)
Definition altitude_gap (a : Aircraft) : Q := Qabs (target_altitude a - altitude a).

Definition climb_step (a : Aircraft) (dt : Q) : Q := (climb_rate a / 60 * dt)%Q.

(** X4.  [_update_altitude] on an aircraft whose altitude and target altitude
    are between 1000 and 60000 ft and whose climb rate is not negative, for
    a time step that is not negative: the call returns and assigns nothing
    but the altitude; the new altitude is the target when the target was
    within one step of climb, and otherwise it is exactly one step of climb
    closer to the target; the change is never more than one step. *)
Theorem _update_altitude_approaches_target (dt : Q) (s : Aircraft * World) :
  (0 <= dt)%Q ->
  (0 <= climb_rate (fst s))%Q ->
  (1000 <= altitude (fst s))%Q /\ (altitude (fst s) <= 60000)%Q ->
  (1000 <= target_altitude (fst s))%Q /\ (target_altitude (fst s) <= 60000)%Q ->
  fst (_update_altitude dt s) = Ok tt /\
  snd (snd (_update_altitude dt s)) = snd s /\
  fst (snd (_update_altitude dt s))
    = with_altitude (altitude (fst (snd (_update_altitude dt s)))) (fst s) /\
  ((altitude_gap (fst s) <= climb_step (fst s) dt)%Q ->
   (altitude (fst (snd (_update_altitude dt s))) == target_altitude (fst s))%Q) /\
  ((climb_step (fst s) dt < altitude_gap (fst s))%Q ->
   (altitude_gap (fst (snd (_update_altitude dt s)))
    == altitude_gap (fst s) - climb_step (fst s) dt)%Q) /\
  (Qabs (altitude (fst (snd (_update_altitude dt s))) - altitude (fst s))
   <= climb_step (fst s) dt)%Q.
Proof.
  intros Hdt Hrate [Hlo Hhi] [Htlo Hthi].
  assert (Hwp : wp (_update_altitude dt)
                   (fun r s' =>
                      r = Ok tt /\ snd s' = snd s /\
                      fst s' = with_altitude (altitude (fst s')) (fst s) /\
                      ((altitude_gap (fst s) <= climb_step (fst s) dt)%Q ->
                       (altitude (fst s') == target_altitude (fst s))%Q) /\
                      ((climb_step (fst s) dt < altitude_gap (fst s))%Q ->
                       (altitude_gap (fst s') == altitude_gap (fst s) - climb_step (fst s) dt)%Q) /\
                      (Qabs (altitude (fst s') - altitude (fst s))
                       <= climb_step (fst s) dt)%Q) s);
    [|exact Hwp].
  destruct s as [a w]. cbn [fst snd] in *.
  assert (Hstep : (0 <= climb_rate a / 60 * dt)%Q).
  { apply Qmult_le_0_compat; [|exact Hdt].
    apply Qle_shift_div_l; [reflexivity|]. lra. }
  unfold _update_altitude, altitude_gap, climb_step. wp_go.
  all: split; [reflexivity|]; split; [reflexivity|]; split; [destruct a; reflexivity|].
  all: unfold py_max, py_min; Qltb_cases.
  all: repeat split; intros; Qabs_lra.
Qed.

(** ** The turn of [update_position] *)

(** The heading is within [bound] degrees of [h0], whole turns apart. *)
Definition turned_within (h0 bound : Q) (a : Aircraft) : Prop :=
  exists k : Z, (Qabs (heading a - h0 - 360 * inject_Z k) <= bound)%Q.

Lemma turned_within_weaken h0 b b' a :
  (b <= b')%Q -> turned_within h0 b a -> turned_within h0 b' a.
Proof. intros Hb [k Hk]. exists k. lra. Qed.

Lemma slew_heading_turns dt h0 b (s : Aircraft * World) :
  (0 <= dt)%Q -> turned_within h0 b (fst s) ->
  wp (slew_heading dt) (fun _ s' => turned_within h0 (b + 3 * dt) (fst s')) s.
Proof.
  intros Hdt [k0 Hk0]. destruct s as [a w]. cbn [fst] in *.
  unfold slew_heading. wp_go.
  - set (h1 := (heading a + _)%Q).
    exists (k0 - Qfloor (h1 / 360))%Z. unfold py_mod, Z.sub.
    rewrite inject_Z_plus, inject_Z_opp.
    assert (Hh1 : (Qabs (h1 - heading a) <= 3 * dt)%Q).
    { subst h1. Qltb_cases; Qabs_lra. }
    clearbody h1. norm_aircraft. Qabs_lra.
  - destruct (_normalize_heading_difference_turns
                (target_heading a - heading a)) as [kn Hkn].
    apply Qltb_false in Heqb0.
    exists (k0 - Qfloor (target_heading a / 360) - kn)%Z. unfold py_mod, Z.sub.
    rewrite !inject_Z_plus, !inject_Z_opp. norm_aircraft.
    Qabs_lra.
Qed.

Lemma _add_realistic_variations_turns h0 b (s : Aircraft * World) :
  turned_within h0 b (fst s) ->
  wp _add_realistic_variations
     (fun _ s' => turned_within h0 (b + (1 # 2)) (fst s')) s.
Proof.
  intros [k0 Hk0]. destruct s as [a w]. cbn [fst] in *.
  unfold _add_realistic_variations. wp_go.
  unfold drawn. cbn [fst snd]. norm_aircraft.
  set (h1 := (heading a + _)%Q).
  exists (k0 - Qfloor (h1 / 360))%Z. unfold py_mod, Z.sub.
  rewrite inject_Z_plus, inject_Z_opp.
  assert (Hh1 : (Qabs (h1 - heading a) <= 1 # 2)%Q) by (subst h1; Qabs_lra).
  clearbody h1. norm_aircraft. Qabs_lra.
Qed.

(** X5.  One [update_position] call turns the aircraft by no more than 3
    degrees for each second of the time step, plus the half degree of the
    random variation: the new heading is within [3 * dt + 0.5] degrees of
    the old one, whole turns apart.  This holds whatever the bearing to the
    waypoint is, and also when the call raises. *)
Theorem update_position_turn_rate (dt : Q) (s : Aircraft * World) :
  (0 <= dt)%Q ->
  turned_within (heading (fst s)) (3 * dt + (1 # 2))
                (fst (snd (update_position dt s))).
Proof.
  intros Hdt. set (h0 := heading (fst s)).
  assert (H0 : turned_within h0 0 (fst s)).
  { exists 0%Z. subst h0. change (inject_Z 0) with 0%Q. Qabs_lra. }
  assert (Hwp : wp (update_position dt)
                   (fun _ s' => turned_within h0 (3 * dt + (1 # 2)) (fst s')) s);
    [|exact Hwp].
  assert (Hweak : forall b a, (b <= 3 * dt + (1 # 2))%Q -> turned_within h0 b a ->
                              turned_within h0 (3 * dt + (1 # 2)) a)
    by (intros b a Hb; apply turned_within_weaken, Hb).
  unfold update_position. apply wp_bind, wp_gets.
  destruct (waypoints (fst s)) as [|wp0 plan]; [apply wp_ret, (Hweak 0%Q); [lra|exact H0]|].
  apply wp_bind. eapply wp_mono.
  { apply (track_waypoint_keeps (turned_within h0 0)); [| | |exact H0];
      intros v a Ha; exact Ha. }
  intros [[]|e] s1 H1; [|apply (Hweak 0%Q); [lra|exact H1]].
  apply wp_bind. eapply wp_mono; [apply slew_heading_turns; [exact Hdt|exact H1]|].
  intros [[]|e] s2 H2; [|apply (Hweak (0 + 3 * dt)%Q); [lra|exact H2]].
  apply wp_bind. eapply wp_mono.
  { apply (_update_speed_keeps (turned_within h0 (0 + 3 * dt))); [|exact H2].
    intros v a Ha; exact Ha. }
  intros [[]|e] s3 H3; [|apply (Hweak (0 + 3 * dt)%Q); [lra|exact H3]].
  apply wp_bind. eapply wp_mono.
  { apply (_update_altitude_keeps (turned_within h0 (0 + 3 * dt))); [|exact H3].
    intros v a Ha; exact Ha. }
  intros [[]|e] s4 H4; [|apply (Hweak (0 + 3 * dt)%Q); [lra|exact H4]].
  apply wp_bind. eapply wp_mono.
  { apply (translate_keeps (turned_within h0 (0 + 3 * dt))); [| |exact H4];
      intros v a Ha; exact Ha. }
  intros [[]|e] s5 H5; [|apply (Hweak (0 + 3 * dt)%Q); [lra|exact H5]].
  eapply wp_mono; [apply _add_realistic_variations_turns, H5|].
  intros r s6 H6. apply (Hweak (0 + 3 * dt + (1 # 2))%Q); [lra|exact H6].
Qed.

(** ** What [update_position] leaves alone *)

(** X6.  [update_position] never assigns the identity of the aircraft (ICAO
    address, type, callsign), its speed limits and climb rate, its target
    altitude and target speed, its emergency and conflict flags, its squawk
    or its [last_update] stamp, and it writes nothing to the log, whether it
    returns or raises.  On an aircraft with an empty flight plan it returns
    at once: nothing at all changes, and no random number is drawn. *)
Theorem update_position_frame (dt : Q) (s : Aircraft * World) :
  same_identity (fst s) (fst (snd (update_position dt s))) /\
  out (snd (snd (update_position dt s))) = out (snd s) /\
  (waypoints (fst s) = [] -> update_position dt s = (Ok tt, s)).
Proof.
  split; [|split].
  - apply (update_position_same_identity (fst s) dt s), same_identity_refl.
  - destruct (update_position_emits (fun _ => False) dt s) as (evs & Hevs & Hok).
    destruct evs as [|e evs]; [rewrite app_nil_r in Hevs; exact Hevs|].
    inversion Hok; contradiction.
  - intros Hplan. unfold update_position, bind, gets. cbn [fst snd].
    rewrite Hplan. reflexivity.
Qed.

(** ** Emergencies *)

(** The squawk [trigger_emergency] assigns: the code of the three kinds it
    knows, and 7700 for any other string. *)
Definition emergency_squawk (emergency_type : string) : string :=
  if String.eqb emergency_type "hijack" then "7500"
  else if String.eqb emergency_type "communication" then "7600"
  else "7700".

Lemma emergency_squawks_get emergency_type :
  default "7700" (emergency_squawks !! emergency_type) = emergency_squawk emergency_type.
Proof.
  unfold emergency_squawks, emergency_squawk.
  destruct (String.eqb_spec emergency_type "hijack") as [->|H1]; [reflexivity|].
  rewrite lookup_insert_ne by congruence.
  destruct (String.eqb_spec emergency_type "communication") as [->|H2]; [reflexivity|].
  rewrite lookup_insert_ne by congruence.
  destruct (decide (emergency_type = "general")) as [->|H3]; [reflexivity|].
  rewrite lookup_insert_ne by congruence. reflexivity.
Qed.

(** X7.  [trigger_emergency] never raises; it sets the emergency flag and
    the squawk 7500 for "hijack", 7600 for "communication" and 7700 for
    "general" and for every other string, assigns nothing else, and logs one
    warning with the callsign and the kind as given.  [clear_emergency]
    after it leaves the aircraft with the flag off and squawk 1200 and
    everything else as before the two calls; so an aircraft that was not in
    emergency and squawked 1200 is exactly as it was. *)
Theorem clear_emergency_undoes_trigger_emergency
        (emergency_type : string) (s : Aircraft * World) :
  fst (trigger_emergency emergency_type s) = Ok tt /\
  fst (snd (trigger_emergency emergency_type s))
    = with_squawk (emergency_squawk emergency_type)
        (with_emergency_state true (fst s)) /\
  out (snd (snd (trigger_emergency emergency_type s)))
    = out (snd s) ++ [Log WARNING (EmergencyTriggered (callsign (fst s)) emergency_type)] /\
  fst (clear_emergency (snd (trigger_emergency emergency_type s))) = Ok tt /\
  fst (snd (clear_emergency (snd (trigger_emergency emergency_type s))))
    = with_squawk "1200" (with_emergency_state false (fst s)) /\
  (emergency_state (fst s) = false -> squawk (fst s) = "1200" ->
   fst (snd (clear_emergency (snd (trigger_emergency emergency_type s)))) = fst s).
Proof.
  destruct s as [a w].
  unfold trigger_emergency, clear_emergency, bind, modify, gets, logger, emit.
  cbn [fst snd]. rewrite emergency_squawks_get.
  split; [reflexivity|]. split; [destruct a; reflexivity|].
  split; [destruct w; reflexivity|]. split; [reflexivity|].
  split; [destruct a; reflexivity|].
  intros He Hs. destruct a; cbn in *. subst. reflexivity.
Qed.

(** ** The message *)

Lemma py_round6_close x : (Qabs (py_round6 x - x) <= 1 # 2000000)%Q.
Proof.
  unfold py_round6.
  set (y := (x * 1000000)%Q). set (f := Qfloor y).
  pose proof (Qfloor_le y) as Hlo. pose proof (Qlt_floor y) as Hhi.
  fold f in Hlo, Hhi. rewrite inject_Z_plus in Hhi. change (inject_Z 1) with 1%Q in Hhi.
  assert (Hn : forall n : Z, (Qabs (inject_Z n - y) <= 1 # 2)%Q ->
                             (Qabs (inject_Z n / 1000000 - x) <= 1 # 2000000)%Q).
  { intros n H. subst y.
    change (inject_Z n / 1000000)%Q with (inject_Z n * (1 # 1000000))%Q. Qabs_lra. }
  apply Hn. Qltb_cases.
  - Qabs_lra.
  - rewrite inject_Z_plus. change (inject_Z 1) with 1%Q. Qabs_lra.
  - destruct (Z.even f); [|rewrite inject_Z_plus; change (inject_Z 1) with 1%Q];
      Qabs_lra.
Qed.

Lemma py_int_nonneg x : (0 <= x)%Q -> py_int x = Qfloor x.
Proof.
  intros H. destruct x as [n d]. unfold py_int, Qfloor. cbn [Qnum Qden].
  apply Z.quot_div_nonneg; [|reflexivity].
  unfold Qle in H. cbn in H. lia.
Qed.

Lemma py_int_nonpos x : (x <= 0)%Q -> py_int x = (- Qfloor (- x))%Z.
Proof.
  intros H. destruct x as [n d]. unfold py_int, Qfloor, Qopp. cbn [Qnum Qden].
  rewrite <- (Z.quot_div_nonneg (- n) (Zpos d)); [|unfold Qle in H; cbn in H; lia|reflexivity].
  rewrite Z.quot_opp_l by discriminate. lia.
Qed.

(** [int(x)] drops the fraction: it is less than 1 away from [x], on the
    side of zero. *)
Lemma py_int_close x :
  (Qabs (inject_Z (py_int x) - x) < 1)%Q /\
  ((0 <= x)%Q -> (inject_Z (py_int x) <= x)%Q) /\
  ((x <= 0)%Q -> (x <= inject_Z (py_int x))%Q).
Proof.
  destruct (Qlt_le_dec x 0) as [Hneg|Hpos].
  - rewrite (py_int_nonpos x) by lra. rewrite inject_Z_opp.
    pose proof (Qfloor_le (- x)) as Hlo. pose proof (Qlt_floor (- x)) as Hhi.
    rewrite inject_Z_plus in Hhi. change (inject_Z 1) with 1%Q in Hhi.
    repeat split; intros; Qabs_lra.
  - rewrite (py_int_nonneg x) by lra.
    pose proof (Qfloor_le x) as Hlo. pose proof (Qlt_floor x) as Hhi.
    rewrite inject_Z_plus in Hhi. change (inject_Z 1) with 1%Q in Hhi.
    split; [Qabs_lra|]. split; [intros; lra|].
    intros Hx. assert (Hx0 : (x == 0)%Q) by lra.
    rewrite (Qfloor_comp x 0 Hx0). change (inject_Z (Qfloor 0)) with 0%Q. lra.
Qed.

(** X8.  [generate_message] never raises, reads the clock once, writes
    nothing to the log and leaves the aircraft as it is.  The message
    carries the ICAO address, callsign, squawk and type of the aircraft; its
    position is within half a millionth of a degree of the aircraft's; its
    altitude and ground speed are whole numbers less than 1 away from the
    aircraft's, on the side of zero; and its heading is a whole number from
    0 to 359, which for a heading in [0, 360) is the heading without its
    fraction. *)
Theorem generate_message_reports_state (s : Aircraft * World) :
  exists message,
    generate_message s
      = (Ok message, (fst s, with_clock_pos (S (clock_pos (snd s))) (snd s))) /\
    (msg_icao_address message = icao_address (fst s) /\
     msg_callsign message = callsign (fst s) /\
     msg_squawk message = squawk (fst s) /\
     msg_aircraft_type message = aircraft_type (fst s)) /\
    ((Qabs (msg_latitude message - latitude (fst s)) <= 1 # 2000000)%Q /\
     (Qabs (msg_longitude message - longitude (fst s)) <= 1 # 2000000)%Q) /\
    ((Qabs (inject_Z (msg_altitude message) - altitude (fst s)) < 1)%Q /\
     (Qabs (inject_Z (msg_ground_speed message) - ground_speed (fst s)) < 1)%Q /\
     ((0 <= altitude (fst s))%Q ->
      (inject_Z (msg_altitude message) <= altitude (fst s))%Q) /\
     ((0 <= ground_speed (fst s))%Q ->
      (inject_Z (msg_ground_speed message) <= ground_speed (fst s))%Q)) /\
    ((0 <= msg_heading message < 360)%Z /\
     ((0 <= heading (fst s))%Q /\ (heading (fst s) < 360)%Q ->
      (inject_Z (msg_heading message) <= heading (fst s))%Q /\
      (heading (fst s) < inject_Z (msg_heading message) + 1)%Q)).
Proof.
  destruct s as [a w]. eexists. split; [reflexivity|]. cbn [fst snd].
  cbn [msg_icao_address msg_callsign msg_squawk msg_aircraft_type msg_latitude
       msg_longitude msg_altitude msg_ground_speed msg_heading id].
  split; [repeat split|]. split; [split; apply py_round6_close|].
  split.
  - pose proof (py_int_close (altitude a)) as (H1 & H2 & _).
    pose proof (py_int_close (ground_speed a)) as (H3 & H4 & _).
    repeat split; assumption.
  - split; [apply Z.mod_pos_bound; reflexivity|].
    intros [Hlo Hhi]. rewrite (py_int_nonneg _ Hlo).
    pose proof (Qfloor_le (heading a)) as Hf. pose proof (Qlt_floor (heading a)) as Hc.
    rewrite inject_Z_plus in Hc. change (inject_Z 1) with 1%Q in Hc.
    assert (Hz : (0 <= Qfloor (heading a) < 360)%Z).
    { split.
      - change 0%Z with (Qfloor 0). apply Qfloor_resp_le, Hlo.
      - rewrite Zlt_Qlt. change (inject_Z 360) with 360%Q. lra. }
    rewrite Z.mod_small by exact Hz. split; assumption.
Qed.

(** ** The flight plan *)

(** The place of a waypoint. *)
Definition waypoint_point (w : Waypoint) : Point :=
  {| pt_latitude := wp_latitude w; pt_longitude := wp_longitude w |}.

(** Each waypoint of [plan] is a leg of 185 to 555 km from the one before
    it, the first one from [origin]. *)
Fixpoint chained (origin : Point) (plan : list Waypoint) : Prop :=
  match plan with
  | [] => True
  | w :: plan' => leg_from origin w /\ chained (waypoint_point w) plan'
  end.

(** The names [WPT<i+1>], ..., [WPT<i+n>]. *)
Definition waypoint_names (i n : nat) : list string :=
  map (fun k => "WPT" +:+ pretty (k + 1)%nat) (seq i n).

Lemma flight_plan_loop_extends i n current (s : Aircraft * World) :
  wp (flight_plan_loop i n current)
     (fun r s' =>
        r = Ok tt /\
        snd s' = with_rng_pos (rng_pos (snd s) + 2 * n) (snd s) /\
        exists new,
          fst s' = with_waypoints (waypoints (fst s) ++ new) (fst s) /\
          map wp_name new = waypoint_names i n /\
          chained current new) s.
Proof.
  revert i current s. induction n as [|n IH]; intros i current [a w].
  - cbn [flight_plan_loop]. apply wp_ret. split; [reflexivity|]. split.
    + cbn [fst snd]. rewrite Nat.add_0_r. destruct w; reflexivity.
    + exists []. cbn [fst]. rewrite app_nil_r.
      split; [destruct a; reflexivity|]. split; [reflexivity|exact I].
  - cbn [flight_plan_loop]. wp_go. unfold drawn. cbn [fst snd].
    eapply wp_mono; [apply IH|].
    cbn [fst snd]. intros r [a' w'] (-> & Hw & new & Hs' & Hnames & Hchain).
    cbn [fst snd] in *. subst a' w'.
    split; [reflexivity|]. split.
    + destruct w; unfold with_rng_pos; cbn. f_equal. lia.
    + eexists (_ :: new). split; [|split].
      * norm_aircraft. rewrite <- app_assoc. destruct a; reflexivity.
      * cbn. rewrite Hnames. reflexivity.
      * cbn [chained]. split.
        -- eexists _, _. cbn. repeat split; try reflexivity; lra.
        -- unfold waypoint_point. cbn [wp_latitude wp_longitude].
           destruct (geodesic_destination env _ _ _). exact Hchain.
Qed.

(** X9.  On an aircraft, [_generate_flight_plan] never raises and adds 3 to
    5 waypoints at the end of the plan the aircraft already has: it clears
    nothing.  The new waypoints are named WPT1, WPT2, ... in order; the
    first is a leg of 185 to 555 km from the aircraft's position and each
    next one a leg of 185 to 555 km from the one before.  Nothing else of
    the aircraft changes, and the call draws one random number for the count
    and two for each waypoint. *)
Theorem _generate_flight_plan_extends_plan (s : Aircraft * World) :
  exists new,
    _generate_flight_plan s
      = (Ok tt, (with_waypoints (waypoints (fst s) ++ new) (fst s),
                 with_rng_pos (rng_pos (snd s) + 1 + 2 * length new) (snd s))) /\
    (3 <= length new <= 5)%nat /\
    map wp_name new = waypoint_names 0 (length new) /\
    chained {| pt_latitude := latitude (fst s); pt_longitude := longitude (fst s) |} new.
Proof.
  assert (Hwp : wp _generate_flight_plan
                   (fun r s' =>
                      exists new,
                        (r, s') = (Ok tt, (with_waypoints (waypoints (fst s) ++ new) (fst s),
                                           with_rng_pos (rng_pos (snd s) + 1 + 2 * length new)
                                                        (snd s))) /\
                        (3 <= length new <= 5)%nat /\
                        map wp_name new = waypoint_names 0 (length new) /\
                        chained {| pt_latitude := latitude (fst s);
                                   pt_longitude := longitude (fst s) |} new) s).
  { unfold _generate_flight_plan.
    apply wp_bind, wp_random_randint; [lia|]. intros z Hz.
    wp_go. cbn [drawn fst snd].
    eapply wp_mono; [apply flight_plan_loop_extends|].
    cbn [fst snd]. intros r [a' w'] (-> & Hw & new & Ha & Hnames & Hchain).
    cbn [fst snd] in *.
    assert (Hlen : length new = Z.to_nat z).
    { rewrite <- (length_map wp_name), Hnames. unfold waypoint_names.
      rewrite length_map, length_seq. reflexivity. }
    exists new. rewrite Hlen. split; [|split; [lia|split; assumption]].
    rewrite Ha, Hw. destruct s as [a w]. destruct w. unfold with_rng_pos. cbn.
    repeat f_equal. lia. }
  unfold wp in Hwp. destruct Hwp as (new & Heq & H). exists new. split; [|exact H].
  rewrite <- Heq. destruct (_generate_flight_plan s). reflexivity.
Qed.

(** ** The flight parameters *)

Lemma flight_plan_loop_bound i n current plan0 (s : Instance * World) :
  i_waypoints (fst s) = Some plan0 ->
  wp (flight_plan_loop i n current)
     (fun r s' =>
        r = Ok tt /\
        exists new, length new = n /\ fst s' = bind_waypoints (plan0 ++ new) (fst s)) s.
Proof.
  revert i current plan0 s. induction n as [|n IH]; intros i current plan0 [o w] Hplan.
  - cbn [flight_plan_loop]. apply wp_ret. split; [reflexivity|].
    exists []. split; [reflexivity|]. cbn [fst] in *. rewrite app_nil_r.
    destruct o; cbn in *. subst. reflexivity.
  - cbn [flight_plan_loop].
    apply wp_bind, wp_random_uniform. intros u1 _ _.
    apply wp_bind, wp_random_uniform. intros u2 _ _.
    apply wp_bind, wp_getattr. unfold drawn. cbn [fst snd attr_waypoints Instance_attrs].
    cbn [fst] in Hplan. rewrite Hplan.
    apply wp_bind, wp_modify. cbn [fst snd setattr_waypoints Instance_attrs].
    eapply wp_mono; [eapply IH; cbn; reflexivity|].
    cbn [fst snd]. intros r s' (-> & new & Hlen & Hs'). split; [reflexivity|].
    eexists (_ :: new). split; [cbn; rewrite Hlen; reflexivity|].
    rewrite Hs', <- app_assoc. destruct o; reflexivity.
Qed.

Lemma _generate_flight_plan_bound lat lon plan0 (s : Instance * World) :
  i_latitude (fst s) = Some lat -> i_longitude (fst s) = Some lon ->
  i_waypoints (fst s) = Some plan0 ->
  wp _generate_flight_plan
     (fun r s' =>
        r = Ok tt /\
        exists new, (3 <= length new <= 5)%nat /\
                    fst s' = bind_waypoints (plan0 ++ new) (fst s)) s.
Proof.
  intros Hlat Hlon Hplan. unfold _generate_flight_plan.
  apply wp_bind, wp_random_randint; [lia|]. intros z Hz.
  apply wp_bind, wp_getattr. unfold drawn. cbn [fst snd attr_latitude Instance_attrs].
  rewrite Hlat.
  apply wp_bind, wp_getattr. cbn [fst snd attr_longitude Instance_attrs]. rewrite Hlon.
  eapply wp_mono; [apply (flight_plan_loop_bound _ _ _ plan0), Hplan|].
  cbn [fst snd]. intros r s' (-> & new & Hlen & Hs'). split; [reflexivity|].
  exists new. split; [lia|exact Hs'].
Qed.

(** The envelope of a category: "jet", and any other string as "prop". *)
Definition in_envelope (category : string) (alt gs : Z) (fastest slowest climb : Q)
  : Prop :=
  if String.eqb category "jet" then
    (25000 <= alt <= 42000)%Z /\ (400 <= gs <= 550)%Z /\
    fastest = 600%Q /\ slowest = 200%Q /\ (1500 <= climb)%Q /\ (climb < 3000)%Q
  else
    (8000 <= alt <= 18000)%Z /\ (150 <= gs <= 220)%Z /\
    fastest = 250%Q /\ slowest = 80%Q /\ (500 <= climb)%Q /\ (climb < 1200)%Q.

(** X10.  On an object whose type and flight plan are bound,
    [_initialize_flight_parameters] returns, and leaves: a latitude in
    [-60, 60) and a longitude in [-180, 180); a whole altitude and ground
    speed, limits and a climb rate in the envelope of the type (jet: 25000
    to 42000 ft, 400 to 550 kt, limits 600 and 200 kt, 1500 to 3000 ft/min;
    any other type: 8000 to 18000 ft, 150 to 220 kt, limits 250 and 80 kt,
    500 to 1200 ft/min); a whole heading from 0 to 359; targets equal to
    the altitude, speed and heading; and 3 to 5 waypoints more than the plan
    had. *)
Theorem _initialize_flight_parameters_envelope
        (category : string) (plan0 : list Waypoint) (s : Instance * World) :
  i_aircraft_type (fst s) = Some category ->
  i_waypoints (fst s) = Some plan0 ->
  fst (_initialize_flight_parameters s) = Ok tt /\
  exists (lat lon : Q) (alt gs hd : Z) (fastest slowest climb : Q) (new : list Waypoint),
    i_latitude (fst (snd (_initialize_flight_parameters s))) = Some lat /\
    i_longitude (fst (snd (_initialize_flight_parameters s))) = Some lon /\
    ((- 60 <= lat)%Q /\ (lat < 60)%Q /\ (- 180 <= lon)%Q /\ (lon < 180)%Q) /\
    i_altitude (fst (snd (_initialize_flight_parameters s))) = Some (inject_Z alt) /\
    i_ground_speed (fst (snd (_initialize_flight_parameters s))) = Some (inject_Z gs) /\
    i_max_speed (fst (snd (_initialize_flight_parameters s))) = Some fastest /\
    i_min_speed (fst (snd (_initialize_flight_parameters s))) = Some slowest /\
    i_climb_rate (fst (snd (_initialize_flight_parameters s))) = Some climb /\
    in_envelope category alt gs fastest slowest climb /\
    i_heading (fst (snd (_initialize_flight_parameters s))) = Some (inject_Z hd) /\
    (0 <= hd <= 359)%Z /\
    i_target_altitude (fst (snd (_initialize_flight_parameters s))) = Some (inject_Z alt) /\
    i_target_speed (fst (snd (_initialize_flight_parameters s))) = Some (inject_Z gs) /\
    i_target_heading (fst (snd (_initialize_flight_parameters s))) = Some (inject_Z hd) /\
    i_waypoints (fst (snd (_initialize_flight_parameters s))) = Some (plan0 ++ new) /\
    (3 <= length new <= 5)%nat.
Proof.
  intros Hty Hplan.
  assert (Hwp : wp _initialize_flight_parameters
                   (fun r s' =>
                      r = Ok tt /\
                      exists (lat lon : Q) (alt gs hd : Z) (fastest slowest climb : Q)
                             (new : list Waypoint),
                        i_latitude (fst s') = Some lat /\
                        i_longitude (fst s') = Some lon /\
                        ((- 60 <= lat)%Q /\ (lat < 60)%Q /\
                         (- 180 <= lon)%Q /\ (lon < 180)%Q) /\
                        i_altitude (fst s') = Some (inject_Z alt) /\
                        i_ground_speed (fst s') = Some (inject_Z gs) /\
                        i_max_speed (fst s') = Some fastest /\
                        i_min_speed (fst s') = Some slowest /\
                        i_climb_rate (fst s') = Some climb /\
                        in_envelope category alt gs fastest slowest climb /\
                        i_heading (fst s') = Some (inject_Z hd) /\
                        (0 <= hd <= 359)%Z /\
                        i_target_altitude (fst s') = Some (inject_Z alt) /\
                        i_target_speed (fst s') = Some (inject_Z gs) /\
                        i_target_heading (fst s') = Some (inject_Z hd) /\
                        i_waypoints (fst s') = Some (plan0 ++ new) /\
                        (3 <= length new <= 5)%nat) s);
    [|exact Hwp].
  destruct s as [o w]. cbn [fst] in Hty, Hplan.
  unfold _initialize_flight_parameters, in_envelope.
  apply wp_bind, wp_random_uniform. intros u1 Hu1 Hu1'.
  apply wp_bind, wp_modify.
  apply wp_bind, wp_random_uniform. intros u2 Hu2 Hu2'.
  apply wp_bind, wp_modify.
  apply wp_bind, wp_getattr. unfold drawn. cbn [fst snd]. 
  assert (Hty' : forall v1 v2, i_aircraft_type (bind_longitude v2 (bind_latitude v1 o))
                               = Some category) by (intros; destruct o; exact Hty).
  rewrite Hty'.
  apply wp_bind.
  destruct (String.eqb category "jet").
  all: apply wp_bind, wp_random_randint; [lia|]; intros alt Halt.
  all: apply wp_bind, wp_modify.
  all: apply wp_bind, wp_random_randint; [lia|]; intros gs Hgs.
  all: apply wp_bind, wp_modify.
  all: apply wp_bind, wp_modify.
  all: apply wp_bind, wp_modify.
  all: apply wp_bind, wp_random_uniform; intros u3 Hu3 Hu3'.
  all: apply wp_modify.
  all: apply wp_bind, wp_random_randint; [lia|]; intros hd Hhd.
  all: apply wp_bind, wp_modify.
  all: apply wp_bind, wp_getattr; unfold drawn; cbn.
  all: apply wp_bind, wp_modify.
  all: apply wp_bind, wp_getattr; cbn.
  all: apply wp_bind, wp_modify.
  all: apply wp_bind, wp_getattr; cbn.
  all: apply wp_bind, wp_modify.
  all: eapply wp_mono;
    [eapply (_generate_flight_plan_bound _ _ plan0); cbn; first [reflexivity|exact Hplan]|].
  all: cbn [fst snd]; intros r s' (-> & new & Hlen & ->); split; [reflexivity|].
  all: eexists _, _, alt, gs, hd, _, _, _, new; cbn.
  all: repeat split; first [reflexivity | lia | lra].
Qed.

(** * More of the simulator *)

(** ** [_trigger_random_emergencies] *)

(** What the sampling can do to an aircraft: nothing, or, when it was not in
    emergency, what [trigger_emergency] does for one of the three kinds. *)
Definition sampled (a0 a : Aircraft) : Prop :=
  a = a0 \/
  (emergency_state a0 = false /\
   exists kind, In kind emergency_types /\
                a = with_squawk (emergency_squawk kind) (with_emergency_state true a0)).

(** The simulator is [sim0] but for its fleet, sampled. *)
Definition fleet_sampled (sim0 sim : ADSBSimulator) : Prop :=
  sim = with_aircraft (aircraft sim) sim0 /\
  Forall2 sampled (aircraft sim0) (aircraft sim).

(** The body of the loop of lines 438-442. *)
Definition sample_emergency (emergency_freq : yaml) (i : nat)
  : M (ADSBSimulator * World) unit :=
  in_emergency <- on_aircraft i (gets emergency_state) ;;
  if in_emergency then ret tt
  else
    u <- random_random ;;
    freq <- lift (as_number emergency_freq) ;;
    if Qltb u freq then
      emergency_type <- random_choice emergency_types ;;
      on_aircraft i (trigger_emergency emergency_type)
    else ret tt.

Lemma with_aircraft_same sim : with_aircraft (aircraft sim) sim = sim.
Proof. destruct sim; reflexivity. Qed.

Lemma fleet_sampled_refl sim : fleet_sampled sim sim.
Proof.
  split; [symmetry; apply with_aircraft_same|].
  apply Forall2_same_length_lookup_2; [reflexivity|].
  intros i a a' Ha Ha'. left. congruence.
Qed.

(** One pass of the loop over an aircraft in range, by the frequency read:
    it returns when the frequency is a number, it changes nothing when the
    frequency is no number or is not positive. *)
Lemma sample_emergency_spec emergency_freq i sim0 (s : ADSBSimulator * World) :
  (i < length (aircraft (fst s)))%nat ->
  fleet_sampled sim0 (fst s) ->
  (forall k a0 a, (i <= k)%nat -> aircraft sim0 !! k = Some a0 ->
                  aircraft (fst s) !! k = Some a -> a = a0) ->
  wp (sample_emergency emergency_freq i)
     (fun r s' =>
        fleet_sampled sim0 (fst s') /\
        (forall k a0 a, (S i <= k)%nat -> aircraft sim0 !! k = Some a0 ->
                        aircraft (fst s') !! k = Some a -> a = a0) /\
        match as_number emergency_freq with
        | Ok q => r = Ok tt /\ ((q <= 0)%Q -> fst s' = fst s)
        | Raise e => fst s' = fst s
        end) s.
Proof.
  intros Hi [Hsim Hfleet] Hrest. destruct s as [sim w]. cbn [fst snd] in *.
  destruct (lookup_lt_is_Some_2 _ _ Hi) as [a Ha].
  unfold sample_emergency.
  apply wp_bind, wp_on_aircraft. cbn [fst snd]. rewrite Ha.
  apply wp_gets. cbn [fst snd]. rewrite (list_insert_id _ _ _ Ha), with_aircraft_same.
  assert (Hstay : forall (q : Q), fleet_sampled sim0 sim /\
            (forall k a0 a, (S i <= k)%nat -> aircraft sim0 !! k = Some a0 ->
                            aircraft sim !! k = Some a -> a = a0)).
  { intros _. split; [split; assumption|]. intros k b0 b Hk. apply Hrest. lia. }
  destruct (emergency_state a) eqn:He.
  { apply wp_ret. cbn [fst snd]. destruct (Hstay 0%Q) as [H1 H2].
    split; [exact H1|]. split; [exact H2|].
    destruct (as_number emergency_freq); auto. }
  apply wp_bind, wp_random_random. intros u Hu _. unfold drawn. cbn [fst snd].
  apply wp_bind, wp_lift.
  destruct (as_number emergency_freq) as [q|e].
  2:{ cbn [fst snd]. destruct (Hstay 0%Q) as [H1 H2]. auto. }
  destruct (Qltb u q) eqn:Hq.
  2:{ apply wp_ret. cbn [fst snd]. destruct (Hstay 0%Q) as [H1 H2]. auto. }
  apply Qltb_true in Hq.
  apply wp_bind, wp_random_choice; [discriminate|]. intros kind Hkind.
  unfold drawn. cbn [fst snd].
  apply wp_on_aircraft. cbn [fst snd]. rewrite Ha.
  unfold trigger_emergency. wp_go. rewrite emergency_squawks_get.
  unfold fleet_sampled. cbn [fst snd aircraft with_aircraft].
  destruct (Forall2_lookup_r _ _ _ _ _ Hfleet Ha) as (a0 & Ha0 & _).
  assert (Haa0 : a = a0) by (apply (Hrest i a0 a); [lia|exact Ha0|exact Ha]).
  subst a0.
  split; [split|split].
  - rewrite Hsim at 2. destruct sim0; reflexivity.
  - apply Forall2_same_length_lookup_2.
    + rewrite length_insert. eapply Forall2_length, Hfleet.
    + intros k b0 b Hb0 Hb. destruct (decide (k = i)) as [->|Hne].
      * rewrite list_lookup_insert_eq in Hb by exact Hi. injection Hb as <-.
        rewrite Ha0 in Hb0. injection Hb0 as <-.
        right. split; [exact He|]. exists kind. split; [exact Hkind|reflexivity].
      * rewrite list_lookup_insert_ne in Hb by congruence.
        eapply Forall2_lookup_lr; eassumption.
  - intros k b0 b Hk Hb0 Hb. rewrite list_lookup_insert_ne in Hb by lia.
    apply (Hrest k); [lia|exact Hb0|exact Hb].
  - split; [reflexivity|]. intros Hq0. lra.
Qed.

Lemma sample_loop_spec emergency_freq sim0 n :
  forall i (s : ADSBSimulator * World),
    (i + n = length (aircraft (fst s)))%nat ->
    fleet_sampled sim0 (fst s) ->
    (forall k a0 a, (i <= k)%nat -> aircraft sim0 !! k = Some a0 ->
                    aircraft (fst s) !! k = Some a -> a = a0) ->
    wp (for_range i n (sample_emergency emergency_freq))
       (fun r s' =>
          fleet_sampled sim0 (fst s') /\
          match as_number emergency_freq with
          | Ok q => r = Ok tt /\ ((q <= 0)%Q -> fst s' = fst s)
          | Raise e => fst s' = fst s
          end) s.
Proof.
  induction n as [|n IH]; intros i s Hlen Hs Hrest; cbn [for_range].
  - apply wp_ret. split; [exact Hs|]. destruct (as_number emergency_freq); auto.
  - apply wp_bind. eapply wp_mono.
    { apply (sample_emergency_spec emergency_freq i sim0 s); [lia|exact Hs|exact Hrest]. }
    intros r s1 (Hs1 & Hrest1 & Hnum).
    assert (Hlen1 : length (aircraft (fst s1)) = length (aircraft (fst s))).
    { destruct Hs as [_ Hf], Hs1 as [_ Hf1].
      rewrite <- (Forall2_length _ _ _ Hf1). apply (Forall2_length _ _ _ Hf). }
    destruct r as [[]|e].
    + eapply wp_mono; [apply (IH (S i) s1); [lia|exact Hs1|exact Hrest1]|].
      cbn beta. intros r' s2 [Hs2 Hnum2]. split; [exact Hs2|].
      destruct (as_number emergency_freq) as [q|e'].
      * destruct Hnum as [_ H1], Hnum2 as [-> H2]. split; [reflexivity|].
        intros Hq. rewrite (H2 Hq). apply H1, Hq.
      * congruence.
    + split; [exact Hs1|]. destruct (as_number emergency_freq) as [q|e'].
      * destruct Hnum as [Hr _]. discriminate Hr.
      * exact Hnum.
Qed.

(** X11.  [_trigger_random_emergencies] changes nothing of the simulator
    but aircraft of the fleet, and each aircraft is afterwards either as it
    was or, if it was not in emergency, in emergency with the squawk of one
    of the kinds "general", "communication" and "hijack" and otherwise as it
    was.  When [simulation.emergency_frequency] cannot be read from the
    configuration the call raises that error; whenever the call raises, the
    simulator is unchanged.  When the frequency is a number the call
    returns, and when that number is zero or less it changes no aircraft. *)
Theorem _trigger_random_emergencies_effect (s : ADSBSimulator * World) :
  fleet_sampled (fst s) (fst (snd (_trigger_random_emergencies s))) /\
  (forall e, config_lookup (config (fst s)) "simulation" "emergency_frequency" = Raise e ->
             _trigger_random_emergencies s = (Raise e, s)) /\
  (forall e, fst (_trigger_random_emergencies s) = Raise e ->
             fst (snd (_trigger_random_emergencies s)) = fst s) /\
  (forall emergency_freq q,
     config_lookup (config (fst s)) "simulation" "emergency_frequency" = Ok emergency_freq ->
     as_number emergency_freq = Ok q ->
     fst (_trigger_random_emergencies s) = Ok tt /\
     ((q <= 0)%Q -> fst (snd (_trigger_random_emergencies s)) = fst s)).
Proof.
  assert (Hwp : wp _trigger_random_emergencies
                   (fun r s' =>
                      fleet_sampled (fst s) (fst s') /\
                      match config_lookup (config (fst s)) "simulation"
                                          "emergency_frequency" with
                      | Raise e => (r, s') = (Raise e, s)
                      | Ok emergency_freq =>
                          match as_number emergency_freq with
                          | Ok q => r = Ok tt /\ ((q <= 0)%Q -> fst s' = fst s)
                          | Raise e => fst s' = fst s
                          end
                      end) s).
  { unfold _trigger_random_emergencies. apply wp_bind, wp_config_get.
    destruct (config_lookup _ _ _) as [emergency_freq|e].
    2:{ split; [apply fleet_sampled_refl|reflexivity]. }
    apply wp_bind, wp_gets.
    change (wp (for_range 0 (length (aircraft (fst s))) (sample_emergency emergency_freq))
               (fun r s' =>
                  fleet_sampled (fst s) (fst s') /\
                  match as_number emergency_freq with
                  | Ok q => r = Ok tt /\ ((q <= 0)%Q -> fst s' = fst s)
                  | Raise e => fst s' = fst s
                  end) s).
    apply sample_loop_spec; [reflexivity|apply fleet_sampled_refl|].
    intros k a0 a _ H0 H1. congruence. }
  unfold wp in Hwp. destruct Hwp as [Hfleet Hcases].
  split; [exact Hfleet|]. split; [|split].
  - intros e He. rewrite He in Hcases. rewrite <- Hcases.
    destruct (_trigger_random_emergencies s). reflexivity.
  - intros e He. destruct (config_lookup _ _ _) as [emergency_freq|e'].
    + destruct (as_number emergency_freq) as [q|e''].
      * destruct Hcases as [Hr _]. congruence.
      * exact Hcases.
    + injection Hcases as _ ->. reflexivity.
  - intros emergency_freq q Hcfg Hnum. rewrite Hcfg, Hnum in Hcases. exact Hcases.
Qed.

(** ** [_setup_kafka] *)

(** Everything [_setup_kafka] needs to keep its producer: both keys of the
    [kafka] section (the topic a string), and a producer, an admin client
    and a topic request that the library builds without raising. *)
Definition kafka_available (cfg : yaml) : Prop :=
  (exists servers, config_lookup cfg "kafka" "bootstrap_servers" = Ok servers) /\
  new_Producer env = None /\
  new_AdminClient env = None /\
  (exists topic, config_lookup cfg "kafka" "topic" = Ok (YStr topic)) /\
  create_topics env = None.

(** X12.  [_setup_kafka] never raises and assigns nothing but the producer.
    The simulator has a producer afterwards exactly when the configuration
    has [kafka.bootstrap_servers] and a string [kafka.topic] and the
    producer, the admin client and the topic request are built without an
    error; if the admin client or the request fails, the producer that was
    already built is dropped.  Whether the topic is then created, exists
    already or fails to be created makes no difference. *)
Theorem _setup_kafka_producer (s : ADSBSimulator * World) :
  fst (_setup_kafka s) = Ok tt /\
  fst (snd (_setup_kafka s))
    = with_kafka_producer (kafka_producer (fst (snd (_setup_kafka s)))) (fst s) /\
  (kafka_producer (fst (snd (_setup_kafka s))) = Some ProducerHandle
   <-> kafka_available (config (fst s))) /\
  (kafka_producer (fst (snd (_setup_kafka s))) = None
   <-> ~ kafka_available (config (fst s))).
Proof.
  assert (Hwp : wp _setup_kafka
                   (fun r s' =>
                      r = Ok tt /\
                      fst s' = with_kafka_producer (kafka_producer (fst s')) (fst s) /\
                      (kafka_producer (fst s') = Some ProducerHandle
                       <-> kafka_available (config (fst s))) /\
                      (kafka_producer (fst s') = None
                       <-> ~ kafka_available (config (fst s)))) s);
    [|exact Hwp].
  destruct s as [sim w]. cbn [fst].
  match goal with |- wp _ ?Q _ => set (post := Q) end.
  assert (Hno : forall w' : World, ~ kafka_available (config sim) ->
                                   post (Ok tt) (with_kafka_producer None sim, w')).
  { intros w' Hn. subst post. cbn [fst]. split; [reflexivity|].
    split; [destruct sim; reflexivity|].
    destruct sim; cbn in *. split; split; intros H; try discriminate; tauto. }
  assert (Hyes : forall w' : World, kafka_available (config sim) ->
                   post (Ok tt) (with_kafka_producer (Some ProducerHandle) sim, w')).
  { intros w' Hy. subst post. cbn [fst]. split; [reflexivity|].
    split; [destruct sim; reflexivity|].
    destruct sim; cbn in *. split; split; intros H; try discriminate; tauto. }
  assert (Hdrop : forall v,
            with_kafka_producer None (with_kafka_producer v sim) = with_kafka_producer None sim)
    by (intros; destruct sim; reflexivity).
  assert (Hcfg : config (with_kafka_producer (Some ProducerHandle) sim) = config sim)
    by (destruct sim; reflexivity).
  clearbody post. unfold _setup_kafka, kafka_available in *.
  apply wp_try_except_Exception, wp_bind, wp_config_get. cbn [fst snd].
  destruct (config_lookup (config sim) "kafka" "bootstrap_servers") as [servers|e] eqn:Hs.
  2:{ rewrite (config_lookup_raises_Exception _ _ _ _ Hs). unfold logger. wp_go.
      apply Hno. intros ([x Hx] & _). discriminate. }
  apply wp_bind. destruct (new_Producer env) as [f|] eqn:Hp.
  { apply wp_raise. rewrite library_exn_is_Exception. unfold logger. wp_go.
    apply Hno. intros (_ & H & _). discriminate. }
  apply wp_ret. apply wp_bind, wp_modify. apply wp_bind, wp_config_get.
  cbn [fst snd]. rewrite Hcfg, Hs.
  apply wp_bind. destruct (new_AdminClient env) as [f|] eqn:Ha.
  { apply wp_raise. rewrite library_exn_is_Exception. unfold logger. wp_go.
    rewrite Hdrop. apply Hno. intros (_ & _ & H & _). discriminate. }
  apply wp_ret. apply wp_bind, wp_config_get. cbn [fst snd]. rewrite Hcfg.
  destruct (config_lookup (config sim) "kafka" "topic") as [topic|e] eqn:Ht.
  2:{ rewrite (config_lookup_raises_Exception _ _ _ _ Ht). unfold logger. wp_go.
      rewrite Hdrop. apply Hno. intros (_ & _ & _ & [x Hx] & _). discriminate. }
  apply wp_bind.
  assert (Hstr : (exists t, topic = YStr t) \/ forall t, topic <> YStr t).
  { destruct topic; try (right; intros t; discriminate). left. eauto. }
  destruct Hstr as [[t ->]|Hnot].
  2:{ assert (Hraise : @as_str ADSBSimulator topic = raise TypeError).
      { destruct topic; try reflexivity. exfalso. eapply Hnot. reflexivity. }
      rewrite Hraise. apply wp_raise. cbn [is_Exception]. unfold logger. wp_go.
      rewrite Hdrop. apply Hno. intros (_ & _ & _ & [x Hx] & _).
      injection Hx as ->. eapply Hnot. reflexivity. }
  cbn [as_str]. apply wp_ret.
  apply wp_bind. destruct (create_topics env) as [f|] eqn:Hc.
  { apply wp_raise. rewrite library_exn_is_Exception. unfold logger. wp_go.
    rewrite Hdrop. apply Hno. intros (_ & _ & _ & _ & H). discriminate. }
  apply wp_ret. apply wp_bind.
  assert (Hall : (exists servers0, Ok servers = Ok servers0) /\
                 @None LibraryError = None /\ @None LibraryError = None /\
                 (exists topic, Ok (YStr t) = Ok (YStr topic)) /\
                 @None LibraryError = None) by eauto 10.
  apply wp_try_except_Exception, wp_bind.
  destruct (topic_future env) as [f|].
  - apply wp_raise. rewrite library_exn_is_Exception.
    destruct (mentions_already_exists _); unfold logger; wp_go; apply Hyes, Hall.
  - apply wp_ret. unfold logger. wp_go. apply Hyes, Hall.
Qed.

(** ** What a computation can raise *)

(** [m] raises nothing but exceptions that satisfy [ok]. *)
Definition raises_only {X A} (ok : exn -> Prop) (m : M (X * World) A) : Prop :=
  forall s, wp m (fun r _ => match r with Ok _ => True | Raise e => ok e end) s.

(** [ok] holds of everything that [except Exception] catches. *)
Definition covers_Exception (ok : exn -> Prop) : Prop :=
  forall e, is_Exception e = true -> ok e.

Lemma raises_only_returns {X A} ok (m : M (X * World) A) :
  returns m -> raises_only ok m.
Proof. intros Hm s. eapply wp_mono; [apply Hm|]. intros r s' [a ->]. exact I. Qed.

Lemma raises_only_bind {X A B} ok (m : M (X * World) A) (k : A -> M (X * World) B) :
  raises_only ok m -> (forall a, raises_only ok (k a)) -> raises_only ok (bind m k).
Proof.
  intros Hm Hk s. apply wp_bind. eapply wp_mono; [apply Hm|].
  intros [a|e] s' H; [apply Hk | exact H].
Qed.

Lemma raises_only_raise {X A} (ok : exn -> Prop) e :
  ok e -> raises_only ok (@raise (X * World) A e).
Proof. intros H s. exact H. Qed.

Lemma raises_only_lift {X A} (ok : exn -> Prop) (r : result A) :
  (forall e, r = Raise e -> ok e) -> raises_only ok (@lift (X * World) A r).
Proof. intros H s. unfold wp, lift. cbn. destruct r; auto. Qed.

Lemma raises_only_if {X A} ok (c : bool) (m1 m2 : M (X * World) A) :
  raises_only ok m1 -> raises_only ok m2 -> raises_only ok (if c then m1 else m2).
Proof. destruct c; auto. Qed.

Lemma raises_only_for_range {X} ok n :
  forall i (body : nat -> M (X * World) unit),
    (forall k, raises_only ok (body k)) -> raises_only ok (for_range i n body).
Proof.
  induction n as [|n IH]; intros i body Hbody; cbn [for_range].
  - apply raises_only_returns, returns_ret.
  - apply raises_only_bind; [apply Hbody|]. intros _. apply IH, Hbody.
Qed.

Lemma raises_only_for_each {X B} ok (l : list B) (body : B -> M (X * World) unit) :
  (forall x, raises_only ok (body x)) -> raises_only ok (for_each l body).
Proof.
  intros Hbody. induction l as [|x l IH]; cbn [for_each].
  - apply raises_only_returns, returns_ret.
  - apply raises_only_bind; [apply Hbody|]. intros _. exact IH.
Qed.

Lemma raises_only_try_except_Exception {X A} ok (body : M (X * World) A) handler :
  raises_only ok body -> (forall e, raises_only ok (handler e)) ->
  raises_only ok (try_except_Exception body handler).
Proof.
  intros Hb Hh s. apply wp_try_except_Exception.
  eapply wp_mono; [apply Hb|]. intros [a|e] s' H; [exact I|].
  destruct (is_Exception e); [apply Hh | exact H].
Qed.

Lemma raises_only_on_aircraft {A} (ok : exn -> Prop) i (m : M (Aircraft * World) A) :
  covers_Exception ok -> raises_only ok m -> raises_only ok (on_aircraft i m).
Proof.
  intros Hok Hm s. apply wp_on_aircraft.
  destruct (aircraft (fst s) !! i) as [a|]; [|apply Hok; reflexivity].
  eapply wp_mono; [apply Hm|]. auto.
Qed.

Lemma raises_only_tame {X A} ok (m : M (X * World) A) :
  covers_Exception ok -> tame m -> raises_only ok m.
Proof.
  intros Hok Hm s. eapply wp_mono; [apply Hm|]. intros [a|e] s' H; [exact I|].
  apply Hok, H.
Qed.

Lemma raises_only_getattr {X A} ok name (proj : X -> option A) :
  covers_Exception ok -> raises_only ok (getattr name proj).
Proof.
  intros Hok s. apply wp_getattr. destruct (proj (fst s)); [exact I|].
  apply Hok. reflexivity.
Qed.

Lemma raises_only_random_randint {X} ok a b :
  covers_Exception ok -> raises_only ok (@random_randint X a b).
Proof.
  intros Hok s. unfold random_randint. destruct (b <? a)%Z.
  - apply Hok. reflexivity.
  - apply wp_bind. unfold wp. cbn. exact I.
Qed.

Lemma raises_only_random_choice {X A} ok (seq : list A) :
  covers_Exception ok -> raises_only ok (@random_choice X A seq).
Proof.
  intros Hok s. destruct seq as [|x seq]; [apply Hok; reflexivity|].
  apply wp_random_choice; [discriminate|]. intros y _. exact I.
Qed.

Lemma as_number_raises v e : as_number v = Raise e -> is_Exception e = true.
Proof. destruct v; intros [= <-]; reflexivity. Qed.

Lemma as_range_bound_raises v e : as_range_bound v = Raise e -> is_Exception e = true.
Proof. destruct v; intros [= <-]; reflexivity. Qed.

Lemma int_of_product_raises n v e : int_of_product n v = Raise e -> is_Exception e = true.
Proof.
  unfold int_of_product. destruct v; try (intros [= <-]; reflexivity); cbn; discriminate.
Qed.

Lemma py_index_raises {A} (l : list A) i e :
  py_index l i = Raise e -> is_Exception e = true.
Proof.
  unfold py_index. destruct (_ <? 0)%Z; [intros [= <-]; reflexivity|].
  destruct (_ !! _); [discriminate|]. intros [= <-]. reflexivity.
Qed.

(** Step through a computation whose leaves raise nothing but [Exception]s;
    [Hok] is the proof of [covers_Exception ok]. *)
Ltac raises_go Hok :=
  repeat match goal with
    | |- raises_only _ (bind _ _) => apply raises_only_bind; [|intros ?]
    | |- raises_only _ (if _ then _ else _) => apply raises_only_if
    | |- raises_only _ (let _ := _ in _) => cbv zeta
    | |- raises_only _ (on_aircraft _ _) => apply raises_only_on_aircraft; [exact Hok|]
    | |- raises_only _ (for_range _ _ _) => apply raises_only_for_range; intros ?
    | |- raises_only _ (for_each _ _) => apply raises_only_for_each; intros ?
    | |- raises_only _ (try_except_Exception _ _) =>
        apply raises_only_try_except_Exception; [|intros ?]
    | |- raises_only _ (raise _) => apply raises_only_raise, Hok; reflexivity
    | |- raises_only _ (lift (as_number _)) =>
        apply raises_only_lift; intros ? ?; eapply Hok, as_number_raises; eassumption
    | |- raises_only _ (lift (as_range_bound _)) =>
        apply raises_only_lift; intros ? ?; eapply Hok, as_range_bound_raises; eassumption
    | |- raises_only _ (lift (int_of_product _ _)) =>
        apply raises_only_lift; intros ? ?; eapply Hok, int_of_product_raises; eassumption
    | |- raises_only _ (lift (py_index _ _)) =>
        apply raises_only_lift; intros ? ?; eapply Hok, py_index_raises; eassumption
    | |- raises_only _ (getattr _ _) => apply raises_only_getattr, Hok
    | |- raises_only _ (random_randint _ _) => apply raises_only_random_randint, Hok
    | |- raises_only _ (random_choice _) => apply raises_only_random_choice, Hok
    | |- raises_only _ (config_get _ _) =>
        apply raises_only_tame; [exact Hok|apply tame_config_get]
    | |- raises_only _ _ => apply raises_only_returns; solve [auto with returns]
    end.

Section RaisesException.
Variable ok : exn -> Prop.
Hypothesis Hok : covers_Exception ok.

Lemma flight_plan_loop_raises {X} `{SelfAttrs X} i n current :
  raises_only ok (flight_plan_loop (X := X) i n current).
Proof.
  revert i current. induction n as [|n IH]; intros i current; cbn [flight_plan_loop].
  - raises_go Hok.
  - raises_go Hok. apply IH.
Qed.

Lemma update_position_raises dt : raises_only ok (update_position dt).
Proof.
  unfold update_position. apply raises_only_bind; [raises_go Hok|].
  intros [|wp0 plan]; [raises_go Hok|].
  unfold track_waypoint, slew_heading, _update_speed, _update_altitude, translate,
    _add_realistic_variations, _generate_flight_plan.
  raises_go Hok. apply flight_plan_loop_raises.
Qed.

Lemma _publish_message_returns message : returns (_publish_message message).
Proof.
  intros s. unfold wp. rewrite (proj1 (_publish_message_outcome message s)).
  eexists. reflexivity.
Qed.

Lemma generate_message_returns : returns generate_message.
Proof. unfold generate_message. returns_go. Qed.

Lemma maybe_publish_raises i : raises_only ok (maybe_publish i).
Proof.
  unfold maybe_publish. raises_go Hok.
  - apply raises_only_returns, generate_message_returns.
  - apply raises_only_returns, _publish_message_returns.
Qed.

Lemma _check_separation_conflicts_raises : raises_only ok _check_separation_conflicts.
Proof. unfold _check_separation_conflicts, set_conflict_state. raises_go Hok. Qed.

Lemma _trigger_random_emergencies_raises : raises_only ok _trigger_random_emergencies.
Proof. unfold _trigger_random_emergencies, trigger_emergency. raises_go Hok. Qed.

Lemma new_Aircraft_raises {X} icao category : raises_only ok (@new_Aircraft X icao category).
Proof.
  intros s. unfold wp, new_Aircraft.
  pose proof (Aircraft__init___raises icao category (snd s)) as H. unfold wp in H.
  destruct (Aircraft__init__ icao category (empty_instance, snd s)) as [r [o w]].
  cbn in H. subst r. cbn. apply Hok. reflexivity.
Qed.

Lemma _generate_aircraft_fleet_raises : raises_only ok _generate_aircraft_fleet.
Proof. unfold _generate_aircraft_fleet. raises_go Hok. apply new_Aircraft_raises. Qed.

End RaisesException.

(** What [except Exception] catches, and the exit of the signal handler. *)
Definition mild (e : exn) : Prop := is_Exception e = true \/ e = SystemExit 0.

Lemma mild_Exception : covers_Exception mild.
Proof. intros e H. left. exact H. Qed.

Lemma _log_statistics_returns : returns _log_statistics.
Proof. unfold _log_statistics. returns_go. Qed.

Lemma _signal_handler_exits signum (s : ADSBSimulator * World) :
  fst (_signal_handler signum s) = Raise (SystemExit 0).
Proof.
  assert (Hwp : wp (_signal_handler signum) (fun r _ => r = Raise (SystemExit 0)) s);
    [|exact Hwp].
  unfold _signal_handler. apply wp_bind, wp_emit. apply wp_bind.
  eapply wp_mono; [apply stop_returns|]. intros r s' [[] ->]. reflexivity.
Qed.

Lemma time_sleep_mild seconds : raises_only mild (time_sleep seconds).
Proof.
  unfold time_sleep. apply raises_only_bind; [raises_go mild_Exception|]. intros _ [sim w].
  unfold wp. cbn [fst snd].
  destruct (signal_during_sleep env (sleep_pos w)) as [signum|]; [|exact I].
  rewrite _signal_handler_exits. right. reflexivity.
Qed.

Lemma tick_mild t : raises_only mild (tick t).
Proof.
  unfold tick, producer_poll.
  apply raises_only_bind; [raises_go mild_Exception|]. intros current_time. cbv zeta.
  apply raises_only_bind; [raises_go mild_Exception|]. intros fleet.
  apply raises_only_bind.
  { apply raises_only_for_range. intros i.
    apply raises_only_bind; [raises_go mild_Exception|]. intros _.
    apply raises_only_bind; [|intros _; apply maybe_publish_raises, mild_Exception].
    apply raises_only_on_aircraft; [apply mild_Exception|].
    apply update_position_raises, mild_Exception. }
  intros _. apply raises_only_bind; [raises_go mild_Exception|]. intros _.
  apply raises_only_bind;
    [apply _check_separation_conflicts_raises, mild_Exception|]. intros _.
  apply raises_only_bind; [raises_go mild_Exception|]. intros _.
  apply raises_only_bind;
    [apply _trigger_random_emergencies_raises, mild_Exception|]. intros _.
  apply raises_only_bind; [raises_go mild_Exception|]. intros producer.
  apply raises_only_bind.
  { destruct producer; [|raises_go mild_Exception].
    apply raises_only_bind; [raises_go mild_Exception|]. intros _.
    apply raises_only_bind; [raises_go mild_Exception|]. intros _.
    apply raises_only_returns, serve_callbacks_returns. }
  intros _. apply raises_only_bind; [raises_go mild_Exception|]. intros _.
  apply raises_only_bind; [apply raises_only_returns, _log_statistics_returns|]. intros _.
  apply raises_only_bind; [apply time_sleep_mild|]. intros _. raises_go mild_Exception.
Qed.

Lemma while_running_mild fuel : forall t, raises_only mild (while_running fuel t).
Proof.
  induction fuel as [|fuel IH]; intros t; cbn [while_running].
  - raises_go mild_Exception.
  - apply raises_only_bind; [raises_go mild_Exception|]. intros r.
    destruct r; [|raises_go mild_Exception].
    apply raises_only_bind; [apply tick_mild|]. intros t'. apply IH.
Qed.

(** ** [stop], and how a run ends *)

Lemma wp_conj {St A} (m : M St A) (Q1 Q2 : result A -> St -> Prop) s :
  wp m Q1 s -> wp m Q2 s -> wp m (fun r s' => Q1 r s' /\ Q2 r s') s.
Proof. unfold wp. auto. Qed.

(** The line [_delivery_callback] logs for a delivery that failed. *)
Definition delivery_failure (e : Event) : Prop :=
  exists err, e = Log ERROR (DeliveryFailed err).

(** The number of [flush] calls among the events [evs]. *)
Definition flush_calls (evs : list Event) : nat :=
  length (List.filter (fun e => match e with Flush _ => true | _ => false end) evs).

Lemma flush_calls_failures evs : Forall delivery_failure evs -> flush_calls evs = 0%nat.
Proof.
  induction 1 as [|e evs (err & ->) _ IH]; [reflexivity|exact IH].
Qed.

Lemma serve_callbacks_failures : emits_only delivery_failure serve_callbacks.
Proof.
  intros [sim w]. unfold serve_callbacks.
  assert (H : emits_only (X := ADSBSimulator) delivery_failure
                (for_each (delivery_reports env (poll_pos w)) _delivery_callback)).
  { apply emits_for_each. intros [msg|]; cbn [_delivery_callback].
    - apply emits_emit. exists msg. reflexivity.
    - apply emits_ret. }
  apply (H (sim, with_poll_pos (S (poll_pos w)) w)).
Qed.

Lemma serve_callbacks_spec (s : ADSBSimulator * World) :
  wp serve_callbacks
     (fun r s' => r = Ok tt /\ fst s' = fst s /\
                  exists evs, out (snd s') = out (snd s) ++ evs /\
                              Forall delivery_failure evs) s.
Proof.
  apply wp_conj; [|apply wp_conj].
  - eapply wp_mono; [apply serve_callbacks_returns|]. intros r s' [[] ->]. reflexivity.
  - apply (keeps_serve_callbacks (fun sim => sim = fst s)). reflexivity.
  - apply serve_callbacks_failures.
Qed.

(** X13.  [stop] never raises and assigns nothing but [running], which it
    sets to [False].  With a producer it logs that it flushes, asks for
    exactly one flush, with a timeout of 10 seconds, and then writes nothing
    but an error line for each delivery reported as failed meanwhile;
    without a producer it does none of this.  In both cases its last line, and
    without a producer its only one, is the final statistics, with the
    count of messages sent. *)
Theorem stop_halts_and_flushes (s : ADSBSimulator * World) :
  fst (stop s) = Ok tt /\
  fst (snd (stop s)) = with_running false (fst s) /\
  exists flushing uptime,
    out (snd (snd (stop s)))
      = out (snd s) ++ flushing
          ++ [Log INFO (SimulationStopped uptime (messages_sent (fst s)))] /\
    match kafka_producer (fst s) with
    | Some _ =>
        (exists reports,
           flushing = Log INFO FlushingRemaining :: Flush 10 :: reports /\
           Forall delivery_failure reports) /\
        flush_calls flushing = 1%nat
    | None => flushing = []
    end.
Proof.
  assert (Hwp : wp stop
                   (fun r s' =>
                      r = Ok tt /\
                      fst s' = with_running false (fst s) /\
                      exists flushing uptime,
                        out (snd s')
                          = out (snd s) ++ flushing
                              ++ [Log INFO (SimulationStopped uptime (messages_sent (fst s)))] /\
                        match kafka_producer (fst s) with
                        | Some _ =>
                            (exists reports,
                               flushing = Log INFO FlushingRemaining :: Flush 10 :: reports /\
                               Forall delivery_failure reports) /\
                            flush_calls flushing = 1%nat
                        | None => flushing = []
                        end) s);
    [|exact Hwp].
  destruct s as [sim w]. unfold stop, producer_flush.
  apply wp_bind, wp_modify. apply wp_bind, wp_gets. cbn [fst snd].
  assert (Hp : kafka_producer (with_running false sim) = kafka_producer sim)
    by (destruct sim; reflexivity).
  assert (Hm : messages_sent (with_running false sim) = messages_sent sim)
    by (destruct sim; reflexivity).
  rewrite Hp. destruct (kafka_producer sim) as [p|] eqn:Hprod.
  - apply wp_bind, wp_bind, wp_emit. apply wp_bind, wp_emit. cbn [fst snd].
    eapply wp_mono; [apply serve_callbacks_spec|].
    cbn [fst snd out with_out]. intros r [sim' w'] (-> & Hsim & evs & Hout & Hevs).
    cbn [fst snd] in *. subst sim'. wp_go. rewrite Hm.
    split; [reflexivity|]. split; [reflexivity|].
    exists (Log INFO FlushingRemaining :: Flush 10 :: evs),
           (t - start_time (with_running false sim))%Q.
    split; [|split].
    + destruct w'; cbn in *. rewrite Hout. rewrite <- !app_assoc. reflexivity.
    + exists evs. split; [reflexivity|exact Hevs].
    + unfold flush_calls. cbn [List.filter length]. f_equal.
      apply flush_calls_failures, Hevs.
  - apply wp_bind, wp_ret. wp_go. rewrite Hm.
    split; [reflexivity|]. split; [reflexivity|].
    exists [], (t - start_time (with_running false sim))%Q.
    split; [|reflexivity]. destruct w; reflexivity.
Qed.

Lemma stop_stops (s : ADSBSimulator * World) :
  wp stop (fun r s' => r = Ok tt /\ running (fst s') = false) s.
Proof.
  apply wp_conj.
  - eapply wp_mono; [apply stop_returns|]. intros r s' [[] ->]. reflexivity.
  - unfold stop. apply wp_bind, wp_modify.
    assert (H : keeps (fun sim => running sim = false)
                  (producer <- gets kafka_producer ;;
                   match producer with
                   | Some _ => logger INFO FlushingRemaining ;; producer_flush 10
                   | None => ret tt
                   end ;;
                   now <- time_time ;;
                   start <- gets start_time ;;
                   let uptime := (now - start)%Q in
                   sent <- gets messages_sent ;;
                   logger INFO (SimulationStopped uptime sent))).
    { unfold producer_flush. apply keeps_bind; [auto with keeps|].
      intros [p|]; keeps_go. }
    eapply wp_mono; [apply H; destruct s as [[] w]; reflexivity|]. auto.
Qed.

Lemma run_ends (fuel : nat) (s : ADSBSimulator * World) :
  match fst (run fuel s) with
  | Ok returned =>
      returned = true -> running (fst (snd (run fuel s))) = false
  | Raise e =>
      e = SystemExit 0 /\ running (fst (snd (run fuel s))) = false
  end.
Proof.
  assert (Hwp : wp (run fuel)
                   (fun r s' =>
                      match r with
                      | Ok b => b = true -> running (fst s') = false
                      | Raise e => e = SystemExit 0 /\ running (fst s') = false
                      end) s); [|exact Hwp].
  unfold run. apply wp_bind.
  assert (Hpre : returns run_prelude) by (unfold run_prelude; returns_go).
  eapply wp_mono; [apply Hpre|]. intros r s0 [t ->].
  pose proof (while_running_mild fuel t s0) as Hloop. unfold wp in *.
  destruct (while_running fuel t s0) as [[b|e] s1]; [destruct b|]; cbn [fst snd] in *.
  - unfold try_finally, ret. pose proof (stop_stops s1) as Hs. unfold wp in Hs.
    destruct (stop s1) as [[[]|e] s2]; cbn [fst snd] in *; destruct Hs as [Hr Hrun];
      [auto|discriminate].
  - discriminate.
  - unfold try_finally.
    assert (Hh : match fst (run_handlers e s1) with
                 | Ok b => True
                 | Raise e' => e' = SystemExit 0
                 end).
    { unfold run_handlers. destruct Hloop as [He | ->]; [|reflexivity].
      destruct e; try discriminate He; reflexivity. }
    destruct (run_handlers e s1) as [r s2]. cbn [fst] in Hh.
    pose proof (stop_stops s2) as Hs. unfold wp in Hs.
    destruct (stop s2) as [[[]|e'] s3]; cbn [fst snd] in *; destruct Hs as [Hr Hrun];
      [|discriminate].
    destruct r as [b|e']; [auto|]. split; assumption.
Qed.

(** X14.  However a run goes, [run] either returns or raises
    [SystemExit(0)], which is what the signal handler raises; it raises
    nothing else, whatever a pass of the loop raised.  And once [run] has
    ended, either way, [running] is [False]. *)
Theorem run_ends_stopped (fuel : nat) (s : ADSBSimulator * World) :
  match fst (run fuel s) with
  | Ok returned =>
      returned = true -> running (fst (snd (run fuel s))) = false
  | Raise e =>
      e = SystemExit 0 /\ running (fst (snd (run fuel s))) = false
  end.
Proof. apply run_ends. Qed.

(** ** The exit code *)

Lemma _load_config_returns {X} config_path : returns (@_load_config X config_path).
Proof.
  intros s. unfold wp. destruct (safe_load env config_path) as [f|doc] eqn:Hload.
  - rewrite (_load_config_default _ _ _ Hload). eexists. reflexivity.
  - rewrite (_load_config_loaded _ _ _ Hload). eexists. reflexivity.
Qed.

Lemma new_ADSBSimulator_raises {X} config_path :
  raises_only (fun e => is_Exception e = true) (@new_ADSBSimulator X config_path).
Proof.
  assert (Hok : covers_Exception (fun e => is_Exception e = true)) by (intros e H; exact H).
  unfold new_ADSBSimulator.
  apply raises_only_bind; [apply raises_only_returns, _load_config_returns|]. intros cfg.
  apply raises_only_bind; [raises_go Hok|]. intros t_start.
  apply raises_only_bind; [raises_go Hok|]. intros t_stats.
  cbv zeta. intros s. unfold wp.
  match goal with
  | |- context [(_setup_kafka ;; _generate_aircraft_fleet)%py ?s0] =>
      assert (H : raises_only (fun e => is_Exception e = true)
                    (_setup_kafka ;; _generate_aircraft_fleet)%py);
      [|specialize (H s0); unfold wp in H;
        destruct ((_setup_kafka ;; _generate_aircraft_fleet)%py s0) as [[u|e] [self' w']];
        exact H]
  end.
  apply raises_only_bind; [apply raises_only_returns, _setup_kafka_returns|]. intros _.
  apply _generate_aircraft_fleet_raises, Hok.
Qed.

(** X15.  From the point where [main] has parsed its arguments (its [try]
    statement, lines 587-592): [main] ends with exit code 1 exactly when
    the constructor [ADSBSimulator(config_path)] raised an [Exception].
    When the constructor returned, [main] ends with exit code 0 whatever
    [run] does: [run] swallows an [Exception] of a pass, and the
    [SystemExit(0)] of the signal handler is the only exception it lets
    through. *)
Theorem main_exit_codes (config_path : string) (fuel : nat) (w : World) :
  (fst (main config_path fuel w) = Some (Exit 1)
   <-> exists e, fst (new_ADSBSimulator config_path (tt, w)) = Raise e /\
                 is_Exception e = true) /\
  (forall simulator w1,
     new_ADSBSimulator config_path (tt, w) = (Ok simulator, (tt, w1)) ->
     fst (main config_path fuel w)
     = match fst (run fuel (simulator, w1)) with
       | Ok false => None
       | Ok true => Some (Exit 0)
       | Raise _ => Some (Exit 0)
       end /\
     forall e, fst (run fuel (simulator, w1)) = Raise e -> e = SystemExit 0).
Proof.
  pose proof (new_ADSBSimulator_raises config_path (tt, w)) as Hnew. unfold wp in Hnew.
  assert (H : fst (main config_path fuel w)
              = match new_ADSBSimulator config_path (tt, w) with
                | (Raise _, _) => Some (Exit 1)
                | (Ok simulator, (_, w1)) =>
                    match fst (run fuel (simulator, w1)) with
                    | Ok false => None
                    | _ => Some (Exit 0)
                    end
                end).
  { unfold main, try_except_Exception, bind.
    destruct (new_ADSBSimulator config_path (tt, w)) as [[simulator|e] [u w1]];
      cbn [fst snd] in *.
    - pose proof (run_ends fuel (simulator, w1)) as Hrun.
      destruct (run fuel (simulator, w1)) as [[b|e] [sim' w2]]; cbn [fst snd] in *.
      + destruct b; reflexivity.
      + destruct Hrun as [-> _]. reflexivity.
    - rewrite Hnew. reflexivity. }
  rewrite H. split.
  - destruct (new_ADSBSimulator config_path (tt, w)) as [[simulator|e] [u w1]];
      cbn [fst snd] in *.
    + destruct (fst (run fuel (simulator, w1))) as [[|]|e].
      all: split; [discriminate|]; intros (e' & He & _); discriminate.
    + split; [eauto|reflexivity].
  - intros simulator w1 Hctor. rewrite Hctor. split.
    + destruct (fst (run fuel (simulator, w1))) as [[|]|e]; reflexivity.
    + intros e He. pose proof (run_ends fuel (simulator, w1)) as Hrun.
      rewrite He in Hrun. apply Hrun.
Qed.

(** * Invariants of a run *)

(** ** What no pass assigns *)

(** A relation between an aircraft at the start and later that the three
    methods a pass calls on an aircraft keep. *)
Section FleetRelation.
Variable R : Aircraft -> Aircraft -> Prop.
Hypothesis R_update_position : forall a0 dt, keeps (R a0) (update_position dt).
Hypothesis R_trigger_emergency : forall a0 kind, keeps (R a0) (trigger_emergency kind).
Hypothesis R_set_conflict_state : forall a0 b, keeps (R a0) (set_conflict_state b).

(** The fleet is still the aircraft of [fleet0], each related to itself. *)
Definition fleet_related (fleet0 : list Aircraft) (sim : ADSBSimulator) : Prop :=
  Forall2 R fleet0 (aircraft sim).

Lemma fleet_related_fleet_only fleet0 : fleet_only (fleet_related fleet0).
Proof. intros sim sim' H. unfold fleet_related. rewrite H. exact id. Qed.

Lemma related_on_aircraft {A} fleet0 i (m : M (Aircraft * World) A) :
  (forall a0, keeps (R a0) m) -> keeps (fleet_related fleet0) (on_aircraft i m).
Proof.
  intros Hm [sim w] Hs. apply wp_on_aircraft. cbn [fst snd] in *.
  destruct (aircraft sim !! i) as [a|] eqn:Ha; [|exact Hs].
  destruct (Forall2_lookup_r _ _ _ _ _ Hs Ha) as (a0 & Ha0 & Hr).
  eapply wp_mono; [apply (Hm a0 (a, w)); exact Hr|].
  cbn [fst snd]. intros r [a' w'] Hr'. cbn [fst] in *.
  unfold fleet_related in *. cbn [aircraft with_aircraft].
  apply Forall2_same_length_lookup_2.
  - rewrite length_insert. eapply Forall2_length, Hs.
  - intros k b0 b Hb0 Hb. destruct (decide (k = i)) as [->|Hne].
    + rewrite list_lookup_insert_eq in Hb by (eapply lookup_lt_Some, Ha).
      injection Hb as <-. rewrite Ha0 in Hb0. injection Hb0 as <-. exact Hr'.
    + rewrite list_lookup_insert_ne in Hb by congruence.
      eapply Forall2_lookup_lr; eassumption.
Qed.

Lemma _check_separation_conflicts_related fleet0 :
  keeps (fleet_related fleet0) _check_separation_conflicts.
Proof.
  unfold _check_separation_conflicts. apply keeps_bind; [auto with keeps|].
  intros fleet. cbv zeta. apply keeps_bind; [|intros _; apply keeps_bind].
  - apply keeps_for_range. intros k. apply related_on_aircraft.
    intros a0. apply R_set_conflict_state.
  - apply keeps_for_each. intros p.
    repeat (apply keeps_bind; [|intros ?]); auto with keeps;
      apply related_on_aircraft; intros ?;
      first [apply R_set_conflict_state | apply keeps_gets].
  - intros _. apply keeps_ret.
Qed.

Lemma _trigger_random_emergencies_related fleet0 :
  keeps (fleet_related fleet0) _trigger_random_emergencies.
Proof.
  unfold _trigger_random_emergencies. apply keeps_bind; [auto with keeps|].
  intros emergency_freq. apply keeps_bind; [auto with keeps|]. intros fleet.
  apply keeps_for_range. intros i. keeps_go.
  - apply related_on_aircraft. intros ?. apply keeps_gets.
  - apply related_on_aircraft. intros ?. apply R_trigger_emergency.
Qed.

Lemma maybe_publish_related fleet0 i : keeps (fleet_related fleet0) (maybe_publish i).
Proof.
  unfold maybe_publish. keeps_go.
  - apply related_on_aircraft. intros ?. apply generate_message_keeps.
  - apply _publish_message_keeps, fleet_related_fleet_only.
Qed.

Lemma tick_related fleet0 t : keeps (fleet_related fleet0) (tick t).
Proof.
  unfold tick, producer_poll. apply keeps_bind; [auto with keeps|]. intros current_time.
  cbv zeta. apply keeps_bind; [auto with keeps|]. intros fleet.
  apply keeps_bind.
  { apply keeps_for_range. intros i. keeps_go.
    - apply related_on_aircraft. intros ?. apply R_update_position.
    - apply maybe_publish_related. }
  intros _. apply keeps_bind; [auto with keeps|]. intros _.
  apply keeps_bind; [apply _check_separation_conflicts_related|]. intros _.
  apply keeps_bind; [auto with keeps|]. intros _.
  apply keeps_bind; [apply _trigger_random_emergencies_related|]. intros _.
  apply keeps_bind; [auto with keeps|]. intros producer.
  apply keeps_bind; [destruct producer; keeps_go|]. intros _.
  apply keeps_bind; [auto with keeps|]. intros _.
  apply keeps_bind; [apply _log_statistics_keeps, fleet_related_fleet_only|].
  intros _.
  apply keeps_bind; [apply time_sleep_keeps, fleet_related_fleet_only|].
  intros _. apply keeps_ret.
Qed.

Lemma while_running_related fleet0 fuel :
  forall t, keeps (fleet_related fleet0) (while_running fuel t).
Proof.
  induction fuel as [|fuel IH]; intros t; cbn [while_running]; keeps_go;
    first [apply tick_related | apply IH].
Qed.

Lemma run_related fleet0 fuel : keeps (fleet_related fleet0) (run fuel).
Proof.
  unfold run, run_prelude. apply keeps_bind.
  { apply keeps_bind.
    { apply keeps_modify. intros x. apply fleet_related_fleet_only. reflexivity. }
    intros _. apply keeps_bind; [auto with keeps|]. intros _. auto with keeps. }
  intros t.
  intros s Hs. pose proof (while_running_related fleet0 fuel t s Hs) as H.
  unfold wp in *. destruct (while_running fuel t s) as [[b|e] s']; [destruct b|];
    cbn [fst snd] in *.
  - apply (keeps_try_finally _ (ret true) stop); auto with keeps.
    apply stop_keeps, fleet_related_fleet_only.
  - exact H.
  - apply (keeps_try_finally _ (run_handlers e) stop); auto.
    + unfold run_handlers. destruct e; cbn; keeps_go.
    + apply stop_keeps, fleet_related_fleet_only.
Qed.

End FleetRelation.

(** The attributes of an aircraft that nothing in a run assigns. *)
Definition never_assigned (a0 a : Aircraft) : Prop :=
  icao_address a = icao_address a0 /\ aircraft_type a = aircraft_type a0 /\
  callsign a = callsign a0 /\ max_speed a = max_speed a0 /\
  min_speed a = min_speed a0 /\ climb_rate a = climb_rate a0 /\
  target_altitude a = target_altitude a0 /\ target_speed a = target_speed a0 /\
  last_update a = last_update a0.

Lemma never_assigned_update_position a0 dt :
  keeps (never_assigned a0) (update_position dt).
Proof. apply update_position_keeps; intros v a Ha; exact Ha. Qed.

Lemma never_assigned_trigger_emergency a0 kind :
  keeps (never_assigned a0) (trigger_emergency kind).
Proof. unfold trigger_emergency. keeps_go; assumption. Qed.

Lemma never_assigned_set_conflict_state a0 b :
  keeps (never_assigned a0) (set_conflict_state b).
Proof. unfold set_conflict_state. keeps_go. assumption. Qed.

Lemma never_assigned_refl fleet : Forall2 never_assigned fleet fleet.
Proof.
  apply Forall2_same_length_lookup_2; [reflexivity|].
  intros i a a' Ha Ha'. assert (a' = a) as -> by congruence. repeat split.
Qed.

(** X16.  A run never adds, removes or reorders aircraft, and never assigns
    an aircraft's ICAO address, type, callsign, speed limits, climb rate,
    target altitude, target speed or [last_update] stamp: after one pass of
    the loop, after any number of passes and after the whole of [run], also
    when a pass raises, the fleet is the same aircraft in the same order
    with these attributes as they were.  In particular no aircraft is ever
    given a new altitude or speed to reach. *)
Theorem run_keeps_fleet (fuel : nat) (t : Q) (s : ADSBSimulator * World) :
  Forall2 never_assigned (aircraft (fst s)) (aircraft (fst (snd (tick t s)))) /\
  Forall2 never_assigned (aircraft (fst s))
          (aircraft (fst (snd (while_running fuel t s)))) /\
  Forall2 never_assigned (aircraft (fst s)) (aircraft (fst (snd (run fuel s)))).
Proof.
  split; [|split].
  - apply (tick_related never_assigned never_assigned_update_position
             never_assigned_trigger_emergency never_assigned_set_conflict_state
             _ t s), never_assigned_refl.
  - apply (while_running_related never_assigned never_assigned_update_position
             never_assigned_trigger_emergency never_assigned_set_conflict_state
             _ fuel t s), never_assigned_refl.
  - apply (run_related never_assigned never_assigned_update_position
             never_assigned_trigger_emergency never_assigned_set_conflict_state
             _ fuel s), never_assigned_refl.
Qed.

(** ** The count of messages sent *)

(** The records handed to the producer among the events [evs]. *)
Definition produced (evs : list Event) : nat :=
  length (List.filter (fun e => match e with Produce _ _ _ => true | _ => false end) evs).

Definition not_produce (e : Event) : Prop :=
  match e with
  | Produce _ _ _ => False
  | _ => True
  end.

Lemma produced_app evs1 evs2 : produced (evs1 ++ evs2) = (produced evs1 + produced evs2)%nat.
Proof. unfold produced. rewrite List.filter_app, length_app. reflexivity. Qed.

Lemma produced_none evs : Forall not_produce evs -> produced evs = 0%nat.
Proof.
  induction 1 as [|e evs He _ IH]; [reflexivity|].
  unfold produced in *. cbn. destruct e; try exact IH. destruct He.
Qed.

(** The counter is [c] more than the records handed over so far. *)
Definition sent_counted (c : Z) (s : ADSBSimulator * World) : Prop :=
  messages_sent (fst s) = (c + Z.of_nat (produced (out (snd s))))%Z.

(** [m] keeps the property [I] of the simulator and the world. *)
Definition preserves {X A} (I : X * World -> Prop) (m : M (X * World) A) : Prop :=
  forall s, I s -> wp m (fun _ s' => I s') s.

Lemma preserves_bind {X A B} (I : X * World -> Prop)
      (m : M (X * World) A) (k : A -> M (X * World) B) :
  preserves I m -> (forall a, preserves I (k a)) -> preserves I (bind m k).
Proof.
  intros Hm Hk s Hs. apply wp_bind. eapply wp_mono; [apply Hm, Hs|].
  intros [a|e] s' Hs'; [apply Hk, Hs' | exact Hs'].
Qed.

Lemma preserves_if {X A} (I : X * World -> Prop) (c : bool) (m1 m2 : M (X * World) A) :
  preserves I m1 -> preserves I m2 -> preserves I (if c then m1 else m2).
Proof. destruct c; auto. Qed.

Lemma preserves_for_range {X} (I : X * World -> Prop) n :
  forall i (body : nat -> M (X * World) unit),
    (forall k, preserves I (body k)) -> preserves I (for_range i n body).
Proof.
  induction n as [|n IH]; intros i body Hbody; cbn [for_range].
  - intros s Hs. exact Hs.
  - apply preserves_bind; [apply Hbody|]. intros _. apply IH, Hbody.
Qed.

Lemma preserves_try_finally {X A} (I : X * World -> Prop)
      (body : M (X * World) A) cleanup :
  preserves I body -> preserves I cleanup -> preserves I (try_finally body cleanup).
Proof.
  intros Hb Hc s Hs. pose proof (Hb s Hs) as H1. unfold wp, try_finally in *.
  destruct (body s) as [r s1]. cbn [fst snd] in *.
  pose proof (Hc s1 H1) as H2. unfold wp in H2.
  destruct (cleanup s1) as [[u|e] s2]; exact H2.
Qed.

(** A computation that leaves the counter alone and hands nothing to the
    producer keeps the count. *)
Lemma sent_counted_leaf {A} c (m : M (ADSBSimulator * World) A) :
  (forall n, keeps (fun sim => messages_sent sim = n) m) ->
  emits_only not_produce m ->
  preserves (sent_counted c) m.
Proof.
  intros Hk He s Hs. unfold sent_counted in *.
  apply (wp_mono _ (fun r s' => messages_sent (fst s') = messages_sent (fst s) /\
                                exists evs, out (snd s') = out (snd s) ++ evs /\
                                            Forall not_produce evs)).
  - apply wp_conj; [apply (Hk (messages_sent (fst s)) s); reflexivity | apply He].
  - intros r s' (Hm & evs & Hout & Hevs).
    rewrite Hm, Hout, produced_app, (produced_none _ Hevs), Nat.add_0_r. exact Hs.
Qed.

(** A property of the simulator that depends on [messages_sent] alone. *)
Definition sent_only (P : ADSBSimulator -> Prop) : Prop :=
  forall sim sim', messages_sent sim' = messages_sent sim -> P sim -> P sim'.

Lemma sent_is_sent_only n : sent_only (fun sim => messages_sent sim = n).
Proof. intros sim sim' H. congruence. Qed.

Section SentOnly.
Variable P : ADSBSimulator -> Prop.
Hypothesis HP : sent_only P.

Lemma sent_only_on_aircraft {A} i (m : M (Aircraft * World) A) : keeps P (on_aircraft i m).
Proof.
  intros [sim w] Hs. apply wp_on_aircraft. cbn [fst snd] in *.
  destruct (aircraft sim !! i) as [a|]; [|exact Hs].
  unfold wp. destruct (m (a, w)) as [r [a' w']]. cbn [fst snd].
  revert Hs. apply HP. destruct sim; reflexivity.
Qed.

Lemma sent_only_modify (f : ADSBSimulator -> ADSBSimulator) :
  (forall sim, messages_sent (f sim) = messages_sent sim) -> keeps P (modify f).
Proof. intros Hf. apply keeps_modify. intros sim. apply HP, Hf. Qed.

Lemma sent_only_check_separation_conflicts : keeps P _check_separation_conflicts.
Proof.
  unfold _check_separation_conflicts. apply keeps_bind; [auto with keeps|].
  intros fleet. cbv zeta. apply keeps_bind; [|intros _; apply keeps_bind].
  - apply keeps_for_range. intros k. apply sent_only_on_aircraft.
  - apply keeps_for_each. intros p.
    repeat (apply keeps_bind; [|intros ?]); auto with keeps;
      apply sent_only_on_aircraft.
  - intros _. apply keeps_ret.
Qed.

Lemma sent_only_trigger_random_emergencies : keeps P _trigger_random_emergencies.
Proof.
  unfold _trigger_random_emergencies. apply keeps_bind; [auto with keeps|].
  intros emergency_freq. apply keeps_bind; [auto with keeps|]. intros fleet.
  apply keeps_for_range. intros i. keeps_go; apply sent_only_on_aircraft.
Qed.

Lemma sent_only_log_statistics : keeps P _log_statistics.
Proof.
  unfold _log_statistics. keeps_go. revert H. apply HP. destruct x; reflexivity.
Qed.

Lemma sent_only_stop : keeps P stop.
Proof.
  unfold stop, producer_flush. apply keeps_bind.
  { apply sent_only_modify. intros sim. destruct sim; reflexivity. }
  intros _. apply keeps_bind; [auto with keeps|]. intros [p|]; keeps_go.
Qed.

Lemma sent_only_time_sleep seconds : keeps P (time_sleep seconds).
Proof.
  unfold time_sleep. apply keeps_bind; [auto with keeps|]. intros _.
  intros [sim w] Hs. unfold wp. cbn [fst snd].
  destruct (signal_during_sleep env (sleep_pos w)) as [signum|]; [|exact Hs].
  assert (H : keeps P (_signal_handler signum)).
  { unfold _signal_handler. keeps_go. apply sent_only_stop. }
  apply (H (sim, with_sleep_pos (S (sleep_pos w)) w) Hs).
Qed.

End SentOnly.

Lemma _check_separation_conflicts_no_produce :
  emits_only not_produce _check_separation_conflicts.
Proof. unfold _check_separation_conflicts, set_conflict_state. emits_go; try exact I. Qed.

Lemma _trigger_random_emergencies_no_produce :
  emits_only not_produce _trigger_random_emergencies.
Proof. unfold _trigger_random_emergencies, trigger_emergency. emits_go; try exact I. Qed.

Lemma _log_statistics_no_produce : emits_only not_produce _log_statistics.
Proof. unfold _log_statistics. emits_go; try exact I. Qed.

Lemma producer_poll_no_produce timeout : emits_only not_produce (producer_poll timeout).
Proof.
  unfold producer_poll. emits_go; try exact I.
  apply serve_callbacks_emits. intros; exact I.
Qed.

Lemma stop_no_produce : emits_only not_produce stop.
Proof.
  unfold stop, producer_flush. apply emits_bind; [auto with emits|]. intros _.
  apply emits_bind; [auto with emits|]. intros producer.
  apply emits_bind.
  - destruct producer as [p|]; emits_go; try exact I.
    apply serve_callbacks_emits. intros; exact I.
  - intros _. emits_go; try exact I.
Qed.

Lemma time_sleep_no_produce seconds : emits_only not_produce (time_sleep seconds).
Proof.
  unfold time_sleep. apply emits_bind; [apply emits_emit; exact I|]. intros _.
  intros [sim w]. unfold wp. cbn [fst snd].
  destruct (signal_during_sleep env (sleep_pos w)) as [signum|].
  - assert (H : emits_only not_produce (_signal_handler signum)).
    { unfold _signal_handler. emits_go; try exact I; apply stop_no_produce. }
    apply (H (sim, with_sleep_pos (S (sleep_pos w)) w)).
  - exists []. cbn. rewrite app_nil_r. split; [reflexivity|constructor].
Qed.

(** Publishing moves the counter and the records handed over together. *)
Lemma _publish_message_counted c message :
  preserves (sent_counted c) (_publish_message message).
Proof.
  intros s Hs. unfold wp, sent_counted in *.
  destruct (proj2 (_publish_message_outcome message s))
    as [_ -> | _ _ Hsim [e He] | _ _ Hsim [topic Ht]].
  - exact Hs.
  - rewrite Hsim, He, produced_app. cbn. lia.
  - rewrite Hsim, Ht, produced_app. destruct (fst s); cbn in *. lia.
Qed.

Ltac counted_leaf :=
  apply sent_counted_leaf;
  [intros ?; keeps_go;
   first [apply sent_only_on_aircraft, sent_is_sent_only | assumption | idtac]
  |emits_go; try exact I;
   first [apply update_position_emits | apply generate_message_emits | idtac]].

Lemma maybe_publish_counted c i : preserves (sent_counted c) (maybe_publish i).
Proof.
  unfold maybe_publish.
  repeat (apply preserves_bind; [counted_leaf|intros ?]).
  apply preserves_if; [counted_leaf|].
  apply preserves_if; [|counted_leaf].
  apply preserves_bind; [counted_leaf|]. intros message.
  apply preserves_bind; [counted_leaf|]. intros _.
  apply _publish_message_counted.
Qed.

Lemma tick_counted c t : preserves (sent_counted c) (tick t).
Proof.
  unfold tick.
  apply preserves_bind; [counted_leaf|]. intros current_time. cbv zeta.
  apply preserves_bind; [counted_leaf|]. intros fleet.
  apply preserves_bind.
  { apply preserves_for_range. intros i.
    apply preserves_bind; [counted_leaf|]. intros _.
    apply preserves_bind; [counted_leaf|]. intros _.
    apply maybe_publish_counted. }
  intros _. apply preserves_bind; [counted_leaf|]. intros _.
  apply preserves_bind.
  { apply sent_counted_leaf; [intros n|apply _check_separation_conflicts_no_produce].
    apply sent_only_check_separation_conflicts, sent_is_sent_only. }
  intros _. apply preserves_bind; [counted_leaf|]. intros _.
  apply preserves_bind.
  { apply sent_counted_leaf; [intros n|apply _trigger_random_emergencies_no_produce].
    apply sent_only_trigger_random_emergencies, sent_is_sent_only. }
  intros _. apply preserves_bind; [counted_leaf|]. intros producer.
  apply preserves_bind.
  { destruct producer as [p|]; [|counted_leaf].
    apply preserves_bind; [counted_leaf|]. intros _.
    apply sent_counted_leaf; [intros n|apply producer_poll_no_produce].
    unfold producer_poll. keeps_go. }
  intros _. apply preserves_bind; [counted_leaf|]. intros _.
  apply preserves_bind.
  { apply sent_counted_leaf; [intros n|apply _log_statistics_no_produce].
    apply sent_only_log_statistics, sent_is_sent_only. }
  intros _. apply preserves_bind.
  { apply sent_counted_leaf; [intros n|apply time_sleep_no_produce].
    apply sent_only_time_sleep, sent_is_sent_only. }
  intros _. counted_leaf.
Qed.

Lemma while_running_counted c fuel :
  forall t, preserves (sent_counted c) (while_running fuel t).
Proof.
  induction fuel as [|fuel IH]; intros t; cbn [while_running].
  - counted_leaf.
  - apply preserves_bind; [counted_leaf|]. intros r. destruct r; [|counted_leaf].
    apply preserves_bind; [apply tick_counted|]. intros t'. apply IH.
Qed.

Lemma stop_counted c : preserves (sent_counted c) stop.
Proof.
  apply sent_counted_leaf; [intros n|apply stop_no_produce].
  apply sent_only_stop, sent_is_sent_only.
Qed.

Lemma run_counted c fuel : preserves (sent_counted c) (run fuel).
Proof.
  unfold run. apply preserves_bind.
  { unfold run_prelude. apply sent_counted_leaf.
    - intros n. keeps_go. destruct x; assumption.
    - emits_go; exact I. }
  intros t s Hs. pose proof (while_running_counted c fuel t s Hs) as H.
  unfold wp in *. destruct (while_running fuel t s) as [[b|e] s']; [destruct b|];
    cbn [fst snd] in *.
  - apply (preserves_try_finally _ (ret true) stop); [counted_leaf|apply stop_counted|].
    exact H.
  - exact H.
  - apply (preserves_try_finally _ (run_handlers e) stop); [|apply stop_counted|exact H].
    unfold run_handlers. destruct e; cbn; counted_leaf.
Qed.

Lemma appends_weaken {X A} ok (m : M (X * World) A) :
  emits_only ok m -> emits_only any_event m.
Proof.
  intros H s. eapply wp_mono; [apply H|]. cbn beta.
  intros r s' (evs & Hout & _). exists evs. split; [exact Hout|].
  apply Forall_forall. intros; exact I.
Qed.

Lemma maybe_publish_appends i : emits_only any_event (maybe_publish i).
Proof.
  unfold maybe_publish. emits_go; try exact I.
  - apply generate_message_emits.
  - apply (appends_weaken _ _ (_publish_message_quiet _)).
Qed.

Lemma tick_appends t : emits_only any_event (tick t).
Proof.
  unfold tick.
  apply emits_bind; [auto with emits|]. intros current_time. cbv zeta.
  apply emits_bind; [auto with emits|]. intros fleet.
  apply emits_bind.
  { emits_go; try exact I; [apply update_position_emits|apply maybe_publish_appends]. }
  intros _. apply emits_bind; [emits_go; exact I|]. intros _.
  apply emits_bind; [apply (appends_weaken _ _ _check_separation_conflicts_quiet)|].
  intros _. apply emits_bind; [emits_go; exact I|]. intros _.
  apply emits_bind; [apply (appends_weaken _ _ _trigger_random_emergencies_quiet)|].
  intros _. apply emits_bind; [auto with emits|]. intros producer.
  apply emits_bind.
  { destruct producer as [p|]; [|apply emits_ret].
    apply emits_bind; [emits_go; exact I|]. intros _.
    apply (appends_weaken _ _ (producer_poll_quiet _)). }
  intros _. apply emits_bind; [emits_go; exact I|]. intros _.
  apply emits_bind; [apply (appends_weaken _ _ _log_statistics_quiet)|]. intros _.
  apply emits_bind; [apply (appends_weaken _ _ (time_sleep_quiet _))|]. intros _.
  apply emits_ret.
Qed.

Lemma while_running_appends fuel : forall t, emits_only any_event (while_running fuel t).
Proof.
  induction fuel as [|fuel IH]; intros t; cbn [while_running].
  - emits_go.
  - apply emits_bind; [auto with emits|]. intros r. destruct r; [|apply emits_ret].
    apply emits_bind; [apply tick_appends|]. intros t'. apply IH.
Qed.

Lemma appends_try_finally {X A} (body : M (X * World) A) cleanup :
  emits_only any_event body -> emits_only any_event cleanup ->
  emits_only any_event (try_finally body cleanup).
Proof.
  intros Hb Hc s. pose proof (Hb s) as H1. unfold wp, try_finally in *.
  destruct (body s) as [r s1]. cbn [fst snd] in *.
  pose proof (Hc s1) as H2. unfold wp in H2.
  destruct H1 as (evs1 & Ho1 & _).
  destruct (cleanup s1) as [[u|e] s2]; cbn [fst snd] in *;
    destruct H2 as (evs2 & Ho2 & _); exists (evs1 ++ evs2);
    (split; [rewrite Ho2, Ho1, app_assoc; reflexivity|apply Forall_forall; intros; exact I]).
Qed.

Lemma run_appends fuel : emits_only any_event (run fuel).
Proof.
  unfold run. apply emits_bind.
  { unfold run_prelude. emits_go; exact I. }
  intros t s. pose proof (while_running_appends fuel t s) as H.
  unfold wp in *. destruct (while_running fuel t s) as [[b|e] s'] eqn:E; [destruct b|];
    cbn [fst snd] in *.
  - destruct H as (evs1 & Ho1 & _).
    destruct (appends_try_finally (ret true) stop (emits_ret _ _) stop_emits s')
      as (evs2 & Ho2 & _).
    exists (evs1 ++ evs2).
    split; [rewrite Ho2, Ho1, app_assoc; reflexivity|apply Forall_forall; intros; exact I].
  - exact H.
  - destruct H as (evs1 & Ho1 & _).
    assert (Hh : emits_only any_event (run_handlers e)).
    { unfold run_handlers. destruct e; cbn; emits_go; exact I. }
    destruct (appends_try_finally (run_handlers e) stop Hh stop_emits s')
      as (evs2 & Ho2 & _).
    exists (evs1 ++ evs2).
    split; [rewrite Ho2, Ho1, app_assoc; reflexivity|apply Forall_forall; intros; exact I].
Qed.

(** The output only grew from [s] to [s'], and the counter grew by the
    number of records handed to the producer meanwhile. *)
Definition counts_from (s s' : ADSBSimulator * World) : Prop :=
  exists evs,
    out (snd s') = out (snd s) ++ evs /\
    messages_sent (fst s') = (messages_sent (fst s) + Z.of_nat (produced evs))%Z.

Lemma counts_from_run {A} (m : M (ADSBSimulator * World) A) (s : ADSBSimulator * World) :
  (forall c, preserves (sent_counted c) m) ->
  emits_only any_event m ->
  counts_from s (snd (m s)).
Proof.
  intros Hm He. destruct (He s) as (evs & Hout & _). exists evs.
  split; [exact Hout|].
  pose proof (Hm (messages_sent (fst s) - Z.of_nat (produced (out (snd s))))%Z s) as H.
  unfold wp, sent_counted in H. rewrite H by lia.
  rewrite Hout, produced_app. lia.
Qed.

(** The output only grew from [s] to [s'], and the counter went up by no
    more than the number of records handed to the producer meanwhile. *)
Definition counts_at_most (s s' : ADSBSimulator * World) : Prop :=
  exists evs,
    out (snd s') = out (snd s) ++ evs /\
    (messages_sent (fst s) <= messages_sent (fst s')
     <= messages_sent (fst s) + Z.of_nat (produced evs))%Z.

(** The computation returned or ended with an [Exception]: neither
    [sys.exit] nor an interrupt cut it short. *)
Definition uninterrupted {A} (r : result A) : bool :=
  match r with
  | Ok _ => true
  | Raise e => is_Exception e
  end.

(** What holds of the counter after [m], from [s]. *)
Definition counts_along {A} (m : M (ADSBSimulator * World) A)
           (s : ADSBSimulator * World) : Prop :=
  counts_at_most s (snd (m s)) /\
  (uninterrupted (fst (m s)) = true -> counts_from s (snd (m s))).

Lemma counts_from_along {A} (m : M (ADSBSimulator * World) A) s :
  counts_from s (snd (m s)) -> counts_along m s.
Proof.
  intros (evs & Hout & Hsent). split.
  - exists evs. split; [exact Hout|lia].
  - intros _. exists evs. auto.
Qed.

(** X17.  Along a run the output only grows, and [messages_sent] never goes
    down and never goes beyond the records handed to the producer: after
    one pass of the loop, after any number of passes and after the whole of
    [run], however they end, the counter has grown by at most the number of
    [produce] calls that returned since.  When the pass, the passes or
    [run] returned or ended with an [Exception], it has grown by exactly
    that number; so a record that the producer refused, or a delivery that
    failed later, does not change it.  Only an end by [sys.exit] in the
    signal handler is left with the bound alone. *)
Theorem messages_sent_counts_produced (fuel : nat) (t : Q) (s : ADSBSimulator * World) :
  counts_along (tick t) s /\
  counts_along (while_running fuel t) s /\
  counts_along (run fuel) s.
Proof.
  split; [|split]; apply counts_from_along, counts_from_run.
  - intros c. apply tick_counted.
  - apply tick_appends.
  - intros c. apply while_running_counted.
  - apply while_running_appends.
  - intros c. apply run_counted.
  - apply run_appends.
Qed.

(** ** A start builds no aircraft *)

(** The number of aircraft the configuration asks for, as [range] reads it. *)
Definition requested_aircraft (cfg : yaml) : result Z :=
  match config_lookup cfg "simulation" "num_aircraft" with
  | Ok v => as_range_bound v
  | Raise e => Raise e
  end.

Lemma new_Aircraft_fails {X} icao category (s : X * World) :
  wp (new_Aircraft icao category)
     (fun r s' => r = Raise (AttributeError "waypoints") /\ fst s' = fst s) s.
Proof.
  unfold wp, new_Aircraft.
  pose proof (Aircraft__init___raises icao category (snd s)) as H. unfold wp in H.
  destruct (Aircraft__init__ icao category (empty_instance, snd s)) as [r [o w]].
  cbn in H. subst r. split; reflexivity.
Qed.

(** [_generate_aircraft_fleet] returns only when the configuration asks for
    no aircraft, and then the simulator is as it was; with a number for the
    jet ratio, asking for an aircraft ends in the error of the
    constructor. *)
Lemma _generate_aircraft_fleet_cases (s : ADSBSimulator * World) :
  wp _generate_aircraft_fleet
     (fun r s' =>
        fst s' = fst s /\
        match r with
        | Ok _ => exists z, requested_aircraft (config (fst s)) = Ok z /\ (z <= 0)%Z
        | Raise e =>
            forall z ratio q,
              requested_aircraft (config (fst s)) = Ok z -> (1 <= z)%Z ->
              config_lookup (config (fst s)) "aircraft_types" "jet_ratio" = Ok ratio ->
              as_number ratio = Ok q ->
              e = AttributeError "waypoints"
        end) s.
Proof.
  destruct s as [sim w]. unfold _generate_aircraft_fleet, requested_aircraft.
  apply wp_bind, wp_config_get. cbn [fst snd].
  destruct (config_lookup (config sim) "simulation" "num_aircraft") as [num|e];
    [|split; [reflexivity|]; intros; discriminate].
  apply wp_bind, wp_config_get. cbn [fst snd].
  destruct (config_lookup (config sim) "aircraft_types" "jet_ratio") as [ratio|e].
  2:{ split; [reflexivity|]. intros; discriminate. }
  apply wp_bind, wp_lift. destruct (as_range_bound num) as [z|e];
    [|split; [reflexivity|]; intros; discriminate].
  apply wp_bind. destruct (Z.to_nat z) as [|n] eqn:Hz.
  - cbn [for_range]. apply wp_ret. apply wp_bind, wp_lift.
    destruct (int_of_product z ratio) as [jets|e].
    + unfold logger. wp_go. split; [reflexivity|]. exists z. split; [reflexivity|lia].
    + split; [reflexivity|]. intros z' ratio' q [= <-]. lia.
  - cbn [for_range]. apply wp_bind, wp_bind.
    apply wp_random_randint; [lia|]. intros icao _.
    apply wp_bind, wp_random_random. intros u _ _.
    apply wp_bind, wp_lift. unfold drawn. cbn [fst snd].
    destruct (as_number ratio) as [q|e] eqn:Hq.
    + apply wp_bind. eapply wp_mono; [apply new_Aircraft_fails|].
      cbn [fst snd]. intros r s' [-> ->]. split; [reflexivity|].
      intros z' ratio' q' _ _ _ _. reflexivity.
    + split; [reflexivity|]. intros z' ratio' q' _ _ [= <-]. congruence.
Qed.

Lemma new_ADSBSimulator_cases config_path (w : World) :
  let cfg := match safe_load env config_path with
             | inr doc => doc
             | inl _ => default_config
             end in
  match fst (new_ADSBSimulator config_path (tt, w)) with
  | Ok simulator =>
      config simulator = cfg /\ aircraft simulator = [] /\
      messages_sent simulator = 0%Z /\ running simulator = false /\
      exists z, requested_aircraft cfg = Ok z /\ (z <= 0)%Z
  | Raise e =>
      forall z ratio q,
        requested_aircraft cfg = Ok z -> (1 <= z)%Z ->
        config_lookup cfg "aircraft_types" "jet_ratio" = Ok ratio ->
        as_number ratio = Ok q ->
        e = AttributeError "waypoints"
  end.
Proof.
  intros cfg. unfold new_ADSBSimulator. unfold bind at 1.
  assert (Hload : exists w1, @_load_config unit config_path (tt, w) = (Ok cfg, (tt, w1))).
  { subst cfg. destruct (safe_load env config_path) as [f|doc] eqn:Hl.
    - rewrite (_load_config_default _ _ _ Hl). eexists. reflexivity.
    - rewrite (_load_config_loaded _ _ _ Hl). eexists. reflexivity. }
  destruct Hload as [w1 ->].
  unfold bind at 1, time_time at 1. cbn [fst snd].
  unfold bind at 1, time_time at 1. cbn [fst snd].
  set (self := {| config := cfg |}). set (w' := with_clock_pos _ _).
  pose proof (_setup_kafka_returns (self, w')) as [[] Hret].
  pose proof (_setup_kafka_keeps
                (fun sim => config sim = cfg /\ aircraft sim = [] /\
                            messages_sent sim = 0%Z /\ running sim = false)
                (fun v sim H => H) (self, w')) as Hkeep.
  unfold wp in Hkeep. unfold bind at 1.
  destruct (_setup_kafka (self, w')) as [r s1]. cbn [fst snd] in *. subst r.
  specialize (Hkeep (conj eq_refl (conj eq_refl (conj eq_refl eq_refl)))).
  destruct Hkeep as (Hcfg & Hair & Hsent & Hrun).
  pose proof (_generate_aircraft_fleet_cases s1) as Hgen. unfold wp in Hgen.
  destruct (_generate_aircraft_fleet s1) as [r [self' w'']]. cbn [fst snd] in *.
  destruct Hgen as [-> Hr]. rewrite Hcfg in Hr.
  destruct r as [[]|e]; cbn [fst]; auto.
Qed.

(** X18.  A constructor [ADSBSimulator(config_path)] that returns has built
    no aircraft: it returns only when the configuration in force asks for
    zero aircraft or fewer, and the simulator it returns has an empty fleet,
    has sent nothing and is not running.  When the configuration asks for
    one aircraft or more, with a number for the jet ratio, the constructor
    raises the [AttributeError] of [Aircraft], and the process exits with
    code 1; this is so whenever the file cannot be loaded, since the
    defaults ask for 75 aircraft. *)
Theorem startup_builds_no_aircraft (config_path : string) (fuel : nat) (w : World) :
  (forall simulator,
     fst (new_ADSBSimulator config_path (tt, w)) = Ok simulator ->
     aircraft simulator = [] /\ messages_sent simulator = 0%Z /\
     running simulator = false /\
     exists z, requested_aircraft (config simulator) = Ok z /\ (z <= 0)%Z) /\
  (forall doc z ratio q,
     safe_load env config_path = inr doc ->
     requested_aircraft doc = Ok z -> (1 <= z)%Z ->
     config_lookup doc "aircraft_types" "jet_ratio" = Ok ratio ->
     as_number ratio = Ok q ->
     fst (new_ADSBSimulator config_path (tt, w)) = Raise (AttributeError "waypoints") /\
     fst (main config_path fuel w) = Some (Exit 1)) /\
  (forall f,
     safe_load env config_path = inl f ->
     fst (new_ADSBSimulator config_path (tt, w)) = Raise (AttributeError "waypoints") /\
     fst (main config_path fuel w) = Some (Exit 1)).
Proof.
  pose proof (new_ADSBSimulator_cases config_path w) as H. cbv zeta in H.
  assert (Hmain : fst (new_ADSBSimulator config_path (tt, w))
                  = Raise (AttributeError "waypoints") ->
                  fst (main config_path fuel w) = Some (Exit 1)).
  { intros Hnew. unfold main, try_except_Exception, bind.
    destruct (new_ADSBSimulator config_path (tt, w)) as [r [u w1]].
    cbn [fst] in Hnew. subst r. reflexivity. }
  assert (Hfail : forall cfg z ratio q,
            cfg = match safe_load env config_path with
                  | inr doc => doc
                  | inl _ => default_config
                  end ->
            requested_aircraft cfg = Ok z -> (1 <= z)%Z ->
            config_lookup cfg "aircraft_types" "jet_ratio" = Ok ratio ->
            as_number ratio = Ok q ->
            fst (new_ADSBSimulator config_path (tt, w))
            = Raise (AttributeError "waypoints")).
  { intros cfg z ratio q -> Hz Hz1 Hr Hq.
    destruct (fst (new_ADSBSimulator config_path (tt, w))) as [simulator|e].
    - destruct H as (_ & _ & _ & _ & z' & Hz' & Hle). rewrite Hz in Hz'.
      injection Hz' as <-. lia.
    - f_equal. eapply H; eassumption. }
  split; [|split].
  - intros simulator Hnew. rewrite Hnew in H.
    destruct H as (-> & Hair & Hsent & Hrun & Hz). auto.
  - intros doc z ratio q Hload Hz Hz1 Hr Hq.
    assert (Hnew : fst (new_ADSBSimulator config_path (tt, w))
                   = Raise (AttributeError "waypoints")).
    { apply (Hfail doc z ratio q); [rewrite Hload; reflexivity|assumption..]. }
    split; [exact Hnew|apply Hmain, Hnew].
  - intros f Hload.
    assert (Hnew : fst (new_ADSBSimulator config_path (tt, w))
                   = Raise (AttributeError "waypoints")).
    { apply (Hfail default_config 75%Z (YFloat (7 # 10)) (7 # 10)%Q);
        [rewrite Hload; reflexivity|vm_compute; reflexivity|lia
        |vm_compute; reflexivity|reflexivity]. }
    split; [exact Hnew|apply Hmain, Hnew].
Qed.

(** ** A process without aircraft *)

(** On a simulator with an empty fleet, [m] leaves the fleet empty and hands
    no record to the producer. *)
Definition grounded {A} (m : M (ADSBSimulator * World) A) : Prop :=
  forall s, aircraft (fst s) = [] ->
    wp m (fun _ s' => aircraft (fst s') = [] /\
                      exists evs, out (snd s') = out (snd s) ++ evs /\
                                  Forall not_produce evs) s.

Lemma grounded_leaf {A} (m : M (ADSBSimulator * World) A) :
  keeps (fun sim => aircraft sim = []) m -> emits_only not_produce m -> grounded m.
Proof.
  intros Hk He s Hs. pose proof (Hk s Hs) as H1. pose proof (He s) as H2.
  unfold wp in *. split; assumption.
Qed.

Lemma grounded_bind {A B} (m : M (ADSBSimulator * World) A)
      (k : A -> M (ADSBSimulator * World) B) :
  grounded m -> (forall a, grounded (k a)) -> grounded (bind m k).
Proof.
  intros Hm Hk s Hs. apply wp_bind. eapply wp_mono; [apply Hm, Hs|]. cbn beta.
  intros [a|e] s' (Hfl & evs1 & Ho1 & Hf1).
  - eapply wp_mono; [apply Hk, Hfl|]. cbn beta.
    intros r s'' (Hfl' & evs2 & Ho2 & Hf2). split; [exact Hfl'|].
    exists (evs1 ++ evs2). rewrite Ho2, Ho1, app_assoc.
    split; [reflexivity|apply Forall_app; auto].
  - split; [exact Hfl|]. exists evs1. auto.
Qed.

Lemma grounded_try_finally {A} (body : M (ADSBSimulator * World) A) cleanup :
  grounded body -> grounded cleanup -> grounded (try_finally body cleanup).
Proof.
  intros Hb Hc s Hs. pose proof (Hb s Hs) as H1. unfold wp, try_finally in *.
  destruct (body s) as [r s1]. cbn [fst snd] in *.
  destruct H1 as (Hfl & evs1 & Ho1 & Hf1).
  pose proof (Hc s1 Hfl) as H2. unfold wp in H2.
  destruct (cleanup s1) as [[u|e] s2]; cbn [fst snd] in *.
  all: destruct H2 as (Hfl' & evs2 & Ho2 & Hf2); split; [exact Hfl'|].
  all: exists (evs1 ++ evs2); rewrite Ho2, Ho1, app_assoc.
  all: split; [reflexivity|apply Forall_app; auto].
Qed.

Lemma empty_fleet_only : fleet_only (fun sim => aircraft sim = []).
Proof. intros sim sim' H Hs. congruence. Qed.

Lemma stop_grounded : grounded stop.
Proof. apply grounded_leaf; [apply stop_keeps, empty_fleet_only|apply stop_no_produce]. Qed.

Lemma rest_of_tick_no_produce current_time delta_time :
  emits_only not_produce (rest_of_tick current_time delta_time 0).
Proof.
  unfold rest_of_tick. cbn [for_range].
  apply emits_bind; [apply emits_ret|]. intros _.
  apply emits_bind; [apply emits_emit; exact I|]. intros _.
  apply emits_bind; [apply _check_separation_conflicts_no_produce|]. intros _.
  apply emits_bind; [apply emits_emit; exact I|]. intros _.
  apply emits_bind; [apply _trigger_random_emergencies_no_produce|]. intros _.
  apply emits_bind; [apply emits_gets|]. intros producer.
  apply emits_bind.
  { destruct producer as [p|]; [|apply emits_ret].
    apply emits_bind; [apply emits_emit; exact I|]. intros _.
    apply producer_poll_no_produce. }
  intros _. apply emits_bind; [apply emits_emit; exact I|]. intros _.
  apply emits_bind; [apply _log_statistics_no_produce|]. intros _.
  apply emits_bind; [apply time_sleep_no_produce|]. intros _. apply emits_ret.
Qed.

Lemma keeps_anything {A} (m : M (Aircraft * World) A) :
  keeps (fun _ : Aircraft => True) m.
Proof. intros s _. exact I. Qed.

Lemma empty_fleet_related (sim : ADSBSimulator) :
  fleet_related (fun _ _ => True) [] sim <-> aircraft sim = [].
Proof.
  unfold fleet_related. split.
  - intros H. inversion H. reflexivity.
  - intros ->. constructor.
Qed.

Lemma tick_grounded t : grounded (tick t).
Proof.
  intros s Hs. unfold wp. split.
  - apply empty_fleet_related.
    apply (tick_related (fun _ _ => True)
             (fun a0 dt => keeps_anything _) (fun a0 kind => keeps_anything _)
             (fun a0 b => keeps_anything _) [] t s).
    apply empty_fleet_related, Hs.
  - rewrite tick_unfold, Hs. cbn [length].
    apply (rest_of_tick_no_produce _ _
             (fst s, with_clock_pos (S (clock_pos (snd s))) (snd s))).
Qed.

Lemma while_running_grounded fuel : forall t, grounded (while_running fuel t).
Proof.
  induction fuel as [|fuel IH]; intros t; cbn [while_running].
  - apply grounded_leaf; [keeps_go|emits_go].
  - apply grounded_bind; [apply grounded_leaf; [keeps_go|emits_go]|].
    intros [|]; [|apply grounded_leaf; [keeps_go|emits_go]].
    apply grounded_bind; [apply tick_grounded|]. intros t'. apply IH.
Qed.

Lemma run_grounded fuel : grounded (run fuel).
Proof.
  unfold run. apply grounded_bind.
  { unfold run_prelude. apply grounded_leaf.
    - keeps_go. destruct x; assumption.
    - emits_go; exact I. }
  intros t s Hs. pose proof (while_running_grounded fuel t s Hs) as H.
  assert (Hend : forall (body : M (ADSBSimulator * World) bool) s',
            grounded body ->
            aircraft (fst s') = [] /\
            (exists evs, out (snd s') = out (snd s) ++ evs /\ Forall not_produce evs) ->
            aircraft (fst (snd (try_finally body stop s'))) = [] /\
            exists evs, out (snd (snd (try_finally body stop s'))) = out (snd s) ++ evs /\
                        Forall not_produce evs).
  { intros body s' Hbody (Hfl & evs1 & Ho1 & Hf1).
    destruct (grounded_try_finally body stop Hbody stop_grounded s' Hfl)
      as (Hfl' & evs2 & Ho2 & Hf2).
    split; [exact Hfl'|]. exists (evs1 ++ evs2). rewrite Ho2, Ho1, app_assoc.
    split; [reflexivity|apply Forall_app; auto]. }
  unfold wp in *. destruct (while_running fuel t s) as [[b|e] s']; [destruct b|];
    cbn [fst snd] in *.
  - apply Hend; [|exact H]. apply grounded_leaf; [keeps_go|emits_go].
  - exact H.
  - apply Hend; [|exact H]. apply grounded_leaf.
    + unfold run_handlers. destruct e; cbn; keeps_go.
    + unfold run_handlers. destruct e; cbn; emits_go; exact I.
Qed.

(** What the constructor writes. *)
Lemma Aircraft__init___emits ok icao category :
  emits_only ok (Aircraft__init__ icao category).
Proof.
  unfold Aircraft__init__, _initialize_flight_parameters. emits_go.
  all: try apply _generate_flight_plan_emits.
Qed.

Lemma new_Aircraft_emits {X} ok icao category :
  emits_only ok (@new_Aircraft X icao category).
Proof.
  intros s. pose proof (Aircraft__init___emits ok icao category (empty_instance, snd s)) as H.
  unfold wp, new_Aircraft in *.
  destruct (Aircraft__init__ icao category (empty_instance, snd s)) as [[u|e] [o w]];
    cbn [fst snd] in *; [destruct (instance_complete o)|]; exact H.
Qed.

Lemma _load_config_no_produce {X} config_path :
  emits_only not_produce (@_load_config X config_path).
Proof.
  unfold _load_config. emits_go; try exact I.
  destruct (safe_load env config_path); auto with emits.
Qed.

Lemma _setup_kafka_no_produce : emits_only not_produce _setup_kafka.
Proof. unfold _setup_kafka. emits_go; try exact I. Qed.

Lemma _generate_aircraft_fleet_no_produce : emits_only not_produce _generate_aircraft_fleet.
Proof.
  unfold _generate_aircraft_fleet. emits_go; try exact I.
  apply new_Aircraft_emits.
Qed.

Lemma new_ADSBSimulator_no_produce {X} config_path :
  emits_only not_produce (@new_ADSBSimulator X config_path).
Proof.
  unfold new_ADSBSimulator.
  apply emits_bind; [apply _load_config_no_produce|]. intros cfg.
  apply emits_bind; [apply emits_time_time|]. intros t_start.
  apply emits_bind; [apply emits_time_time|]. intros t_stats.
  cbv zeta. intros s.
  set (self := {| config := cfg |}).
  assert (H : emits_only not_produce (_setup_kafka ;; _generate_aircraft_fleet)).
  { apply emits_bind; [apply _setup_kafka_no_produce|]. intros _.
    apply _generate_aircraft_fleet_no_produce. }
  specialize (H (self, snd s)). unfold wp in *.
  destruct ((_setup_kafka ;; _generate_aircraft_fleet) (self, snd s)) as [[u|e] [self' w']];
    exact H.
Qed.

(** X19.  The process never hands a record to the producer: whatever the
    configuration file, the bus, the random numbers and the signals are,
    and however long the loop runs, [main] only adds to the output, and
    nothing it adds is a [produce] call.  A simulator that the constructor
    returned runs with an empty fleet, and its counter of messages sent is
    still zero when [run] ends or is cut short. *)
Theorem main_never_publishes (config_path : string) (fuel : nat) (w : World) :
  (exists evs,
     out (snd (main config_path fuel w)) = out w ++ evs /\ Forall not_produce evs) /\
  (forall simulator w1,
     new_ADSBSimulator config_path (tt, w) = (Ok simulator, (tt, w1)) ->
     aircraft (fst (snd (run fuel (simulator, w1)))) = [] /\
     messages_sent (fst (snd (run fuel (simulator, w1)))) = 0%Z).
Proof.
  pose proof (new_ADSBSimulator_cases config_path w) as Hcases. cbv zeta in Hcases.
  pose proof (new_ADSBSimulator_no_produce (X := unit) config_path (tt, w)) as Hnew.
  unfold wp in Hnew. cbn [fst snd] in Hnew.
  split.
  - unfold main, try_except_Exception, bind.
    destruct (new_ADSBSimulator config_path (tt, w)) as [[simulator|e] [u w1]];
      cbn [fst snd] in *.
    + destruct Hcases as (_ & Hfl & _).
      destruct Hnew as (evs1 & Ho1 & Hf1).
      destruct (run_grounded fuel (simulator, w1) Hfl) as (_ & evs2 & Ho2 & Hf2).
      cbn [fst snd] in Ho2.
      assert (Hout : out (snd (snd (run fuel (simulator, w1)))) = out w ++ (evs1 ++ evs2))
        by (rewrite Ho2, Ho1, app_assoc; reflexivity).
      assert (Hall : Forall not_produce (evs1 ++ evs2)) by (apply Forall_app; auto).
      destruct (run fuel (simulator, w1)) as [[[|]|e] [sim' w2]]; cbn [fst snd] in *.
      1,2: exists (evs1 ++ evs2); auto.
      destruct (is_Exception e).
      * exists (evs1 ++ evs2 ++ [Log ERROR (FailedToStartSimulator e)]).
        unfold logger, emit, raise. cbn. rewrite Hout, <- !app_assoc. split; [reflexivity|].
        rewrite app_assoc. apply Forall_app. split; [exact Hall|].
        constructor; [exact I|constructor].
      * exists (evs1 ++ evs2); auto.
    + destruct Hnew as (evs1 & Ho1 & Hf1). destruct (is_Exception e).
      * exists (evs1 ++ [Log ERROR (FailedToStartSimulator e)]).
        unfold logger, emit, raise. cbn. rewrite Ho1, <- app_assoc. split; [reflexivity|].
        apply Forall_app. split; [exact Hf1|]. constructor; [exact I|constructor].
      * exists evs1. auto.
  - intros simulator w1 Hctor. rewrite Hctor in Hcases. cbn [fst] in Hcases.
    destruct Hcases as (_ & Hfl & Hsent & _).
    destruct (run_grounded fuel (simulator, w1) Hfl) as (Hfl' & evs & Ho & Hf).
    split; [exact Hfl'|].
    destruct (counts_from_run (run fuel) (simulator, w1)
                (fun c => run_counted c fuel) (run_appends fuel)) as (evs' & Ho' & Hc).
    rewrite Ho in Ho'. apply app_inv_head in Ho'. subst evs'.
    rewrite Hc, (produced_none _ Hf). cbn [fst]. rewrite Hsent. reflexivity.
Qed.

End Model.

(** * Concrete runs *)

(** A flat earth: a degree is 111 km both ways, a leg goes due north, and the
    trigonometry is linear.  The generator's words are 3, 10, 17, ...; the
    clock gains a tenth of a second at each reading; the bus is up. *)
Definition flat_env (doc : LibraryError + yaml) : Env := {|
  geodesic_kilometers p q :=
    ((Qabs (pt_latitude p - pt_latitude q) + Qabs (pt_longitude p - pt_longitude q)) * 111)%Q;
  geodesic_destination d p b :=
    {| pt_latitude := (pt_latitude p + d / 111)%Q; pt_longitude := pt_longitude p |};
  math_radians x := (x / 57)%Q;
  math_degrees x := (x * 57)%Q;
  math_sin x := x;
  math_cos x := 1%Q;
  math_atan2 y x := y;
  random_words n := N.of_nat (7 * n + 3);
  clock n := (inject_Z (Z.of_nat n) / 10)%Q;
  isoformat t := "2025-01-15T20:09:00+00:00";
  json_dumps m := msg_icao_address m;
  safe_load path := doc;
  new_Producer := None;
  new_AdminClient := None;
  create_topics := None;
  topic_future := None;
  str_exn e := "error";
  produce k := None;
  delivery_reports k := [];
  signal_during_sleep k := None
|}.

Definition initial_world : World :=
  {| rng_pos := 0; clock_pos := 0; bus_pos := 0; poll_pos := 0; sleep_pos := 0; out := [] |}.

(** A jet on the last waypoint of its plan. *)
Definition jet : Aircraft := {|
  icao_address := "ABC123"; aircraft_type := "jet"; faker := FakerObject;
  callsign := "UAL1234";
  latitude := 10; longitude := 20; altitude := 35000; ground_speed := 450;
  max_speed := 600; min_speed := 200; climb_rate := 2000; heading := 90;
  target_altitude := 35000; target_speed := 450; target_heading := 90;
  waypoints := [ {| wp_latitude := 12; wp_longitude := 20; wp_name := "WPT1" |};
                 {| wp_latitude := 14; wp_longitude := 20; wp_name := "WPT2" |};
                 {| wp_latitude := 10; wp_longitude := 20; wp_name := "WPT3" |} ];
  current_waypoint_index := 2;
  emergency_state := false; conflict_state := false; squawk := "1200";
  last_update := 0
|}.

Definition prop : Aircraft := {|
  icao_address := "DEF456"; aircraft_type := "prop"; faker := FakerObject;
  callsign := "SWA4321";
  latitude := -30; longitude := 100; altitude := 12000; ground_speed := 180;
  max_speed := 250; min_speed := 80; climb_rate := 800; heading := 270;
  target_altitude := 12000; target_speed := 180; target_heading := 270;
  waypoints := [ {| wp_latitude := -28; wp_longitude := 100; wp_name := "WPT1" |};
                 {| wp_latitude := -26; wp_longitude := 100; wp_name := "WPT2" |};
                 {| wp_latitude := -24; wp_longitude := 100; wp_name := "WPT3" |} ];
  current_waypoint_index := 0;
  emergency_state := false; conflict_state := false; squawk := "1200";
  last_update := 0
|}.

(** A simulator with the default configuration, the two aircraft and no
    producer. *)
Definition two_aircraft : ADSBSimulator := {|
  config := default_config; aircraft := [jet; prop]; kafka_producer := None;
  running := true; messages_sent := 0; start_time := 0; last_stats_time := 0
|}.

(** A configuration file that parses, asks for no aircraft and has no
    [simulation.emergency_frequency]. *)
Definition doc_without_emergency_frequency : yaml :=
  YMap (<["simulation" := YMap (<["num_aircraft" := YInt 0]> ∅)]>
       (<["aircraft_types" := YMap (<["jet_ratio" := YFloat (7 # 10)]> ∅)]> ∅)).

(** A configuration file that parses and has no [simulation.num_aircraft]. *)
Definition doc_without_num_aircraft : yaml :=
  YMap (<["simulation" := YMap (<["message_interval_min" := YInt 1]> ∅)]>
       (<["aircraft_types" := YMap (<["jet_ratio" := YFloat (7 # 10)]> ∅)]> ∅)).

(** C3 at [jet], which is within 5 km of the last waypoint of its plan: the
    call regenerates the plan and resets the index to 0. *)
Lemma update_position_keeps_waypoint_index_witness :
  waypoint_index_ok jet /\
  fst (update_position (flat_env (inl FileNotFound)) 1 (jet, initial_world)) = Ok tt /\
  waypoint_step (flat_env (inl FileNotFound)) (jet, initial_world)
    (snd (update_position (flat_env (inl FileNotFound)) 1 (jet, initial_world))).
Proof.
  assert (H : waypoint_index_ok jet) by (unfold waypoint_index_ok; cbn; lia).
  split; [exact H|].
  apply (update_position_keeps_waypoint_index (flat_env (inl FileNotFound)) 1
           (jet, initial_world) H).
Defined.

(** X1 at [jet], over three calls with time steps of 1 s, 0.1 s and 30 s. *)
Lemma update_position_keeps_kinematic_invariants_witness :
  kinematic_ok jet /\
  kinematic_ok
    (fst (after_calls (flat_env (inl FileNotFound))
            (map CallUpdatePosition [1; 1 # 10; 30]%Q) (jet, initial_world))).
Proof.
  assert (H : kinematic_ok jet) by (unfold kinematic_ok; cbn; lra).
  split; [exact H|].
  apply (update_position_keeps_kinematic_invariants (flat_env (inl FileNotFound))
           [1; 1 # 10; 30]%Q (jet, initial_world) H).
Defined.

(** C5 at [jet], over a sequence of calls that declares an emergency of an
    unlisted kind, advances the aircraft, flags a conflict, clears the
    emergency and declares a hijack. *)
Lemma squawk_1200_iff_no_emergency_witness :
  squawk_ok jet /\
  squawk_ok
    (fst (after_calls (flat_env (inl FileNotFound))
            [CallTriggerEmergency "bogus"; CallUpdatePosition 1;
             CallSetConflictState true; CallClearEmergency;
             CallTriggerEmergency "hijack"]
            (jet, initial_world))).
Proof.
  assert (H : squawk_ok jet) by (split; reflexivity).
  split; [exact H|].
  apply (squawk_1200_iff_no_emergency (flat_env (inl FileNotFound)) _ (jet, initial_world) H).
Defined.

(** C6, amended, at a configuration file that parses, asks for no aircraft
    and lacks [simulation.emergency_frequency]: the first pass of the loop
    raises [KeyError] in [_trigger_random_emergencies], the error is logged
    and the process exits with code 0. *)
Lemma loop_exception_exits_0_witness :
  fst (main (flat_env (inr doc_without_emergency_frequency)) "config.yaml" 3 initial_world)
    = Some (Exit 0) /\
  In (Log ERROR (SimulationError (KeyError "emergency_frequency")))
     (out (snd (main (flat_env (inr doc_without_emergency_frequency)) "config.yaml" 3
                  initial_world))).
Proof.
  eassert (H : _).
  { eapply (loop_exception_exits_0 (flat_env (inr doc_without_emergency_frequency))
              "config.yaml" 3 initial_world).
    - vm_compute. reflexivity.
    - vm_compute. reflexivity.
    - vm_compute. reflexivity.
    - reflexivity. }
  destruct H as (Hmain & _ & Hlog & _).
  rewrite Hmain. split; [reflexivity | exact Hlog].
Defined.

(** C6 as stated fails on the same run: the simulator starts, the first pass
    raises [KeyError], [run] logs it and returns, and the exit code is 0,
    not 1. *)
Lemma loop_exception_does_not_exit_1 :
  ~ loop_exception_exits_1 (flat_env (inr doc_without_emergency_frequency))
      "config.yaml" 3 initial_world.
Proof.
  intros H. unfold loop_exception_exits_1 in H.
  eassert (H1 : _).
  { eapply H.
    - vm_compute. reflexivity.
    - vm_compute. reflexivity.
    - vm_compute. reflexivity.
    - reflexivity. }
  vm_compute in H1. discriminate H1.
Qed.

(** C7 as stated fails on a configuration file that parses and has a
    [simulation] section without [num_aircraft]: the constructor raises
    [KeyError] instead of starting with 75 aircraft. *)
Lemma absent_num_aircraft_does_not_fall_back :
  ~ absent_key_falls_back (flat_env (inr doc_without_num_aircraft)) "config.yaml"
      initial_world.
Proof.
  intros H.
  edestruct H as (simulator & w' & Hnew & _).
  - reflexivity.
  - vm_compute. reflexivity.
  - vm_compute. reflexivity.
  - vm_compute in Hnew. discriminate Hnew.
Qed.



(** C4 (the code breaks the claim, in binary64 arithmetic).  An aircraft
    heads 3.3 degrees, its waypoint bears 270 degrees, and a second passes:
    the turn leaves the heading at 3.3 - 3.0.  When the variation then draws
    [1801439850948199 / 2^53] from [random.random()], the sum is [- 2^-53],
    and [% 360] rounds it to 360.0: [update_position] leaves a heading that
    is not below 360. *)
Theorem update_position_can_leave_heading_360 :
  Binary64.heading_ok Binary64.heading_3_3 = true /\
  Binary64.heading_after_update 1 Binary64.due_west Binary64.heading_3_3
    Binary64.one_second Binary64.unlucky_draw = Some Binary64.heading_360 /\
  Binary64.heading_ok Binary64.heading_360 = false.
Proof. vm_compute. repeat split. Qed.

(** A jet that is 5000 ft below its target altitude and 20 kt below its
    target speed. *)
Definition climbing_jet : Aircraft :=
  with_altitude 30000 (with_ground_speed 430 jet).

(** X3 at [climbing_jet] for a time step of a second. *)
Lemma _update_speed_approaches_target_witness :
  fst (_update_speed 1 (climbing_jet, initial_world)) = Ok tt /\
  (speed_gap (fst (snd (_update_speed 1
                          (climbing_jet, initial_world))))
   == speed_gap climbing_jet - 2 * 1)%Q.
Proof.
  destruct (_update_speed_approaches_target 1
              (climbing_jet, initial_world))
    as (H1 & _ & _ & _ & H5 & _).
  - discriminate.
  - split; discriminate.
  - split; discriminate.
  - split; [exact H1|]. apply H5. reflexivity.
Defined.

(** X4 at [climbing_jet] for a time step of a second. *)
Lemma _update_altitude_approaches_target_witness :
  fst (_update_altitude 1 (climbing_jet, initial_world))
    = Ok tt /\
  (altitude_gap (fst (snd (_update_altitude 1
                             (climbing_jet, initial_world))))
   == altitude_gap climbing_jet - climb_step climbing_jet 1)%Q.
Proof.
  destruct (_update_altitude_approaches_target 1
              (climbing_jet, initial_world))
    as (H1 & _ & _ & _ & H5 & _).
  - discriminate.
  - discriminate.
  - split; discriminate.
  - split; discriminate.
  - split; [exact H1|]. apply H5. reflexivity.
Defined.

(** X5 at [jet] for a time step of a second. *)
Lemma update_position_turn_rate_witness :
  turned_within (heading jet) (3 * 1 + (1 # 2))
    (fst (snd (update_position (flat_env (inl FileNotFound)) 1 (jet, initial_world)))).
Proof.
  apply (update_position_turn_rate (flat_env (inl FileNotFound)) 1 (jet, initial_world)).
  discriminate.
Defined.

(** An object of which [__init__] has bound the type and, unlike the
    source, the flight plan. *)
Definition jet_with_plan : Instance :=
  bind_waypoints [] (bind_aircraft_type "jet" empty_instance).

(** X10 at [jet_with_plan]. *)
Lemma _initialize_flight_parameters_envelope_witness :
  fst (_initialize_flight_parameters (flat_env (inl FileNotFound))
         (jet_with_plan, initial_world)) = Ok tt.
Proof.
  apply (_initialize_flight_parameters_envelope (flat_env (inl FileNotFound)) "jet" []
           (jet_with_plan, initial_world)); reflexivity.
Defined.
